(** * Crafting-cost calculator: recipe resolution and channel allocation

    A shallow embedding of the computational core of the crafting
    calculator: [DataManager.get_item_price], [DataManager.get_recipe_tree],
    [DataManager.round_quantity] and, from [MaterialTrackingPage],
    [get_total_materials], [get_base_materials], [prepare_materials_data],
    [split_materials], [expand_A], [expand_B], [calculate_A_materials],
    [calculate_B_materials] and [calculate_C_materials].

    Around this core the embedding covers the editing of the catalog
    ([add_item], [update_item], [delete_item], the same for recipes, the
    price overrides and [get_custom_price_changes]), the sorted lists of
    [sort_items], the numbers of the labels and of the plot of the tracking
    page ([update_ticket_materials], [update_unavailable_materials],
    [create_plot_data], ...) and the save handlers of the two dialogs
    ([AddItemDialog.add_or_update_item], [RecipeDialog.save_recipe]).  The
    files that the program writes and its widgets are not modelled: a
    function is given by what it does to the data manager or to the page.

    Conventions of the embedding.
    - Python numbers ([int] and [float]) are exact rationals [Q]; results are
      compared with [==].  Values that the program keeps as [int] (budget caps
      read from an [IntVar], basket quantities, rounded quantities, tree
      levels) are [Z].
    - A Python [float] is a double and the model computes without rounding,
      so two ways of adding the same numbers up agree in the model where the
      program's doubles may differ in the last digits.  Where a property
      says what a total is, it is therefore stated with [=] on the number as
      the program forms it, operation by operation ([running], [take_off],
      [path_demand], [leaf_demand]); a closed form of such a total is stated
      only for inputs on which doubles compute exactly
      ([exact_in_doubles]), and doubling, which is exact on doubles.
    - A raised exception is a value of [exn]; a call that may raise returns a
      [result].
    - The interpreter's bound on the depth of nested calls is the first
      argument [depth] of the two recursive functions: a call that needs more
      frames than [depth] raises [RecursionError].
    - A [dict] that is only looked up is a [gmap]; a [dict] whose iteration
      order is observed is an insertion-ordered association list. *)

From Stdlib Require Import QArith Qround Qabs Lqa Lia ZArith List Permutation Sorted.
From Stdlib Require OrderedTypeEx.
From stdpp Require Import gmap strings list.

Set Warnings "-register-all".

(** ** Python values and exceptions *)

Module Py.

Inductive exn : Type :=
| ValueError (msg : string)
| KeyError (key : string)
| ZeroDivisionError
| RecursionError.

Inductive result (A : Type) : Type :=
| Ok (a : A)
| Raise (e : exn).
Arguments Ok {A} a.
Arguments Raise {A} e.

#[export] Instance result_ret : MRet result := fun A a => Ok a.
#[export] Instance result_bind : MBind result := fun A B f m =>
  match m with
  | Ok a => f a
  | Raise e => Raise e
  end.

(** [for x in l: s = body s x], stopping at the first exception. *)
Fixpoint for_each {S A : Type} (body : S -> A -> result S) (l : list A) (s : S)
  : result S :=
  match l with
  | [] => Ok s
  | x :: l' => s' ← body s x; for_each body l' s'
  end.

(** [for _ in range(n): s = body s] for a body that cannot raise. *)
Fixpoint repeat_loop {S : Type} (body : S -> S) (n : nat) (s : S) : S :=
  match n with
  | O => s
  | Datatypes.S n' => repeat_loop body n' (body s)
  end.

Definition Qltb (a b : Q) : bool :=
  match Qcompare a b with Lt => true | _ => false end.

(** [a != -1], the test against the "unset" sentinel. *)
Definition is_set (a : Q) : bool := negb (Qeq_bool a (-1 # 1)).

(** [a / b]: true division, raising on a zero divisor. *)
Definition div (a b : Q) : result Q :=
  if Qeq_bool b 0 then Raise ZeroDivisionError else Ok (a / b)%Q.

(** [round(q)] on a float: nearest integer, ties to the even one. *)
Definition round (q : Q) : Z :=
  let f := Qfloor q in
  match Qcompare (q - inject_Z f)%Q (1 # 2) with
  | Lt => f
  | Gt => (f + 1)%Z
  | Eq => if Z.even f then f else (f + 1)%Z
  end.

(** [sum(...)] of numbers: left to right from 0. *)
Definition sum (l : list Q) : Q := fold_left Qplus l 0%Q.

(** An insertion-ordered [dict] with string keys. *)
Definition dict (V : Type) : Type := list (string * V).

Fixpoint dict_get {V : Type} (d : dict V) (k : string) : option V :=
  match d with
  | [] => None
  | (k', v) :: d' => if String.eqb k' k then Some v else dict_get d' k
  end.

(** [if k in d: d[k] += v else: d[k] = v]; a new key goes last. *)
Fixpoint dict_add (d : dict Q) (k : string) (v : Q) : dict Q :=
  match d with
  | [] => [(k, v)]
  | (k', v') :: d' =>
      if String.eqb k' k then (k', (v' + v)%Q) :: d'
      else (k', v') :: dict_add d' k v
  end.

(** [d[k] = v]; an existing key keeps its position. *)
Fixpoint dict_set {V : Type} (d : dict V) (k : string) (v : V) : dict V :=
  match d with
  | [] => [(k, v)]
  | (k', v') :: d' =>
      if String.eqb k' k then (k', v) :: d'
      else (k', v') :: dict_set d' k v
  end.

(** [sorted(l, key=key)], with [ltb] for [<] on the keys; the sort is
    stable. *)
Fixpoint insert_sorted {T K : Type} (ltb : K -> K -> bool) (key : T -> K) (x : T)
    (l : list T) : list T :=
  match l with
  | [] => [x]
  | y :: l' =>
      if ltb (key y) (key x) then y :: insert_sorted ltb key x l' else x :: y :: l'
  end.

Definition sorted {T K : Type} (ltb : K -> K -> bool) (key : T -> K) (l : list T)
  : list T :=
  fold_right (insert_sorted ltb key) [] l.

End Py.
Import Py.

(** ** DataManager *)

Module DataManager.

(** An entry of [data["items"]]. *)
Record item_data : Type := {
  price : Q;
  category : string;
  level : Z;
  quality : Z;
  ticket_price : Q;
  camp_contribution : Q;
  new_dollar : Q
}.

(** An element [{"name": ..., "quantity": ...}] of a recipe's materials. *)
Record material : Type := {
  m_name : string;
  m_quantity : Q
}.

(** An entry of [data["recipes"]]. *)
Record recipe : Type := {
  r_materials : list material;
  r_quantity : Q;
  r_crafting_level : Z;
  r_recipe_type : string;
  r_is_exclusive : bool
}.

Record t : Type := {
  items : gmap string item_data;
  recipes : gmap string recipe;
  temp_prices : gmap string Q;
  use_custom_prices : bool
}.

(** A deep copy of the items. *)
Definition get_base_materials_data (self : t) : gmap string item_data := items self.

Definition get_items (self : t) : gmap string item_data := items self.
Definition get_recipes (self : t) : gmap string recipe := recipes self.

Definition get_item_price (self : t) (item_name : string) : result Q :=
  match use_custom_prices self, temp_prices self !! item_name with
  | true, Some custom => Ok custom
  | _, _ =>
      match items self !! item_name with
      | Some item => Ok (price item)
      | None => Raise (KeyError item_name)
      end
  end.

(** The dictionary returned by [get_recipe_tree]; a leaf also carries
    ["price"]. *)
#[local] Unset Elimination Schemes.
Inductive tree_node : Type := TreeNode {
  node_name : string;
  node_quantity : Q;
  node_level : Z;
  node_is_recipe : bool;
  node_children : list tree_node;
  node_price : option Q;
  node_total_cost : Q;
  node_unit_cost : Q
}.
#[local] Set Elimination Schemes.

Fixpoint get_recipe_tree (depth : nat) (self : t) (item_name : string)
    (quantity : Q) (level : Z) : result tree_node :=
  match depth with
  | O => Raise RecursionError
  | S depth' =>
      let recipes := get_recipes self in
      let items := get_items self in
      match recipes !! item_name with
      | Some recipe =>
          acc ← for_each
            (fun (acc : list tree_node * Q) (material : material) =>
               let '(children, total_cost) := acc in
               let material_name := m_name material in
               material_quantity ←
                 div (m_quantity material * quantity)%Q (r_quantity recipe);
               child ← get_recipe_tree depth' self material_name
                         material_quantity (level + 1)%Z;
               Ok (children ++ [child], (total_cost + node_total_cost child)%Q))
            (r_materials recipe) ([], 0%Q);
          let '(children, total_cost) := acc in
          unit_cost ← div total_cost quantity;
          Ok {| node_name := item_name;
                node_quantity := quantity;
                node_level := level;
                node_is_recipe := true;
                node_children := children;
                node_price := None;
                node_total_cost := total_cost;
                node_unit_cost := unit_cost |}
      | None =>
          match items !! item_name with
          | Some _ =>
              price ← get_item_price self item_name;
              let total_cost := (price * quantity)%Q in
              Ok {| node_name := item_name;
                    node_quantity := quantity;
                    node_level := level;
                    node_is_recipe := false;
                    node_children := [];
                    node_price := Some price;
                    node_total_cost := total_cost;
                    node_unit_cost := price |}
          | None => Raise (ValueError ("Item not found: " +:+ item_name))
          end
      end
  end.

(** [round_quantity(quantity, threshold=1e-4)]. *)
Definition round_quantity (quantity threshold : Q) : Z :=
  let rounded := round quantity in
  if Qltb (Qabs (quantity - inject_Z rounded)%Q) threshold then rounded
  else Qceiling quantity.

Definition default_threshold : Q := 1 # 10000.

(** *** Editing the catalog

    The functions below also write the data file ([save_data],
    [save_temp_prices]); they are given here by what they do to the
    manager. *)

(** [x if x is not None else -1] *)
Definition or_unset (x : option Q) : Q := default (-1 # 1)%Q x.

Definition with_items (self : t) (items' : gmap string item_data) : t :=
  {| items := items'; recipes := recipes self; temp_prices := temp_prices self;
     use_custom_prices := use_custom_prices self |}.

Definition with_recipes (self : t) (recipes' : gmap string recipe) : t :=
  {| items := items self; recipes := recipes'; temp_prices := temp_prices self;
     use_custom_prices := use_custom_prices self |}.

Definition with_temp_prices (self : t) (temp_prices' : gmap string Q) : t :=
  {| items := items self; recipes := recipes self; temp_prices := temp_prices';
     use_custom_prices := use_custom_prices self |}.

Definition set_temp_price (self : t) (item_name : string) (price : Q) : t :=
  with_temp_prices self (<[item_name := price]> (temp_prices self)).

Definition clear_temp_prices (self : t) : t := with_temp_prices self ∅.

Definition set_use_custom_prices (self : t) (use_custom : bool) : t :=
  {| items := items self; recipes := recipes self; temp_prices := temp_prices self;
     use_custom_prices := use_custom |}.

(** The overrides are visited in the order of the dictionary; the model
    visits them in the order of [map_to_list]. *)
Definition get_custom_price_changes (self : t) : result (list (string * Q * Q)) :=
  for_each
    (fun (changes : list (string * Q * Q)) '(item_name, custom_price) =>
       match items self !! item_name with
       | Some item => Ok (changes ++ [(item_name, price item, custom_price)])
       | None => Raise (KeyError item_name)
       end)
    (map_to_list (temp_prices self)) [].

Definition new_item (price : Q) (category : string) (level quality : Z)
    (ticket_price camp_contribution new_dollar : option Q) : item_data :=
  Build_item_data price category level quality (or_unset ticket_price)
    (or_unset camp_contribution) (or_unset new_dollar).

Definition add_item (self : t) (name : string) (price : Q) (category : string)
    (level quality : Z) (ticket_price camp_contribution new_dollar : option Q) : t :=
  with_items self
    (<[name := new_item price category level quality ticket_price camp_contribution
                 new_dollar]> (items self)).

Definition item_not_found (name : string) : exn :=
  KeyError ("Item '" +:+ name +:+ "' not found in the database.").

Definition recipe_not_found (product : string) : exn :=
  KeyError ("Recipe for '" +:+ product +:+ "' not found in the database.").

Definition update_item (self : t) (name : string) (price : Q) (category : string)
    (level quality : Z) (ticket_price camp_contribution new_dollar : option Q)
  : result t :=
  match items self !! name with
  | Some _ =>
      Ok (with_items self
            (<[name := new_item price category level quality ticket_price
                         camp_contribution new_dollar]> (items self)))
  | None => Raise (item_not_found name)
  end.

Definition delete_item (self : t) (name : string) : result t :=
  match items self !! name with
  | Some _ => Ok (with_items self (delete name (items self)))
  | None => Raise (item_not_found name)
  end.

Definition new_recipe (materials : list material) (quantity : Q) (crafting_level : Z)
    (recipe_type : string) (is_exclusive : bool) : recipe :=
  Build_recipe materials quantity crafting_level recipe_type is_exclusive.

Definition add_recipe (self : t) (product : string) (materials : list material)
    (quantity : Q) (crafting_level : Z) (recipe_type : string) (is_exclusive : bool) : t :=
  with_recipes self
    (<[product := new_recipe materials quantity crafting_level recipe_type is_exclusive]>
       (recipes self)).

Definition update_recipe (self : t) (product : string) (materials : list material)
    (quantity : Q) (crafting_level : Z) (recipe_type : string) (is_exclusive : bool)
  : result t :=
  match recipes self !! product with
  | Some _ =>
      Ok (with_recipes self
            (<[product := new_recipe materials quantity crafting_level recipe_type
                            is_exclusive]> (recipes self)))
  | None => Raise (recipe_not_found product)
  end.

Definition delete_recipe (self : t) (product : string) : result t :=
  match recipes self !! product with
  | Some _ => Ok (with_recipes self (delete product (recipes self)))
  | None => Raise (recipe_not_found product)
  end.

(** *** Sorted lists of items

    [sort_items] and [sort_items_for_recipe] are functions of the module in
    the source; they are kept with the methods that call them.  The items
    are visited in the order of [map_to_list]. *)

Definition category_order : dict Z :=
  [("木材", 0); ("矿物", 1); ("麻料", 2); ("怪物", 3); ("其它", 4); ("半成品", 5)]%Z.

Definition sort_key (item : string * item_data) : Z * Z * Z * string :=
  let '(name, data) := item in
  let category_rank :=
    default (Z.of_nat (length category_order)) (dict_get category_order (category data)) in
  (category_rank, quality data, level data, name).

(** [<] on the tuples of [sort_key]; strings are compared by code point,
    which is the order of their UTF-8 bytes. *)
Definition sort_key_ltb (a b : Z * Z * Z * string) : bool :=
  let '(rank1, quality1, level1, name1) := a in
  let '(rank2, quality2, level2, name2) := b in
  match (rank1 ?= rank2)%Z with
  | Lt => true
  | Gt => false
  | Eq =>
      match (quality1 ?= quality2)%Z with
      | Lt => true
      | Gt => false
      | Eq =>
          match (level1 ?= level2)%Z with
          | Lt => true
          | Gt => false
          | Eq => String.ltb name1 name2
          end
      end
  end.

Definition sort_items (items : gmap string item_data) : list (string * item_data) :=
  sorted sort_key_ltb sort_key (map_to_list items).

Definition sort_items_for_recipe (items : gmap string item_data)
  : list (string * item_data) :=
  let sorted_items := sort_items items in
  let non_crafted :=
    List.filter (fun '(name, data) => negb (String.eqb (category data) "半成品"))
                sorted_items in
  let crafted :=
    List.filter (fun '(name, data) => String.eqb (category data) "半成品") sorted_items in
  non_crafted ++ crafted.

Definition get_sorted_items (self : t) : list (string * item_data) :=
  sort_items (items self).

Definition get_sorted_items_for_recipe (self : t) : list (string * item_data) :=
  sort_items_for_recipe (items self).

Definition get_sorted_base_items (self : t) : list (string * item_data) :=
  let base_items :=
    filter (fun '(name, data) => recipes self !! name = None) (items self) in
  sort_items base_items.

Definition get_all_categories (self : t) : list string :=
  let predefined_categories := ["木材"; "矿物"; "麻料"; "怪物"; "其它"; "半成品"] in
  let existing_categories : gset string :=
    list_to_set (map (fun '(_, data) => category data) (get_sorted_items self)) in
  sorted String.ltb id (elements (list_to_set predefined_categories ∪ existing_categories)).

End DataManager.

(** ** MaterialTrackingPage *)

Module MaterialTrackingPage.
Import DataManager.

Fixpoint get_base_materials (depth : nat) (data_manager : DataManager.t)
    (item : string) (quantity : Q) : result (dict Q) :=
  match depth with
  | O => Raise RecursionError
  | S depth' =>
      match get_recipes data_manager !! item with
      | Some recipe =>
          for_each
            (fun (base_materials : dict Q) (material : material) =>
               let material_name := m_name material in
               material_quantity ←
                 div (m_quantity material * quantity)%Q (r_quantity recipe);
               sub_materials ← get_base_materials depth' data_manager
                                 material_name material_quantity;
               Ok (fold_left
                     (fun bm '(sub_material, sub_quantity) =>
                        dict_add bm sub_material sub_quantity)
                     sub_materials base_materials))
            (r_materials recipe) []
      | None => Ok [(item, quantity)]
      end
  end.

Definition get_total_materials (depth : nat) (data_manager : DataManager.t)
    (selected_items : dict Z) : result (dict Q) :=
  for_each
    (fun (total_materials : dict Q) '(item, quantity) =>
       materials ← get_base_materials depth data_manager item (inject_Z quantity);
       Ok (fold_left
             (fun tm '(material, amount) => dict_add tm material amount)
             materials total_materials))
    selected_items [].

(** A row [[material, quantity, channel_label, channel_price,
    purchase_price]] of [materials_data].  The label fixes the shape of
    [channel_price]: a number for labels 1 and 3, the pair
    [(camp_contribution, new_dollar)] for label 2; the three shapes are
    three record types and the label is the constructor of [row]. *)
Record row_A : Type := {
  a_material : string;
  a_quantity : Q;
  a_ticket_price : Q;
  a_gold_price : Q
}.

Record row_B : Type := {
  b_material : string;
  b_quantity : Q;
  b_camp_price : Q;
  b_new_dollar_price : Q;
  b_gold_price : Q
}.

Record row_C : Type := {
  c_material : string;
  c_quantity : Q;
  c_channel_price : Q;
  c_purchase_price : Q
}.

Inductive row : Type :=
| Row1 (m : row_A)
| Row2 (m : row_B)
| Row3 (m : row_C).

Definition channel_label (m : row) : Z :=
  match m with Row1 _ => 1 | Row2 _ => 2 | Row3 _ => 3 end.

Definition prepare_materials_data (total_materials : dict Q)
    (base_materials_data : gmap string item_data) : result (list row) :=
  for_each
    (fun (materials_data : list row) '(material, quantity) =>
       match base_materials_data !! material with
       | None => Raise (KeyError material)
       | Some item_data =>
           let purchase_price := price item_data in
           let m :=
             if is_set (ticket_price item_data) then
               Row1 {| a_material := material; a_quantity := quantity;
                       a_ticket_price := ticket_price item_data;
                       a_gold_price := purchase_price |}
             else if is_set (camp_contribution item_data) then
               Row2 {| b_material := material; b_quantity := quantity;
                       b_camp_price := camp_contribution item_data;
                       b_new_dollar_price := new_dollar item_data;
                       b_gold_price := purchase_price |}
             else
               Row3 {| c_material := material; c_quantity := quantity;
                       c_channel_price := price item_data;
                       c_purchase_price := purchase_price |} in
           Ok (materials_data ++ [m])
       end)
    total_materials [].

(** [l.sort(key=...)]: the keys are computed first, for every element, then
    the list is sorted by key, stably. *)
Fixpoint insert_by_key {T : Type} (x : Q * T) (l : list (Q * T)) : list (Q * T) :=
  match l with
  | [] => [x]
  | y :: l' =>
      if Qle_bool (fst x) (fst y) then x :: y :: l'
      else y :: insert_by_key x l'
  end.

Definition sort_by_key {T : Type} (key : T -> result Q) (l : list T)
  : result (list T) :=
  keyed ← for_each (fun acc x => k ← key x; Ok (acc ++ [(k, x)])) l [];
  Ok (map snd (fold_right insert_by_key [] keyed)).

Definition key_A (x : row_A) : result Q := div (a_ticket_price x) (a_gold_price x).
Definition key_B (x : row_B) : result Q := div (b_camp_price x) (b_gold_price x).

Definition split_materials (materials_data : list row)
  : result (list row_A * list row_B * list row_C) :=
  let A := omap (fun m => match m with Row1 a => Some a | _ => None end) materials_data in
  let B := omap (fun m => match m with Row2 b => Some b | _ => None end) materials_data in
  let C := omap (fun m => match m with Row3 c => Some c | _ => None end) materials_data in
  A ← sort_by_key key_A A;
  B ← sort_by_key key_B B;
  Ok (A, B, C).

(** Curve entries [[material, ticket_cost, gold_cost_A]] and
    [[material, camp_cost, new_dollar_cost, gold_cost_B]]. *)
Record entry_A : Type := {
  ea_material : string;
  ea_ticket_cost : Q;
  ea_gold_cost : Q
}.

Record entry_B : Type := {
  eb_material : string;
  eb_camp_cost : Q;
  eb_new_dollar_cost : Q;
  eb_gold_cost : Q
}.

Definition units (quantity : Q) : nat :=
  Z.to_nat (round_quantity quantity default_threshold).

Definition step_A (m : row_A) (st : Q * Q * list entry_A) : Q * Q * list entry_A :=
  let '(ticket_cost, gold_cost_A, A_expand) := st in
  let ticket_cost := (ticket_cost + a_ticket_price m)%Q in
  let gold_cost_A :=
    if is_set (a_gold_price m) then (gold_cost_A - a_gold_price m)%Q
    else gold_cost_A in
  (ticket_cost, gold_cost_A,
   A_expand ++ [{| ea_material := a_material m; ea_ticket_cost := ticket_cost;
                   ea_gold_cost := gold_cost_A |}]).

Definition expand_A (A : list row_A) : list entry_A :=
  let ticket_cost := 0%Q in
  let gold_cost_A :=
    sum (map (fun m => (a_quantity m * a_gold_price m)%Q)
           (List.filter (fun m => is_set (a_gold_price m)) A)) in
  let A_expand := [] in
  snd (fold_left
         (fun st m => repeat_loop (step_A m) (units (a_quantity m)) st)
         A (ticket_cost, gold_cost_A, A_expand)).

Definition step_B (m : row_B) (st : Q * Q * Q * list entry_B)
  : Q * Q * Q * list entry_B :=
  let '(camp_cost, new_dollar_cost, gold_cost_B, B_expand) := st in
  let camp_cost := (camp_cost + b_camp_price m)%Q in
  let new_dollar_cost := (new_dollar_cost + b_new_dollar_price m)%Q in
  let gold_cost_B :=
    if is_set (b_gold_price m) then (gold_cost_B - b_gold_price m)%Q
    else gold_cost_B in
  (camp_cost, new_dollar_cost, gold_cost_B,
   B_expand ++ [{| eb_material := b_material m; eb_camp_cost := camp_cost;
                   eb_new_dollar_cost := new_dollar_cost;
                   eb_gold_cost := gold_cost_B |}]).

Definition expand_B (B : list row_B) : list entry_B :=
  let camp_cost := 0%Q in
  let new_dollar_cost := 0%Q in
  let gold_cost_B :=
    sum (map (fun m => (b_quantity m * b_gold_price m)%Q)
           (List.filter (fun m => is_set (b_gold_price m)) B)) in
  let B_expand := [] in
  snd (fold_left
         (fun st m => repeat_loop (step_B m) (units (b_quantity m)) st)
         B (camp_cost, new_dollar_cost, gold_cost_B, B_expand)).

(** Buckets are dictionaries keyed by material name. *)
Definition zero_buckets (names : list string) : gmap string Q :=
  fold_left (fun d name => <[name := 0%Q]> d) names ∅.

(** [d[k] += 1] *)
Definition incr (d : gmap string Q) (k : string) : result (gmap string Q) :=
  match d !! k with
  | Some v => Ok (<[k := (v + 1)%Q]> d)
  | None => Raise (KeyError k)
  end.

(** [temp_A]: a curve entry, or [[None, 0, 0]]. *)
Definition frontier_A : Type := option string * Q * Q.
Definition frontier_B : Type := option string * Q * Q * Q.

Definition as_frontier_A (item : entry_A) : frontier_A :=
  (Some (ea_material item), ea_ticket_cost item, ea_gold_cost item).
Definition as_frontier_B (item : entry_B) : frontier_B :=
  (Some (eb_material item), eb_camp_cost item, eb_new_dollar_cost item,
   eb_gold_cost item).

Record buckets (F : Type) : Type := {
  acquired : gmap string Q;
  gold_fallback : gmap string Q;
  unavailable : gmap string Q;
  frontier : F
}.
Arguments acquired {F} _.
Arguments gold_fallback {F} _.
Arguments unavailable {F} _.
Arguments frontier {F} _.

Definition calculate_A_materials (A : list row_A) (A_expand : list entry_A)
    (max_tickets : Z) : result (buckets frontier_A) :=
  let A1 := zero_buckets (map a_material A) in
  let A2 := A1 in
  let A3 := A1 in
  if (max_tickets =? -1)%Z then
    let A1 := fold_left (fun d item => <[a_material item := a_quantity item]> d) A A1 in
    let temp_A :=
      match last A_expand with
      | Some item => as_frontier_A item
      | None => (None, 0%Q, 0%Q)
      end in
    Ok {| acquired := A1; gold_fallback := A2; unavailable := A3;
          frontier := temp_A |}
  else
    for_each
      (fun (st : buckets frontier_A) (item : entry_A) =>
         if Qle_bool (ea_ticket_cost item) (inject_Z max_tickets) then
           A1 ← incr (acquired st) (ea_material item);
           Ok {| acquired := A1; gold_fallback := gold_fallback st;
                 unavailable := unavailable st;
                 frontier := as_frontier_A item |}
         else if is_set (ea_gold_cost item) then
           A2 ← incr (gold_fallback st) (ea_material item);
           Ok {| acquired := acquired st; gold_fallback := A2;
                 unavailable := unavailable st; frontier := frontier st |}
         else
           A3 ← incr (unavailable st) (ea_material item);
           Ok {| acquired := acquired st; gold_fallback := gold_fallback st;
                 unavailable := A3; frontier := frontier st |})
      A_expand
      {| acquired := A1; gold_fallback := A2; unavailable := A3;
         frontier := (None, 0%Q, 0%Q) |}.

Definition calculate_B_materials (B : list row_B) (B_expand : list entry_B)
    (max_camp max_new_dollar : Z) : result (buckets frontier_B) :=
  let B1 := zero_buckets (map b_material B) in
  let B2 := B1 in
  let B3 := B1 in
  if (max_camp =? -1)%Z && (max_new_dollar =? -1)%Z then
    let B1 := fold_left (fun d item => <[b_material item := b_quantity item]> d) B B1 in
    let temp_B :=
      match last B_expand with
      | Some item => as_frontier_B item
      | None => (None, 0%Q, 0%Q, 0%Q)
      end in
    Ok {| acquired := B1; gold_fallback := B2; unavailable := B3;
          frontier := temp_B |}
  else
    for_each
      (fun (st : buckets frontier_B) (item : entry_B) =>
         if ((max_camp =? -1)%Z || Qle_bool (eb_camp_cost item) (inject_Z max_camp))
            && ((max_new_dollar =? -1)%Z
                || Qle_bool (eb_new_dollar_cost item) (inject_Z max_new_dollar)) then
           B1 ← incr (acquired st) (eb_material item);
           Ok {| acquired := B1; gold_fallback := gold_fallback st;
                 unavailable := unavailable st;
                 frontier := as_frontier_B item |}
         else if is_set (eb_gold_cost item) then
           B2 ← incr (gold_fallback st) (eb_material item);
           Ok {| acquired := acquired st; gold_fallback := B2;
                 unavailable := unavailable st; frontier := frontier st |}
         else
           B3 ← incr (unavailable st) (eb_material item);
           Ok {| acquired := acquired st; gold_fallback := gold_fallback st;
                 unavailable := B3; frontier := frontier st |})
      B_expand
      {| acquired := B1; gold_fallback := B2; unavailable := B3;
         frontier := (None, 0%Q, 0%Q, 0%Q) |}.

(** Returns [(C2, C3, temp_C)]. *)
Definition calculate_C_materials (C : list row_C)
  : gmap string Q * gmap string Q * Q :=
  let C2 := zero_buckets (map c_material C) in
  let C3 := C2 in
  fold_left
    (fun '(C2, C3, temp_C) item =>
       if is_set (c_channel_price item) then
         (<[c_material item := c_quantity item]> C2, C3,
          (temp_C + c_quantity item * c_channel_price item)%Q)
       else
         (C2, <[c_material item := c_quantity item]> C3, temp_C))
    C (C2, C3, 0%Q).

(** The fields of the page that the calculation reads and writes: the
    basket, the aggregated demand, the rows and curves of the channels, the
    three budget entries and the buckets of [material_data]. *)
Record page : Type := {
  selected_items : dict Z;
  total_materials : dict Q;
  base_materials_data : gmap string item_data;
  A : list row_A;
  B : list row_B;
  C : list row_C;
  A_expand : list entry_A;
  B_expand : list entry_B;
  max_tickets : Z;
  max_camp : Z;
  max_new_dollar : Z
}.

Record material_data : Type := {
  data_A : buckets frontier_A;
  data_B : buckets frontier_B;
  data_C : gmap string Q * gmap string Q * Q
}.

Definition calculate_material_data (self : page) : result material_data :=
  data_A ← calculate_A_materials (A self) (A_expand self) (max_tickets self);
  data_B ← calculate_B_materials (B self) (B_expand self) (max_camp self)
             (max_new_dollar self);
  let data_C := calculate_C_materials (C self) in
  Ok {| data_A := data_A; data_B := data_B; data_C := data_C |}.

(** [calculate_costs]: the rows, the curves and the buckets, from the
    aggregated demand. *)
Definition calculate_costs (self : page) : result (page * material_data) :=
  materials_data ← prepare_materials_data (total_materials self)
                     (base_materials_data self);
  '(A, B, C) ← split_materials materials_data;
  let self :=
    {| selected_items := selected_items self;
       total_materials := total_materials self;
       base_materials_data := base_materials_data self;
       A := A; B := B; C := C;
       A_expand := expand_A A; B_expand := expand_B B;
       max_tickets := max_tickets self; max_camp := max_camp self;
       max_new_dollar := max_new_dollar self |} in
  material_data ← calculate_material_data self;
  Ok (self, material_data).

(** [calculate_materials]: the basket is read from the entries of the
    page, [(item, quantity)] in their order; an entry without a name or
    with a quantity that is not positive is skipped. *)
Definition calculate_materials (depth : nat) (data_manager : DataManager.t)
    (item_entries : list (string * Z)) (max_tickets max_camp max_new_dollar : Z)
  : result (page * material_data) :=
  let selected_items :=
    fold_left
      (fun (selected_items : dict Z) '(item, quantity) =>
         if negb (String.eqb item "") && (0 <? quantity)%Z
         then dict_set selected_items item quantity
         else selected_items)
      item_entries [] in
  total_materials ← get_total_materials depth data_manager selected_items;
  let base_materials_data := get_base_materials_data data_manager in
  calculate_costs
    {| selected_items := selected_items;
       total_materials := total_materials;
       base_materials_data := base_materials_data;
       A := []; B := []; C := []; A_expand := []; B_expand := [];
       max_tickets := max_tickets; max_camp := max_camp;
       max_new_dollar := max_new_dollar |}.

(** [create_plot_data]: the arrays [X], [Y] and [Z] as lists of rows; the
    empty array is the empty list. *)
Definition create_plot_data (A_expand : list entry_A) (B_expand : list entry_B)
  : list (list Q) * list (list Q) * list (list Q) :=
  match A_expand, B_expand with
  | [], _ | _, [] => ([], [], [])
  | _, _ =>
      let ticket_values := map ea_ticket_cost A_expand in
      let camp_values := map eb_camp_cost B_expand in
      let X := map (fun _ => ticket_values) camp_values in
      let Y := map (fun camp => map (fun _ => camp) ticket_values) camp_values in
      let A_gold := map ea_gold_cost A_expand in
      let B_gold := map eb_gold_cost B_expand in
      let Z := map (fun b => map (fun a => (a + b)%Q) A_gold) B_gold in
      (X, Y, Z)
  end.

(** Python's [==] on a name or [None], and on the lists [temp_A] and
    [temp_B]. *)
Definition name_eqb (x y : option string) : bool :=
  match x, y with
  | Some a, Some b => String.eqb a b
  | None, None => true
  | _, _ => false
  end.

Definition frontier_A_eqb (x y : frontier_A) : bool :=
  let '(name1, ticket1, gold1) := x in
  let '(name2, ticket2, gold2) := y in
  name_eqb name1 name2 && Qeq_bool ticket1 ticket2 && Qeq_bool gold1 gold2.

Definition frontier_B_eqb (x y : frontier_B) : bool :=
  let '(name1, camp1, dollar1, gold1) := x in
  let '(name2, camp2, dollar2, gold2) := y in
  name_eqb name1 name2 && Qeq_bool camp1 camp2 && Qeq_bool dollar1 dollar2
  && Qeq_bool gold1 gold2.

(** The numbers that the labels of the page show: the spend and the
    balance, [None] being the infinity sign; the gold to buy; the three
    shortages. *)
Definition update_ticket_materials (max_tickets : Z) (data : material_data)
  : Q * option Q :=
  let '(_, spent, _) := frontier (data_A data) in
  (spent,
   if (max_tickets =? -1)%Z then None else Some (inject_Z max_tickets - spent)%Q).

Definition update_camp_materials (max_camp max_new_dollar : Z) (data : material_data)
  : Q * Q * option Q * option Q :=
  let '(_, camp, dollar, _) := frontier (data_B data) in
  (camp, dollar,
   if (max_camp =? -1)%Z then None else Some (inject_Z max_camp - camp)%Q,
   if (max_new_dollar =? -1)%Z then None else Some (inject_Z max_new_dollar - dollar)%Q).

Definition update_gold_materials (data : material_data) : Q :=
  let '(_, _, gold_A) := frontier (data_A data) in
  let '(_, _, _, gold_B) := frontier (data_B data) in
  let '(_, _, temp_C) := data_C data in
  (gold_A + gold_B + temp_C)%Q.

Definition update_unavailable_materials (self : page) (data : material_data)
  : Q * Q * Q :=
  let temp_A := frontier (data_A data) in
  let temp_B := frontier (data_B data) in
  let ticket_shortage :=
    match last (A_expand self) with
    | Some e =>
        if negb (frontier_A_eqb temp_A (as_frontier_A e))
        then (ea_ticket_cost e - inject_Z (max_tickets self))%Q else 0%Q
    | None => 0%Q
    end in
  let camp_shortage :=
    match last (B_expand self) with
    | Some e =>
        if negb (frontier_B_eqb temp_B (as_frontier_B e))
        then (eb_camp_cost e - inject_Z (max_camp self))%Q else 0%Q
    | None => 0%Q
    end in
  let new_dollar_shortage :=
    match last (B_expand self) with
    | Some e =>
        if negb (frontier_B_eqb temp_B (as_frontier_B e))
        then (eb_new_dollar_cost e - inject_Z (max_new_dollar self))%Q else 0%Q
    | None => 0%Q
    end in
  (ticket_shortage, camp_shortage, new_dollar_shortage).

End MaterialTrackingPage.

(** ** AddItemDialog *)

Module AddItemDialog.
Import DataManager.

(** The widgets when the button is pressed.  The text of a numeric field is
    given by the number that [float] or [int] reads from it, [None] where
    they raise [ValueError]. *)
Record form : Type := {
  name_entry : string;
  use_gold_price_var : bool;
  price_entry : option Q;
  use_ticket_price_var : bool;
  ticket_price_entry : option Q;
  use_camp_price_var : bool;
  camp_contribution_entry : option Q;
  new_dollar_entry : option Q;
  category_combobox : string;
  level_combobox : option Z;
  quality_combobox : option Z
}.

(** How the handler ends: the item is stored and the dialog closes with
    [result]; the error box is shown, after a [ValueError]; an exception
    that the handler does not catch leaves it. *)
Inductive outcome : Type :=
| Saved (data_manager : DataManager.t) (result : string)
| Rejected (data_manager : DataManager.t)
| Uncaught (data_manager : DataManager.t) (e : exn).

(** The values read in the [try] block, up to the test of the ranges;
    [None] is a [ValueError]. *)
Definition read (f : form) : option item_data :=
  price ← (if use_gold_price_var f then price_entry f else Some (-1 # 1)%Q);
  let category := category_combobox f in
  level ← level_combobox f;
  quality ← quality_combobox f;
  ticket_price ← (if use_ticket_price_var f then ticket_price_entry f else Some (-1 # 1)%Q);
  camp ← (if use_camp_price_var f
          then camp_contribution ← camp_contribution_entry f;
               new_dollar ← new_dollar_entry f;
               Some (camp_contribution, new_dollar)
          else Some (-1 # 1, -1 # 1)%Q);
  let '(camp_contribution, new_dollar) := camp in
  if String.eqb (name_entry f) "" || String.eqb category ""
     || negb ((1 <=? level)%Z && (level <? 15)%Z)
     || negb ((1 <=? quality)%Z && (quality <? 6)%Z)
  then None
  else Some {| price := price; category := category; level := level; quality := quality;
               ticket_price := ticket_price; camp_contribution := camp_contribution;
               new_dollar := new_dollar |}.

(** [add_or_update_item]; [item_to_edit] is [None] or the name of the item
    that the dialog was opened on.  [last_item] is not part of the
    model. *)
Definition add_or_update_item (data_manager : DataManager.t)
    (item_to_edit : option string) (f : form) : outcome :=
  let name := name_entry f in
  match read f with
  | None => Rejected data_manager
  | Some d =>
      match item_to_edit with
      | Some old =>
          if String.eqb old "" then
            Saved (add_item data_manager name (price d) (category d) (level d) (quality d)
                     (Some (ticket_price d)) (Some (camp_contribution d))
                     (Some (new_dollar d))) name
          else
            match (if negb (String.eqb name old) then delete_item data_manager old
                   else Ok data_manager) with
            | Raise e => Uncaught data_manager e
            | Ok data_manager' =>
                match update_item data_manager' name (price d) (category d) (level d)
                        (quality d) (Some (ticket_price d)) (Some (camp_contribution d))
                        (Some (new_dollar d)) with
                | Raise e => Uncaught data_manager' e
                | Ok data_manager'' => Saved data_manager'' name
                end
            end
      | None =>
          Saved (add_item data_manager name (price d) (category d) (level d) (quality d)
                   (Some (ticket_price d)) (Some (camp_contribution d))
                   (Some (new_dollar d))) name
      end
  end.

End AddItemDialog.

(** ** RecipeDialog *)

Module RecipeDialog.
Import DataManager.

(** A row of the list of materials: the index that the lambda of its remove
    button captured, and its two variables. *)
Record material_entry : Type := {
  button_index : nat;
  var : string;
  quantity_var : Z
}.

(** [material_entries.pop(index)]; [None] is an [IndexError]. *)
Definition pop {T : Type} (l : list T) (index : nat) : option (list T) :=
  if (index <? length l)%nat then Some (delete index l) else None.

Definition add_material_entry (material_entries : list material_entry)
  : list material_entry :=
  let index := length material_entries in
  material_entries ++ [{| button_index := index; var := ""; quantity_var := 1 |}].

Definition remove_material_entry (material_entries : list material_entry) (index : nat)
  : option (list material_entry) :=
  if (1 <? length material_entries)%nat then pop material_entries index
  else Some material_entries.

(** A click on the remove button of the row at [position]. *)
Definition click_remove (material_entries : list material_entry) (position : nat)
  : option (list material_entry) :=
  match material_entries !! position with
  | Some entry => remove_material_entry material_entries (button_index entry)
  | None => Some material_entries
  end.

(** The dialog is opened to add a recipe or on the recipe [recipe_name]. *)
Inductive mode : Type :=
| New
| Edit (recipe_name : string).

Record form : Type := {
  name_var : string;
  material_entries : list material_entry;
  product_quantity_var : Z;
  crafting_level_var : Z;
  recipe_type_var : string;
  is_exclusive_var : bool
}.

(** How [save_recipe] ends: the recipe is stored and the dialog closes with
    [result]; one of the three checks shows its message; an exception of
    the data manager is shown. *)
Inductive outcome : Type :=
| Saved (data_manager : DataManager.t) (result : string)
| Invalid (message : string)
| Failed (data_manager : DataManager.t) (e : exn).

Definition read_materials (material_entries : list material_entry) : list material :=
  omap (fun entry =>
          if negb (String.eqb (var entry) "") && (0 <? quantity_var entry)%Z
          then Some {| m_name := var entry; m_quantity := inject_Z (quantity_var entry) |}
          else None)
       material_entries.

Definition save_recipe (data_manager : DataManager.t) (m : mode) (f : form) : outcome :=
  let name := name_var f in
  if String.eqb name "" then Invalid "请输入配方名称"
  else
    let materials := read_materials (material_entries f) in
    match materials with
    | [] => Invalid "请至少添加一种材料"
    | _ =>
        let product_quantity := product_quantity_var f in
        let crafting_level := crafting_level_var f in
        let recipe_type := recipe_type_var f in
        let is_exclusive := is_exclusive_var f in
        if (product_quantity <=? 0)%Z || (crafting_level <? 1)%Z
           || (150 <? crafting_level)%Z
        then Invalid "产品数量必须大于0，制作等级必须在1到150之间"
        else
          match m with
          | New =>
              Saved (add_recipe data_manager name materials (inject_Z product_quantity)
                       crafting_level recipe_type is_exclusive) name
          | Edit recipe_name =>
              match update_recipe data_manager name materials (inject_Z product_quantity)
                      crafting_level recipe_type is_exclusive with
              | Raise e => Failed data_manager e
              | Ok data_manager' =>
                  if negb (String.eqb name recipe_name) then
                    match delete_recipe data_manager' recipe_name with
                    | Raise e => Failed data_manager' e
                    | Ok data_manager'' => Saved data_manager'' name
                    end
                  else Saved data_manager' name
              end
          end
    end.

End RecipeDialog.

(** ** Notions used to state the properties *)

Module Spec.
Import DataManager MaterialTrackingPage.

(** The effective price of a material: the temp-price override when the
    custom-price mode is on and an override exists, else the catalog gold
    price. *)
Definition effective_price (dm : DataManager.t) (name : string) (gold_price : Q) : Q :=
  if use_custom_prices dm then default gold_price (temp_prices dm !! name)
  else gold_price.

(** The cost of [n] units of [name], as the bill of materials defines it:
    a material costs its effective price times the quantity; a product made
    by a recipe with output quantity [Q] costs the sum, over the recipe's
    materials [(m_i, q_i)], of the cost of [q_i * n / Q] units of [m_i]. *)
Inductive cost (dm : DataManager.t) : string -> Q -> Q -> Prop :=
| cost_material name q item :
    recipes dm !! name = None ->
    items dm !! name = Some item ->
    cost dm name q (effective_price dm name (price item) * q)%Q
| cost_recipe name n r costs :
    recipes dm !! name = Some r ->
    Forall2 (fun m c => cost dm (m_name m) (m_quantity m * n / r_quantity r)%Q c)
            (r_materials r) costs ->
    cost dm name n (sum costs).

(** [uses dm p m]: the recipe of product [p] lists [m] among its materials. *)
Definition uses (dm : DataManager.t) (p m : string) : Prop :=
  exists r, recipes dm !! p = Some r /\ In m (map m_name (r_materials r)).

(** The recipe graph is acyclic: no infinite chain of "is a material of". *)
Definition acyclic (dm : DataManager.t) : Prop :=
  well_founded (fun m p => uses dm p m).

(** A catalog as the editors write it: output and material quantities are
    not zero (the editors accept positive ones only), and every material of
    a recipe is a recipe or an item. *)
Definition valid_recipe (dm : DataManager.t) (r : recipe) : Prop :=
  ~ (r_quantity r == 0)%Q /\
  Forall (fun m => ~ (m_quantity m == 0)%Q /\
                   (is_Some (recipes dm !! m_name m) \/ is_Some (items dm !! m_name m)))
         (r_materials r).

Definition valid_catalog (dm : DataManager.t) : Prop :=
  acyclic dm /\ forall p r, recipes dm !! p = Some r -> valid_recipe dm r.

(** A property of every node of a tree. *)
Fixpoint every_node (P : tree_node -> Prop) (t : tree_node) : Prop :=
  P t /\
  (fix all (l : list tree_node) : Prop :=
     match l with
     | [] => True
     | c :: l' => every_node P c /\ all l'
     end) (node_children t).

(** [unit_cost] is [total_cost / quantity] at a recipe node and the price at
    a material. *)
Definition unit_cost_ok (t : tree_node) : Prop :=
  if node_is_recipe t then (node_unit_cost t == node_total_cost t / node_quantity t)%Q
  else node_price t = Some (node_unit_cost t).

(** The body of the loop of [get_recipe_tree] over the materials of a
    recipe, the recursive call being [call]. *)
Definition child_step (call : string -> Q -> Z -> result tree_node) (recipe : recipe)
    (quantity : Q) (level : Z) (acc : list tree_node * Q) (material : material)
  : result (list tree_node * Q) :=
  let '(children, total_cost) := acc in
  let material_name := m_name material in
  material_quantity ← div (m_quantity material * quantity)%Q (r_quantity recipe);
  child ← call material_name material_quantity (level + 1)%Z;
  Ok (children ++ [child], (total_cost + node_total_cost child)%Q).

(** [for k, v in sub.items(): if k in base: base[k] += v else: base[k] = v] *)
Definition merge (base sub : dict Q) : dict Q :=
  fold_left (fun bm '(sub_material, sub_quantity) => dict_add bm sub_material sub_quantity)
            sub base.

(** The body of the loop of [get_base_materials], the recursive call being
    [call]. *)
Definition base_step (call : string -> Q -> result (dict Q)) (recipe : recipe)
    (quantity : Q) (base_materials : dict Q) (material : material) : result (dict Q) :=
  let material_name := m_name material in
  material_quantity ← div (m_quantity material * quantity)%Q (r_quantity recipe);
  sub_materials ← call material_name material_quantity;
  Ok (merge base_materials sub_materials).

(** [get_recipe_tree] returns [node] at stack depth [depth], and [node] is
    as the bill of materials asks. *)
Definition resolved (dm : DataManager.t) (depth : nat) (name : string) (n : Q)
    (level : Z) (node : tree_node) : Prop :=
  get_recipe_tree depth dm name n level = Ok node /\
  node_quantity node = n /\
  cost dm name n (node_total_cost node) /\
  every_node unit_cost_ok node.

(** Some call on [p] returns at stack depth [depth]. *)
Definition returns_tree (dm : DataManager.t) (depth : nat) (p : string) : Prop :=
  exists quantity level node, get_recipe_tree depth dm p quantity level = Ok node.

Definition returns_materials (dm : DataManager.t) (depth : nat) (p : string) : Prop :=
  exists quantity d, get_base_materials depth dm p quantity = Ok d.

(** [p] lies on a cycle of the recipe graph. *)
Definition on_cycle (dm : DataManager.t) (p : string) : Prop := tc (uses dm) p p.

(** A call that ends, at some depth of the call stack, with an exception
    other than the exhaustion of that stack. *)
Definition fails_without_exhausting_stack {T : Type} (run : nat -> result T) : Prop :=
  exists depth e, run depth = Raise e /\ e <> RecursionError.

(** The leaves of the decomposition of [quantity] units of [item], one entry
    per path from [item] to a leaf, with the quantity that path asks for. *)
Fixpoint leaf_paths (depth : nat) (dm : DataManager.t) (item : string) (quantity : Q)
  : result (list (string * Q)) :=
  match depth with
  | O => Raise RecursionError
  | S depth' =>
      match recipes dm !! item with
      | Some recipe =>
          for_each
            (fun (paths : list (string * Q)) (material : material) =>
               material_quantity ←
                 div (m_quantity material * quantity)%Q (r_quantity recipe);
               sub ← leaf_paths depth' dm (m_name material) material_quantity;
               Ok (paths ++ sub))
            (r_materials recipe) []
      | None => Ok [(item, quantity)]
      end
  end.

Definition basket_paths (depth : nat) (dm : DataManager.t) (basket : dict Z)
  : result (list (string * Q)) :=
  for_each
    (fun (paths : list (string * Q)) '(item, quantity) =>
       sub ← leaf_paths depth dm item (inject_Z quantity);
       Ok (paths ++ sub))
    basket [].

(** The body of the loops of [leaf_paths] and of [get_total_materials]. *)
Definition path_step (call : string -> Q -> result (list (string * Q))) (recipe : recipe)
    (quantity : Q) (paths : list (string * Q)) (material : material)
  : result (list (string * Q)) :=
  material_quantity ← div (m_quantity material * quantity)%Q (r_quantity recipe);
  sub ← call (m_name material) material_quantity;
  Ok (paths ++ sub).

Definition total_step (call : string -> Q -> result (dict Q)) (total_materials : dict Q)
    (entry : string * Z) : result (dict Q) :=
  materials ← call (fst entry) (inject_Z (snd entry));
  Ok (merge total_materials materials).

(** A dictionary of demands and a list of path contributions that hold the
    same quantity for every material; two outcomes that are such a pair, or
    the same exception. *)
Definition same_demand (d : dict Q) (paths : list (string * Q)) : Prop :=
  NoDup (map fst d) /\
  forall k, (default 0 (dict_get d k) ==
             sum (map snd (List.filter (fun e => String.eqb (fst e) k) paths)))%Q.

Definition agree (r : result (dict Q)) (r' : result (list (string * Q))) : Prop :=
  match r, r' with
  | Ok d, Ok paths => same_demand d paths
  | Raise e, Raise e' => e = e'
  | _, _ => False
  end.

(** [d'] holds [c] times what [d] holds, key by key and in the same
    order. *)
Definition scaled (c : Q) (d d' : dict Q) : Prop :=
  Forall2 (fun x y => fst x = fst y /\ (snd y == c * snd x)%Q) d d'.

(** The sum of the quantities that the entries of [paths] give to [k]. *)
Definition contribution (k : string) (paths : list (string * Q)) : Q :=
  sum (map snd (List.filter (fun e => String.eqb (fst e) k) paths)).

(** The quantity a dictionary of demands holds for [k], 0 when absent. *)
Definition demand (d : dict Q) (k : string) : Q := default 0%Q (dict_get d k).

(** The rounded demand of a row. *)
Definition rounded (quantity : Q) : Z := round_quantity quantity default_threshold.

(** The sort keys as the specification words them: the channel price over
    the gold price, and the channel price alone where the gold price is
    unset. *)
Definition claimed_key_A (x : row_A) : Q :=
  if is_set (a_gold_price x) then (a_ticket_price x / a_gold_price x)%Q
  else a_ticket_price x.

Definition claimed_key_B (x : row_B) : Q :=
  if is_set (b_gold_price x) then (b_camp_price x / b_gold_price x)%Q
  else b_camp_price x.

(** The ratios that the program sorts by. *)
Definition ratio_A (x : row_A) : Q := (a_ticket_price x / a_gold_price x)%Q.
Definition ratio_B (x : row_B) : Q := (b_camp_price x / b_gold_price x)%Q.

Definition ascending {T : Type} (key : T -> Q) (l : list T) : Prop :=
  StronglySorted (fun x y => (key x <= key y)%Q) l.

Definition descending {T : Type} (key : T -> Q) (l : list T) : Prop :=
  StronglySorted (fun x y => (key y <= key x)%Q) l.

(** A price is non-negative whenever it is set. *)
Definition nonneg_if_set (p : Q) : Prop := is_set p = true -> (0 <= p)%Q.

(** Rows of the ticket channel and of the camp channel with non-negative
    prices: the channel prices are set, the gold price may be unset. *)
Definition priced_A (m : row_A) : Prop :=
  (0 <= a_ticket_price m)%Q /\ nonneg_if_set (a_gold_price m).

Definition priced_B (m : row_B) : Prop :=
  (0 <= b_camp_price m)%Q /\ (0 <= b_new_dollar_price m)%Q /\
  nonneg_if_set (b_gold_price m).

(** The camp curve seen as a ticket curve, through one of its two
    currencies. *)
Inductive currency : Type := Camp | Dollar.

Definition row_price (c : currency) (m : row_B) : Q :=
  match c with Camp => b_camp_price m | Dollar => b_new_dollar_price m end.

Definition entry_cost (c : currency) (e : entry_B) : Q :=
  match c with Camp => eb_camp_cost e | Dollar => eb_new_dollar_cost e end.

Definition row_via (c : currency) (m : row_B) : row_A :=
  {| a_material := b_material m; a_quantity := b_quantity m;
     a_ticket_price := row_price c m; a_gold_price := b_gold_price m |}.

Definition entry_via (c : currency) (e : entry_B) : entry_A :=
  {| ea_material := eb_material e; ea_ticket_cost := entry_cost c e;
     ea_gold_cost := eb_gold_cost e |}.

Definition state_via (c : currency) (st : Q * Q * Q * list entry_B)
  : Q * Q * list entry_A :=
  let '(camp_cost, new_dollar_cost, gold_cost, curve) := st in
  (match c with Camp => camp_cost | Dollar => new_dollar_cost end, gold_cost,
   map (entry_via c) curve).

(** The state of the loops of [expand_A]: the entries are in order and the
    running totals bound every entry so far. *)
Definition curve_state_ok (st : Q * Q * list entry_A) : Prop :=
  let '(ticket_cost, gold_cost, curve) := st in
  ascending ea_ticket_cost curve /\ descending ea_gold_cost curve /\
  Forall (fun e => (ea_ticket_cost e <= ticket_cost)%Q /\ (gold_cost <= ea_gold_cost e)%Q)
         curve.

(** The running gold total of a state, which the last entry holds. *)
Definition gold_of (st : Q * Q * list entry_A) : Q := snd (fst st).

Definition last_holds_gold (st : Q * Q * list entry_A) : Prop :=
  forall e, last (snd st) = Some e -> ea_gold_cost e = gold_of st.

(** The gold taken off the running total over all the units of [A]. *)
Definition exchanged_gold (A : list row_A) : Q :=
  sum (map (fun m => (inject_Z (Z.of_nat (units (a_quantity m))) *
                      (if is_set (a_gold_price m) then a_gold_price m else 0))%Q) A).

(** No gold-priced row is snapped down, and one with a positive gold price
    is rounded up. *)
Definition not_snapped_down (quantity gold : Q) : Prop :=
  is_set gold = true -> (0 <= gold)%Q /\ (quantity <= inject_Z (rounded quantity))%Q.

Definition rounded_up (quantity gold : Q) : Prop :=
  is_set gold = true /\ (0 < gold)%Q /\ (quantity < inject_Z (rounded quantity))%Q.

(** Two ticket rows with gold prices: X is snapped down to 3, Y is rounded
    up to 3. *)
Definition snapped_rows : list row_A :=
  [ {| a_material := "X"; a_quantity := 300009 # 100000; a_ticket_price := 1;
       a_gold_price := 10 |};
    {| a_material := "Y"; a_quantity := 29999 # 10000; a_ticket_price := 1;
       a_gold_price := 1 |} ].

(** The rows of each channel, in the order of [materials_data]. *)
Definition rows_A (materials_data : list row) : list row_A :=
  omap (fun m => match m with Row1 a => Some a | _ => None end) materials_data.

Definition rows_B (materials_data : list row) : list row_B :=
  omap (fun m => match m with Row2 b => Some b | _ => None end) materials_data.

Definition rows_C (materials_data : list row) : list row_C :=
  omap (fun m => match m with Row3 c => Some c | _ => None end) materials_data.

(** Three ticket rows: Z has a gold price, X and Y have none. *)
Definition unpriced_rows : list row :=
  [ Row1 {| a_material := "Z"; a_quantity := 1; a_ticket_price := 5; a_gold_price := 8 |};
    Row1 {| a_material := "X"; a_quantity := 1; a_ticket_price := 1;
            a_gold_price := -1 # 1 |};
    Row1 {| a_material := "Y"; a_quantity := 1; a_ticket_price := 2;
            a_gold_price := -1 # 1 |} ].

(** The body of the walks of [calculate_A_materials] and
    [calculate_B_materials] over a curve: an accepted entry adds a unit to
    the first bucket and becomes the frontier, another one adds a unit to
    the second or to the third bucket. *)
Definition route {E F : Type} (accept fallback : E -> bool) (name : E -> string)
    (front : E -> F) (st : buckets F) (item : E) : result (buckets F) :=
  if accept item then
    A1 ← incr (acquired st) (name item);
    Ok {| acquired := A1; gold_fallback := gold_fallback st;
          unavailable := unavailable st; frontier := front item |}
  else if fallback item then
    A2 ← incr (gold_fallback st) (name item);
    Ok {| acquired := acquired st; gold_fallback := A2;
          unavailable := unavailable st; frontier := frontier st |}
  else
    A3 ← incr (unavailable st) (name item);
    Ok {| acquired := acquired st; gold_fallback := gold_fallback st;
          unavailable := A3; frontier := frontier st |}.

Definition accept_A (max_tickets : Z) (item : entry_A) : bool :=
  Qle_bool (ea_ticket_cost item) (inject_Z max_tickets).

Definition accept_B (max_camp max_new_dollar : Z) (item : entry_B) : bool :=
  ((max_camp =? -1)%Z || Qle_bool (eb_camp_cost item) (inject_Z max_camp))
  && ((max_new_dollar =? -1)%Z
      || Qle_bool (eb_new_dollar_cost item) (inject_Z max_new_dollar)).

(** The body of the loop of [calculate_C_materials]. *)
Definition step_C (st : gmap string Q * gmap string Q * Q) (item : row_C)
  : gmap string Q * gmap string Q * Q :=
  let '(C2, C3, temp_C) := st in
  if is_set (c_channel_price item) then
    (<[c_material item := c_quantity item]> C2, C3,
     (temp_C + c_quantity item * c_channel_price item)%Q)
  else
    (C2, <[c_material item := c_quantity item]> C3, temp_C).

(** The three buckets hold a quantity for [k]. *)
Definition tracked {F : Type} (st : buckets F) (k : string) : Prop :=
  is_Some (acquired st !! k) /\ is_Some (gold_fallback st !! k) /\
  is_Some (unavailable st !! k).

(** The number of entries of a curve that belong to material [k]. *)
Definition occurrences (k : string) (names : list string) : nat :=
  length (List.filter (String.eqb k) names).

(** The gold a row takes off the running total over its units. *)
Definition gold_per_unit (m : row_A) : Q :=
  if is_set (a_gold_price m) then a_gold_price m else 0%Q.

(** The three buckets of a material add up to [total]. *)
Definition partitions {F : Type} (b : buckets F) (k : string) (total : Q) : Prop :=
  exists v1 v2 v3,
    acquired b !! k = Some v1 /\ gold_fallback b !! k = Some v2 /\
    unavailable b !! k = Some v3 /\ (v1 + v2 + v3 == total)%Q.

(** The gold that rounding leaves over at the end of a curve: for every
    gold-priced material, (raw quantity - rounded quantity) * gold price. *)
Definition rounding_residue_A (A : list row_A) : Q :=
  sum (map (fun m => ((a_quantity m - inject_Z (rounded (a_quantity m))) * a_gold_price m)%Q)
         (List.filter (fun m => is_set (a_gold_price m)) A)).

Definition rounding_residue_B (B : list row_B) : Q :=
  sum (map (fun m => ((b_quantity m - inject_Z (rounded (b_quantity m))) * b_gold_price m)%Q)
         (List.filter (fun m => is_set (b_gold_price m)) B)).

(** The body of the loop of [get_custom_price_changes], and the entry it
    appends for an override of an item of the catalog. *)
Definition price_change_step (self : DataManager.t) (changes : list (string * Q * Q))
    (e : string * Q) : result (list (string * Q * Q)) :=
  match items self !! fst e with
  | Some item => Ok (changes ++ [(fst e, price item, snd e)])
  | None => Raise (KeyError (fst e))
  end.

Definition change_of (self : DataManager.t) (e : string * Q) : string * Q * Q :=
  (fst e, default 0%Q (price <$> items self !! fst e), snd e).

(** The body of the loop of [calculate_materials] over the entries of the
    page, and the basket it builds. *)
Definition read_entry (selected_items : dict Z) (entry : string * Z) : dict Z :=
  if negb (String.eqb (fst entry) "") && (0 <? snd entry)%Z
  then dict_set selected_items (fst entry) (snd entry)
  else selected_items.

Definition read_basket (item_entries : list (string * Z)) : dict Z :=
  fold_left read_entry item_entries [].

Definition row_name (m : row) : string :=
  match m with
  | Row1 a => a_material a
  | Row2 b => b_material b
  | Row3 c => c_material c
  end.

(** The row that [prepare_materials_data] appends for a demand of
    [quantity] units of [material], an item with data [item_data]; the body
    of its loop. *)
Definition row_for (material : string) (quantity : Q) (item_data : item_data) : row :=
  if is_set (ticket_price item_data) then
    Row1 {| a_material := material; a_quantity := quantity;
            a_ticket_price := ticket_price item_data;
            a_gold_price := price item_data |}
  else if is_set (camp_contribution item_data) then
    Row2 {| b_material := material; b_quantity := quantity;
            b_camp_price := camp_contribution item_data;
            b_new_dollar_price := new_dollar item_data;
            b_gold_price := price item_data |}
  else
    Row3 {| c_material := material; c_quantity := quantity;
            c_channel_price := price item_data;
            c_purchase_price := price item_data |}.

Definition prepare_step (base_materials_data : gmap string item_data)
    (materials_data : list row) (entry : string * Q) : result (list row) :=
  match base_materials_data !! fst entry with
  | None => Raise (KeyError (fst entry))
  | Some item_data => Ok (materials_data ++ [row_for (fst entry) (snd entry) item_data])
  end.

(** A row stands for the demand [entry] of an item of the catalog. *)
Definition row_of_demand (base_materials_data : gmap string item_data)
    (entry : string * Q) (m : row) : Prop :=
  exists item_data,
    base_materials_data !! fst entry = Some item_data /\
    m = row_for (fst entry) (snd entry) item_data.

(** What a row of each channel says about the catalog and the demand: the
    ticket channel holds the items with a ticket price, the camp channel
    those without a ticket price and with a camp contribution, the gold
    channel the others. *)
Definition on_ticket_channel (base_materials_data : gmap string item_data)
    (total_materials : dict Q) (m : row_A) : Prop :=
  exists item_data,
    base_materials_data !! a_material m = Some item_data /\
    In (a_material m, a_quantity m) total_materials /\
    is_set (ticket_price item_data) = true /\
    a_ticket_price m = ticket_price item_data /\ a_gold_price m = price item_data.

Definition on_camp_channel (base_materials_data : gmap string item_data)
    (total_materials : dict Q) (m : row_B) : Prop :=
  exists item_data,
    base_materials_data !! b_material m = Some item_data /\
    In (b_material m, b_quantity m) total_materials /\
    is_set (ticket_price item_data) = false /\
    is_set (camp_contribution item_data) = true /\
    b_camp_price m = camp_contribution item_data /\
    b_new_dollar_price m = new_dollar item_data /\ b_gold_price m = price item_data.

Definition on_gold_channel (base_materials_data : gmap string item_data)
    (total_materials : dict Q) (m : row_C) : Prop :=
  exists item_data,
    base_materials_data !! c_material m = Some item_data /\
    In (c_material m, c_quantity m) total_materials /\
    is_set (ticket_price item_data) = false /\
    is_set (camp_contribution item_data) = false /\
    c_channel_price m = price item_data /\ c_purchase_price m = price item_data.

(** The last entry of a curve that the walk accepts. *)
Definition last_accepted {E : Type} (accept : E -> bool) (curve : list E) : option E :=
  last (List.filter accept curve).

(** [M[i, j]] *)
Definition cell (M : list (list Q)) (i j : nat) : option Q :=
  r ← M !! i; r !! j.

(** The rows of a channel as the curve visits them: each row once per unit
    of its rounded demand. *)
Definition unit_rows {T : Type} (quantity : T -> Q) (rows : list T) : list T :=
  flat_map (fun m => replicate (units (quantity m)) m) rows.

(** The values of an accumulator [acc = f acc x] after each element of
    [l], from [start]. *)
Fixpoint running {X : Type} (f : Q -> X -> Q) (start : Q) (l : list X) : list Q :=
  match l with
  | [] => []
  | x :: l' => f start x :: running f (f start x) l'
  end.

(** [gold_cost] before the loops of [expand_A] and [expand_B]. *)
Definition initial_gold_A (A : list row_A) : Q :=
  sum (map (fun m => (a_quantity m * a_gold_price m)%Q)
         (List.filter (fun m => is_set (a_gold_price m)) A)).

Definition initial_gold_B (B : list row_B) : Q :=
  sum (map (fun m => (b_quantity m * b_gold_price m)%Q)
         (List.filter (fun m => is_set (b_gold_price m)) B)).

(** What a unit of a row takes off the remaining gold: its gold price, or
    nothing when the row has none; [if gold_price != -1: gold_cost -=
    gold_price]. *)
Definition gold_taken_A (m : row_A) : option Q :=
  if is_set (a_gold_price m) then Some (a_gold_price m) else None.

Definition gold_taken_B (m : row_B) : option Q :=
  if is_set (b_gold_price m) then Some (b_gold_price m) else None.

Definition take_off (gold_cost : Q) (gold_price : option Q) : Q :=
  match gold_price with
  | Some gold_price => (gold_cost - gold_price)%Q
  | None => gold_cost
  end.

(** The curve of [expand_A] from the running totals [ticket_cost] and
    [gold_cost], over the units [us]. *)
Fixpoint curve_from (ticket_cost gold_cost : Q) (us : list row_A) : list entry_A :=
  match us with
  | [] => []
  | m :: us' =>
      let ticket_cost := (ticket_cost + a_ticket_price m)%Q in
      let gold_cost := take_off gold_cost (gold_taken_A m) in
      {| ea_material := a_material m; ea_ticket_cost := ticket_cost;
         ea_gold_cost := gold_cost |} :: curve_from ticket_cost gold_cost us'
  end.

(** Rows on which the gold arithmetic of [expand_A] is the same in binary
    floating point as in exact arithmetic: the quantities are multiples of
    2^-20, the gold prices are whole numbers, and the gold asked for plus
    the gold of every unit stays within 2^32.  Every product, sum and
    difference that [expand_A] forms for the remaining gold is then a
    multiple of 2^-20 of magnitude at most 2^32, which a double holds
    without rounding. *)
Definition binary_fraction (q : Q) : Prop :=
  exists n : Z, (q == inject_Z n / inject_Z (2 ^ 20))%Q.

Definition whole (p : Q) : Prop := exists n : Z, (p == inject_Z n)%Q.

Definition exact_in_doubles (A : list row_A) : Prop :=
  Forall (fun m => binary_fraction (a_quantity m) /\ whole (gold_per_unit m)) A /\
  (sum (map (fun m => ((Qabs (a_quantity m) + inject_Z (Z.of_nat (units (a_quantity m))))
                       * Qabs (gold_per_unit m))%Q) A)
   <= inject_Z (2 ^ 32))%Q.

(** The order of the rows without a gold price in a sorted channel:
    [x] standing before [y], both without gold price, the channel price of
    [y] is not above that of [x]; and [x] standing before a [y] without
    gold price and with a positive channel price, [x] is no gold-priced row
    with a ratio of zero or more. *)
Definition unset_descending {T : Type} (channel_price gold_price : T -> Q) (x y : T)
  : Prop :=
  is_set (gold_price x) = false -> is_set (gold_price y) = false ->
  (channel_price y <= channel_price x)%Q.

Definition unset_first {T : Type} (channel_price gold_price : T -> Q) (x y : T)
  : Prop :=
  is_set (gold_price y) = false -> (0 < channel_price y)%Q ->
  is_set (gold_price x) = true -> (channel_price x / gold_price x < 0)%Q.

(** [if k in d: d[k] += v else: d[k] = v], seen from one key: what the
    dictionary holds for it ([None] when the key is absent) and what is
    merged in. *)
Definition add_demand (held merged : option Q) : option Q :=
  match held, merged with
  | Some x, Some y => Some (x + y)%Q
  | Some x, None => Some x
  | None, merged => merged
  end.

(** The demand for the material [k] that [quantity] units of [item] bring:
    the quantities of the paths from [item] to [k], added in the order in
    which the program adds them: along the materials of a recipe from left
    to right, the paths through one material being added up before their
    sum joins that of the materials before it.  [None] when no path reaches
    [k]. *)
Definition demand_step (call : string -> Q -> result (option Q)) (recipe : recipe)
    (quantity : Q) (held : option Q) (material : material) : result (option Q) :=
  material_quantity ← div (m_quantity material * quantity)%Q (r_quantity recipe);
  sub ← call (m_name material) material_quantity;
  Ok (add_demand held sub).

Fixpoint path_demand (depth : nat) (dm : DataManager.t) (k : string) (item : string)
    (quantity : Q) : result (option Q) :=
  match depth with
  | O => Raise RecursionError
  | S depth' =>
      match recipes dm !! item with
      | Some recipe =>
          for_each (demand_step (path_demand depth' dm k) recipe quantity)
                   (r_materials recipe) None
      | None => Ok (if String.eqb item k then Some quantity else None)
      end
  end.

(** The same over the entries of a basket, in their order. *)
Definition basket_demand (depth : nat) (dm : DataManager.t) (k : string)
    (basket : dict Z) : result (option Q) :=
  for_each
    (fun held entry =>
       sub ← path_demand depth dm k (fst entry) (inject_Z (snd entry));
       Ok (add_demand held sub))
    basket None.

(** What a call holds for the key [k] when it returns. *)
Definition held_for (k : string) (r : result (dict Q)) : result (option Q) :=
  d ← r; Ok (dict_get d k).

(** The recipes of a catalog have an output quantity other than zero. *)
Definition nonzero_outputs (dm : DataManager.t) : Prop :=
  forall p r, recipes dm !! p = Some r -> ~ (r_quantity r == 0)%Q.

(** The demand for [k] that the leaves of a tree hold, added up child by
    child. *)
Fixpoint leaf_demand (k : string) (t : tree_node) : option Q :=
  if node_is_recipe t then
    (fix over (l : list tree_node) (held : option Q) : option Q :=
       match l with
       | [] => held
       | c :: l' => over l' (add_demand held (leaf_demand k c))
       end) (node_children t) None
  else if String.eqb (node_name t) k then Some (node_quantity t) else None.

(** [x] is before [y] in the order of a sort: its key is less.  The order
    of [sort_items], and the items whose category is one of the six of
    [category_order]. *)
Definition sorted_before {T K : Type} (ltb : K -> K -> bool) (key : T -> K) (x y : T)
  : Prop :=
  ltb (key x) (key y) = true.

Definition before : string * item_data -> string * item_data -> Prop :=
  sorted_before sort_key_ltb sort_key.

Definition known_category (data : item_data) : Prop :=
  is_Some (dict_get category_order (category data)).

(** The rows of the recipe dialog after [n] presses of the button that adds
    a material, from an empty list. *)
Definition added_rows (n : nat) : list RecipeDialog.material_entry :=
  Nat.iter n RecipeDialog.add_material_entry [].
(** An item whose row is sorted by a ratio over a gold price of zero: it is
    on the ticket or the camp channel and its gold price is 0. *)
Definition divides_by_zero (data : item_data) : bool :=
  (is_set (ticket_price data) || is_set (camp_contribution data))
  && Qeq_bool (price data) 0.

End Spec.

(** ** Catalogs and rows used in the examples *)

Module Data.
Import DataManager MaterialTrackingPage.
Local Open Scope Q_scope.

Definition item (gold ticket camp dollar : Q) : item_data :=
  {| price := gold; category := "其它"; level := 1; quality := 1;
     ticket_price := ticket; camp_contribution := camp; new_dollar := dollar |}.

Definition make (materials : list (string * Q)) (output : Q) : recipe :=
  {| r_materials := map (fun e => {| m_name := fst e; m_quantity := snd e |}) materials;
     r_quantity := output; r_crafting_level := 1; r_recipe_type := "其它";
     r_is_exclusive := false |}.

(** Wood at gold price 10; Plank = 2 Wood. *)
Definition plank_catalog : DataManager.t :=
  {| items := {[ "Wood"%string := item 10 (-1) (-1) (-1) ]};
     recipes := {[ "Plank"%string := make [("Wood"%string, 2)] 1 ]};
     temp_prices := ∅;
     use_custom_prices := false |}.

(** A requires B and B requires A. *)
Definition cyclic_catalog : DataManager.t :=
  {| items := ∅;
     recipes := <[ "A"%string := make [("B"%string, 1)] 1 ]>
                  {[ "B"%string := make [("A"%string, 1)] 1 ]};
     temp_prices := ∅;
     use_custom_prices := false |}.

(** Ore has a ticket price and no gold price; Bar = 2 Ore. *)
Definition ore_catalog : DataManager.t :=
  {| items := {[ "Ore"%string := item (-1) 5 (-1) (-1) ]};
     recipes := {[ "Bar"%string := make [("Ore"%string, 2)] 1 ]};
     temp_prices := ∅;
     use_custom_prices := false |}.

Definition ticket_row (name : string) (quantity ticket gold : Q) : row_A :=
  {| a_material := name; a_quantity := quantity; a_ticket_price := ticket;
     a_gold_price := gold |}.

Definition gold_row (name : string) (quantity gold : Q) : row_C :=
  {| c_material := name; c_quantity := quantity; c_channel_price := gold;
     c_purchase_price := gold |}.

Definition camp_row (name : string) (quantity camp dollar gold : Q) : row_B :=
  {| b_material := name; b_quantity := quantity; b_camp_price := camp;
     b_new_dollar_price := dollar; b_gold_price := gold |}.

(** The plank catalog with an override of the price of Wood. *)
Definition plank_catalog_with_override : DataManager.t :=
  set_temp_price plank_catalog "Wood" 12.

(** Ore for tickets, Hemp for camp contribution, Wood for gold; Kit = 2 Ore
    + 1 Hemp + 3 Wood. *)
Definition kit_catalog : DataManager.t :=
  {| items := <[ "Ore"%string := item 8 5 (-1) (-1) ]>
                (<[ "Hemp"%string := item 6 (-1) 3 4 ]>
                   {[ "Wood"%string := item 10 (-1) (-1) (-1) ]});
     recipes := {[ "Kit"%string :=
                     make [("Ore"%string, 2); ("Hemp"%string, 1); ("Wood"%string, 3)] 1 ]};
     temp_prices := ∅;
     use_custom_prices := false |}.

(** The page of the aggregated demand of one Kit, with unlimited caps,
    before [calculate_costs]. *)
Definition kit_page : page :=
  {| selected_items := [("Kit"%string, 1%Z)];
     total_materials := [("Ore"%string, 2); ("Hemp"%string, 1); ("Wood"%string, 3)];
     base_materials_data := items kit_catalog;
     A := []; B := []; C := []; A_expand := []; B_expand := [];
     max_tickets := -1; max_camp := -1; max_new_dollar := -1 |}.

(** A page with two units on each curve and caps of 7 tickets, unlimited
    camp contribution and 5 new dollars. *)
Definition capped_page : page :=
  {| selected_items := []; total_materials := []; base_materials_data := ∅;
     A := [ticket_row "Ore" 2 5 8];
     B := [camp_row "Hemp" 2 3 4 6];
     C := [gold_row "Wood" 3 10];
     A_expand := expand_A [ticket_row "Ore" 2 5 8];
     B_expand := expand_B [camp_row "Hemp" 2 3 4 6];
     max_tickets := 7; max_camp := -1; max_new_dollar := 5 |}.

(** The same page with a cap of 4 tickets, below the price of one unit. *)
Definition short_page : page :=
  {| selected_items := []; total_materials := []; base_materials_data := ∅;
     A := [ticket_row "Ore" 2 5 8];
     B := [camp_row "Hemp" 2 3 4 6];
     C := [gold_row "Wood" 3 10];
     A_expand := expand_A [ticket_row "Ore" 2 5 8];
     B_expand := expand_B [camp_row "Hemp" 2 3 4 6];
     max_tickets := 4; max_camp := -1; max_new_dollar := 5 |}.

(** Frame = 1 Wood + 2 Plank + 4 Nail and 2 Plank = 3 Wood: Wood is
    reached directly and through Plank. *)
Definition frame_catalog : DataManager.t :=
  {| items := <[ "Wood"%string := item 10 (-1) (-1) (-1) ]>
                {[ "Nail"%string := item 2 (-1) (-1) (-1) ]};
     recipes := <[ "Frame"%string :=
                     make [("Wood"%string, 1); ("Plank"%string, 2); ("Nail"%string, 4)] 1 ]>
                  {[ "Plank"%string := make [("Wood"%string, 3)] 2 ]};
     temp_prices := ∅;
     use_custom_prices := false |}.

(** One Frame and two Planks. *)
Definition frame_basket : dict Z := [("Frame"%string, 1%Z); ("Plank"%string, 2%Z)].

(** Two and a half units of Ore at 5 tickets or 8 gold, and of Hemp at 3
    camp contribution and 4 new dollars, or 8 gold. *)
Definition half_unit_A : list row_A := [ticket_row "Ore" (5 # 2) 5 8].
Definition half_unit_B : list row_B := [camp_row "Hemp" (5 # 2) 3 4 8].

(** The form of the item dialog filled for Ore at 9 gold, no other price. *)
Definition ore_form (name : string) : AddItemDialog.form :=
  {| AddItemDialog.name_entry := name;
     AddItemDialog.use_gold_price_var := true;
     AddItemDialog.price_entry := Some 9;
     AddItemDialog.use_ticket_price_var := false;
     AddItemDialog.ticket_price_entry := None;
     AddItemDialog.use_camp_price_var := false;
     AddItemDialog.camp_contribution_entry := None;
     AddItemDialog.new_dollar_entry := None;
     AddItemDialog.category_combobox := "矿物";
     AddItemDialog.level_combobox := Some 3%Z;
     AddItemDialog.quality_combobox := Some 2%Z |}.

(** The form of the recipe dialog filled for [name] = 2 [material]. *)
Definition recipe_form (name material : string) : RecipeDialog.form :=
  {| RecipeDialog.name_var := name;
     RecipeDialog.material_entries :=
       [{| RecipeDialog.button_index := 0; RecipeDialog.var := material;
           RecipeDialog.quantity_var := 2 |}];
     RecipeDialog.product_quantity_var := 1;
     RecipeDialog.crafting_level_var := 1;
     RecipeDialog.recipe_type_var := "其它";
     RecipeDialog.is_exclusive_var := false |}.

End Data.

(** * Properties *)

Import DataManager MaterialTrackingPage Spec.

(** ** Numbers *)

Section Numbers.
Local Open Scope Q_scope.

Lemma Qltb_lt (a b : Q) : Qltb a b = true <-> a < b.
Proof.
  unfold Qltb. rewrite Qlt_alt.
  destruct (Qcompare a b); split; intros H; congruence.
Qed.

Lemma Qltb_ge (a b : Q) : Qltb a b = false <-> b <= a.
Proof.
  split; intros H.
  - apply Qnot_lt_le. intros Hlt. apply Qltb_lt in Hlt. congruence.
  - destruct (Qltb a b) eqn:E; [|reflexivity].
    apply Qltb_lt in E. exfalso. exact (Qlt_not_le _ _ E H).
Qed.

Lemma is_set_true (a : Q) : is_set a = true <-> ~ a == -1.
Proof.
  unfold is_set. rewrite negb_true_iff.
  destruct (Qeq_bool a (-1 # 1)) eqn:E.
  - apply Qeq_bool_iff in E. split; [discriminate | intros H; contradiction].
  - split; [|reflexivity]. intros _ H. apply Qeq_bool_iff in H. congruence.
Qed.

Lemma is_set_nonneg (a : Q) : 0 <= a -> is_set a = true.
Proof. intros H. apply is_set_true. intros E. rewrite E in H. revert H. apply Qlt_not_le. reflexivity. Qed.

Lemma div_nonzero (a b : Q) : ~ b == 0 -> div a b = Ok (a / b).
Proof.
  intros H. unfold div. destruct (Qeq_bool b 0) eqn:E; [|reflexivity].
  apply Qeq_bool_iff in E. contradiction.
Qed.

Lemma div_ok (a b c : Q) : div a b = Ok c -> ~ b == 0 /\ c = a / b.
Proof.
  unfold div. destruct (Qeq_bool b 0) eqn:E; [discriminate|].
  intros [= <-]. split; [|reflexivity].
  intros H. apply Qeq_bool_iff in H. congruence.
Qed.

Lemma inject_Z_succ (n : Z) : inject_Z (n + 1) == inject_Z n + 1.
Proof. rewrite inject_Z_plus. reflexivity. Qed.

(** The fractional part left by [Qfloor]. *)
Lemma floor_fraction (q : Q) :
  0 <= q - inject_Z (Qfloor q) /\ q - inject_Z (Qfloor q) < 1.
Proof.
  pose proof (Qfloor_le q) as Hl. pose proof (Qlt_floor q) as Hu.
  rewrite inject_Z_succ in Hu. split; lra.
Qed.

Lemma inject_Z_le_floor (q : Q) (n : Z) :
  (n <= Qfloor q)%Z -> inject_Z n <= inject_Z (Qfloor q).
Proof. intros H. rewrite <- Zle_Qle. exact H. Qed.

Lemma inject_Z_ge_floor_succ (q : Q) (n : Z) :
  (Qfloor q < n)%Z -> inject_Z (Qfloor q) + 1 <= inject_Z n.
Proof. intros H. rewrite <- inject_Z_succ, <- Zle_Qle. lia. Qed.

(** [round] returns an integer nearest to its argument. *)
Lemma round_nearest (q : Q) (n : Z) :
  Qabs (q - inject_Z (round q)) <= Qabs (q - inject_Z n).
Proof.
  destruct (floor_fraction q) as [H0 H1].
  assert (Hn : inject_Z n <= inject_Z (Qfloor q) \/ inject_Z (Qfloor q) + 1 <= inject_Z n).
  { destruct (Z_le_gt_dec n (Qfloor q)) as [Hle|Hgt].
    - left. apply inject_Z_le_floor, Hle.
    - right. apply inject_Z_ge_floor_succ. lia. }
  assert (Hcase : round q = Qfloor q /\ q - inject_Z (Qfloor q) <= 1 # 2 \/
                  round q = (Qfloor q + 1)%Z /\ 1 # 2 <= q - inject_Z (Qfloor q)).
  { unfold round.
    destruct (Qcompare (q - inject_Z (Qfloor q)) (1 # 2)) eqn:E.
    - apply Qeq_alt in E. destruct (Z.even (Qfloor q)); [left|right]; split; try reflexivity; lra.
    - apply Qlt_alt in E. left. split; [reflexivity | lra].
    - apply Qgt_alt in E. right. split; [reflexivity | lra]. }
  destruct Hcase as [[-> Hd]|[-> Hd]].
  - apply Qabs_case; intros Ha; apply Qabs_case; intros Hb; destruct Hn; lra.
  - rewrite inject_Z_succ.
    apply Qabs_case; intros Ha; apply Qabs_case; intros Hb; destruct Hn; lra.
Qed.

Lemma round_within_half (q : Q) : Qabs (q - inject_Z (round q)) <= 1 # 2.
Proof.
  destruct (floor_fraction q) as [H0 H1].
  destruct (Qlt_le_dec (q - inject_Z (Qfloor q)) (1 # 2)) as [Hlt|Hge].
  - eapply Qle_trans; [apply (round_nearest q (Qfloor q))|].
    apply Qabs_case; intros; lra.
  - eapply Qle_trans; [apply (round_nearest q (Qfloor q + 1))|].
    rewrite inject_Z_succ. apply Qabs_case; intros; lra.
Qed.

(** Halves go to the even neighbour, on both sides of zero. *)
Example round_half_even :
  round (5 # 2) = 2%Z /\ round (7 # 2) = 4%Z /\ round (-5 # 2) = (-2)%Z /\
  round (-7 # 2) = (-4)%Z /\ round (26 # 10) = 3%Z /\ round 4 = 4%Z.
Proof. repeat split. Qed.

(** An integer within the threshold of [q] is the one [round] returns. *)
Lemma round_of_near_integer (q : Q) (n : Z) :
  Qabs (q - inject_Z n) < 1 # 2 -> round q = n.
Proof.
  intros Hn.
  pose proof (round_nearest q n) as Hr.
  assert (Hd : inject_Z n - 1 < inject_Z (round q) /\ inject_Z (round q) < inject_Z n + 1).
  { revert Hn Hr. apply Qabs_case; intros Ha; apply Qabs_case; intros Hb; lra. }
  destruct Hd as [Hlo Hhi].
  assert (Hlo' : inject_Z (n - 1) < inject_Z (round q)).
  { unfold Z.sub. rewrite inject_Z_plus. change (inject_Z (- (1))) with (-1). lra. }
  rewrite <- inject_Z_succ in Hhi.
  rewrite <- Zlt_Qlt in Hlo', Hhi. lia.
Qed.

Lemma round_quantity_nonneg (q : Q) : 0 <= q -> (0 <= round_quantity q default_threshold)%Z.
Proof.
  intros Hq. unfold round_quantity.
  destruct (Qltb _ _).
  - destruct (Z_le_gt_dec 0 (round q)) as [|Hneg]; [assumption|exfalso].
    pose proof (round_nearest q 0) as Hr.
    assert (Hi : inject_Z (round q) <= -1).
    { change (-1) with (inject_Z (-1)). rewrite <- Zle_Qle. lia. }
    revert Hr. change (inject_Z 0) with 0.
    apply Qabs_case; intros Ha; apply Qabs_case; intros Hb; lra.
  - pose proof (Qle_ceiling q) as Hc.
    assert (H0 : 0 <= inject_Z (Qceiling q)) by lra.
    change 0 with (inject_Z 0) in H0. rewrite <- Zle_Qle in H0. exact H0.
Qed.

End Numbers.

(** ** Rounding policy *)

Section Rounding.
Local Open Scope Q_scope.

(** C6. For every quantity [q], [round_quantity q] is [round q] when
    [|q - round q| < 1e-4] and [ceil q] otherwise, where [round q] is an
    integer nearest to [q] and [ceil q] the least integer not below [q];
    [round_quantity 2.99995 = 3], [round_quantity 2.5001 = 3] and
    [round_quantity 5.00003 = 5]. *)
Theorem round_quantity_policy (q : Q) :
  (Qabs (q - inject_Z (round q)) < 1 # 10000 ->
     round_quantity q default_threshold = round q) /\
  (~ Qabs (q - inject_Z (round q)) < 1 # 10000 ->
     round_quantity q default_threshold = Qceiling q) /\
  (forall n : Z, Qabs (q - inject_Z (round q)) <= Qabs (q - inject_Z n)) /\
  (q <= inject_Z (Qceiling q) /\ inject_Z (Qceiling q) < q + 1) /\
  round_quantity (299995 # 100000) default_threshold = 3%Z /\
  round_quantity (25001 # 10000) default_threshold = 3%Z /\
  round_quantity (500003 # 100000) default_threshold = 5%Z.
Proof.
  repeat split; try reflexivity.
  - intros H. unfold round_quantity, default_threshold.
    apply Qltb_lt in H. rewrite H. reflexivity.
  - intros H. unfold round_quantity, default_threshold.
    destruct (Qltb _ _) eqn:E; [|reflexivity].
    apply Qltb_lt in E. contradiction.
  - apply round_nearest.
  - apply Qle_ceiling.
  - pose proof (Qceiling_lt q) as H. unfold Z.sub in H. rewrite inject_Z_plus in H.
    change (inject_Z (- (1))) with (-1) in H. lra.
Qed.

Lemma round_quantity_policy_witness :
  round_quantity (25001 # 10000) default_threshold = Qceiling (25001 # 10000).
Proof.
  apply (proj1 (proj2 (round_quantity_policy (25001 # 10000)))).
  vm_compute. intros H. discriminate H.
Defined.

End Rounding.

(** ** Loops and results *)

Section Loops.
Context {S A : Type}.

Lemma for_each_app (body : S -> A -> result S) (l1 l2 : list A) (s : S) :
  for_each body (l1 ++ l2) s = (s' ← for_each body l1 s; for_each body l2 s').
Proof.
  revert s. induction l1 as [|x l1 IH]; intros s; simpl; [reflexivity|].
  destruct (body s x) as [s'|e]; simpl; [apply IH | reflexivity].
Qed.

Lemma for_each_ext (f g : S -> A -> result S) (l : list A) (s : S) :
  (forall s x, f s x = g s x) -> for_each f l s = for_each g l s.
Proof.
  intros Hfg. revert s. induction l as [|x l IH]; intros s; simpl; [reflexivity|].
  rewrite Hfg. destruct (g s x); simpl; [apply IH | reflexivity].
Qed.

(** A loop whose body succeeds wherever another one does returns the same
    state. *)
Lemma for_each_ok_ext (f g : S -> A -> result S) (l : list A) (s r : S) :
  (forall s x s', In x l -> f s x = Ok s' -> g s x = Ok s') ->
  for_each f l s = Ok r -> for_each g l s = Ok r.
Proof.
  revert s. induction l as [|x l IH]; intros s Hfg; simpl; [trivial|].
  destruct (f s x) as [s'|e] eqn:E; simpl; [|discriminate].
  rewrite (Hfg s x s' (or_introl eq_refl) E). simpl.
  apply IH. intros s0 y s0' Hy. apply Hfg. right. exact Hy.
Qed.

(** A successful loop ran its body successfully on every element. *)
Lemma for_each_ok_inv (f : S -> A -> result S) (l : list A) (s r : S) (x : A) :
  for_each f l s = Ok r -> In x l -> exists s1 s2, f s1 x = Ok s2.
Proof.
  revert s. induction l as [|y l IH]; intros s Hrun Hin; [destruct Hin|].
  simpl in Hrun. destruct (f s y) as [s'|e] eqn:E; simpl in Hrun; [|discriminate].
  destruct Hin as [->|Hin]; [eauto | eapply IH; eauto].
Qed.

End Loops.

(** ** Recipe trees *)

Section RecipeTree.
Local Open Scope Q_scope.
Variable dm : DataManager.t.
#[local] Arguments get_recipe_tree : simpl never.

Lemma get_recipe_tree_unfold (depth : nat) (item_name : string) (quantity : Q) (level : Z) :
  get_recipe_tree (Datatypes.S depth) dm item_name quantity level =
  match recipes dm !! item_name with
  | Some recipe =>
      acc ← for_each (child_step (get_recipe_tree depth dm) recipe quantity level)
                     (r_materials recipe) ([], 0);
      let '(children, total_cost) := acc in
      unit_cost ← div total_cost quantity;
      Ok {| node_name := item_name; node_quantity := quantity; node_level := level;
            node_is_recipe := true; node_children := children; node_price := None;
            node_total_cost := total_cost; node_unit_cost := unit_cost |}
  | None =>
      match items dm !! item_name with
      | Some _ =>
          price ← get_item_price dm item_name;
          Ok {| node_name := item_name; node_quantity := quantity; node_level := level;
                node_is_recipe := false; node_children := []; node_price := Some price;
                node_total_cost := price * quantity; node_unit_cost := price |}
      | None => Raise (ValueError ("Item not found: " +:+ item_name))
      end
  end.
Proof. reflexivity. Qed.

Lemma get_item_price_effective (name : string) (item : item_data) :
  items dm !! name = Some item ->
  get_item_price dm name = Ok (effective_price dm name (price item)).
Proof.
  intros Hitem. unfold get_item_price, effective_price. rewrite Hitem.
  destruct (use_custom_prices dm); [|reflexivity].
  destruct (temp_prices dm !! name); reflexivity.
Qed.

Lemma child_step_ok_inv call recipe quantity level acc material acc' :
  child_step call recipe quantity level acc material = Ok acc' ->
  exists child,
    call (m_name material) (m_quantity material * quantity / r_quantity recipe)
         (level + 1)%Z = Ok child /\
    ~ r_quantity recipe == 0 /\
    acc' = (fst acc ++ [child], snd acc + node_total_cost child).
Proof.
  unfold child_step. destruct acc as [children total]. simpl.
  destruct (div _ _) as [mq|e] eqn:Ediv; simpl; [|discriminate].
  apply div_ok in Ediv as [Hrq ->].
  destruct (call _ _ _) as [child|e] eqn:Ecall; simpl; [|discriminate].
  intros [= <-]. exists child. auto.
Qed.

(** More stack never changes a tree that was returned. *)
Lemma get_recipe_tree_step (depth : nat) :
  forall item_name quantity level node,
    get_recipe_tree depth dm item_name quantity level = Ok node ->
    get_recipe_tree (Datatypes.S depth) dm item_name quantity level = Ok node.
Proof.
  induction depth as [|depth IH]; intros item_name quantity level node Hrun;
    [discriminate|].
  rewrite get_recipe_tree_unfold in Hrun. rewrite get_recipe_tree_unfold.
  destruct (recipes dm !! item_name) as [recipe|]; [|exact Hrun].
  destruct (for_each _ _ _) as [acc|e] eqn:Eloop; simpl in Hrun; [|discriminate].
  erewrite for_each_ok_ext; [exact Hrun| |exact Eloop].
  intros s x s' _ Hstep.
  apply child_step_ok_inv in Hstep as (child & Hcall & Hrq & ->).
  unfold child_step. destruct s as [children total]. simpl.
  rewrite (div_nonzero _ _ Hrq). simpl.
  rewrite (IH _ _ _ _ Hcall). reflexivity.
Qed.

Lemma get_recipe_tree_mono (d d' : nat) item_name quantity level node :
  (d <= d')%nat ->
  get_recipe_tree d dm item_name quantity level = Ok node ->
  get_recipe_tree d' dm item_name quantity level = Ok node.
Proof.
  induction 1 as [|d' _ IH]; intros Hrun; [exact Hrun|].
  apply get_recipe_tree_step, IH, Hrun.
Qed.

Lemma every_node_children (P : tree_node -> Prop) (t : tree_node) :
  every_node P t <-> P t /\ Forall (every_node P) (node_children t).
Proof.
  destruct t as [nm q lv isr children pr tot unit]. simpl.
  assert (Hall : forall l,
    (fix all (l : list tree_node) : Prop :=
       match l with [] => True | c :: l' => every_node P c /\ all l' end) l
    <-> Forall (every_node P) l).
  { induction l as [|c l IHl]; [split; [constructor | trivial]|].
    rewrite Forall_cons_iff, <- IHl. reflexivity. }
  rewrite Hall. reflexivity.
Qed.

(** The loop over the materials, once every recursive call is known to
    return. *)
Lemma for_each_children call recipe quantity level (l : list material)
    (nodes children : list tree_node) (total : Q) :
  ~ r_quantity recipe == 0 ->
  Forall2 (fun m node =>
             call (m_name m) (m_quantity m * quantity / r_quantity recipe)
                  (level + 1)%Z = Ok node) l nodes ->
  for_each (child_step call recipe quantity level) l (children, total) =
  Ok (children ++ nodes, fold_left Qplus (map node_total_cost nodes) total).
Proof.
  intros Hrq Hall. revert children total.
  induction Hall as [|m node l nodes Hcall _ IH]; intros children total; simpl.
  - rewrite app_nil_r. reflexivity.
  - unfold child_step at 1. rewrite (div_nonzero _ _ Hrq). simpl.
    rewrite Hcall. simpl. rewrite IH, <- app_assoc. reflexivity.
Qed.

Lemma resolved_mono d d' name n level node :
  (d <= d')%nat -> resolved dm d name n level node -> resolved dm d' name n level node.
Proof.
  intros Hle (Hrun & Hq & Hcost & Hall).
  split; [eapply get_recipe_tree_mono; eauto | auto].
Qed.

(** If each material of a list resolves at some depth, all of them resolve
    at one common depth. *)
Lemma resolved_all (quantity_of : material -> Q) (level : Z) (l : list material) :
  Forall (fun m => exists depth node, resolved dm depth (m_name m) (quantity_of m) level node) l ->
  exists depth nodes,
    Forall2 (fun m node => resolved dm depth (m_name m) (quantity_of m) level node) l nodes.
Proof.
  induction 1 as [|m l (d & node & Hm) _ (d' & nodes & IH)].
  - exists 0%nat, []. constructor.
  - exists (Nat.max d d'), (node :: nodes). constructor.
    + eapply resolved_mono; [apply Nat.le_max_l | exact Hm].
    + eapply Forall2_impl; [exact IH|].
      intros m' node' Hm'. eapply resolved_mono; [apply Nat.le_max_r | exact Hm'].
Qed.

Lemma quantity_nonzero (a b c : Q) :
  ~ a == 0 -> ~ b == 0 -> ~ c == 0 -> ~ a * b / c == 0.
Proof.
  intros Ha Hb Hc H.
  assert (Hab : a * b == 0).
  { transitivity (a * b / c * c); [field; exact Hc | rewrite H; ring]. }
  apply Qmult_integral in Hab. tauto.
Qed.

Lemma resolve_accessible (Hvalid : valid_catalog dm) (name : string) :
  Acc (fun m p => uses dm p m) name ->
  forall n level,
    ~ n == 0 ->
    is_Some (recipes dm !! name) \/ is_Some (items dm !! name) ->
    exists depth node, resolved dm depth name n level node.
Proof.
  induction 1 as [name _ IH]. intros n level Hn Hknown.
  destruct (recipes dm !! name) as [r|] eqn:Hrecipe.
  - destruct (proj2 Hvalid name r Hrecipe) as [Hrq0 Hmats].
    destruct (resolved_all (fun m => m_quantity m * n / r_quantity r) (level + 1)%Z
                (r_materials r)) as (depth & nodes & Hnodes).
    { apply List.Forall_forall. intros m Hin.
      rewrite List.Forall_forall in Hmats. destruct (Hmats m Hin) as [Hmq Hm].
      apply IH; [| |exact Hm].
      - exists r. split; [exact Hrecipe | apply in_map, Hin].
      - apply quantity_nonzero; assumption. }
    exists (Datatypes.S depth).
    eexists. unfold resolved. rewrite get_recipe_tree_unfold, Hrecipe.
    rewrite (for_each_children _ r n level (r_materials r) nodes [] 0 Hrq0).
    2: { eapply Forall2_impl; [exact Hnodes|]. intros m node Hm. apply Hm. }
    simpl. rewrite div_nonzero by exact Hn. simpl.
    split; [reflexivity|]. split; [reflexivity|]. split.
    + apply (cost_recipe dm name n r (map node_total_cost nodes) Hrecipe).
      clear -Hnodes. induction Hnodes as [|m node l nodes Hm _ IHn]; simpl; constructor.
      * apply Hm.
      * exact IHn.
    + apply every_node_children. simpl. split.
      * unfold unit_cost_ok. simpl. reflexivity.
      * clear -Hnodes. induction Hnodes as [|m node l nodes Hm _ IHn]; constructor.
        -- apply Hm.
        -- exact IHn.
  - destruct Hknown as [[r Hr]|[item Hitem]]; [discriminate|].
    exists 1%nat. eexists. unfold resolved.
    rewrite get_recipe_tree_unfold, Hrecipe, Hitem.
    rewrite (get_item_price_effective name item Hitem). simpl.
    split; [reflexivity|]. split; [reflexivity|]. split.
    + apply cost_material; assumption.
    + split; [reflexivity | exact I].
Qed.

End RecipeTree.

(** ** Bill-of-materials correctness *)

Section BomCorrectness.
Local Open Scope Q_scope.

Lemma cost_recipe_inv dm name n c r :
  cost dm name n c ->
  recipes dm !! name = Some r ->
  exists costs,
    Forall2 (fun m c => cost dm (m_name m) (m_quantity m * n / r_quantity r) c)
            (r_materials r) costs /\
    c = sum costs.
Proof.
  intros Hcost Hr.
  destruct Hcost as [name q item Hnone _ | name n r' costs Hr' Hcosts].
  - congruence.
  - assert (r' = r) by congruence. subst r'. eauto.
Qed.

(** C1. In a valid acyclic catalog, resolving a product that has a recipe
    with output quantity [Q] and materials [(m_i, q_i)], for a quantity [n]
    other than zero, returns at every sufficient stack depth a node for
    quantity [n] whose total cost is the sum over the materials of the cost
    of [q_i * n / Q] units of [m_i], costs being computed recursively down
    to materials charged at their effective price (the override when the
    custom-price mode is on and one exists, else the catalog gold price);
    the node and every recipe node below it have
    [unit_cost = total_cost / quantity].  With Wood at gold price 10 and
    Plank = 2 Wood, resolving 3 Plank gives total cost 60 and unit cost 20. *)
Theorem get_recipe_tree_bom_correct :
  (forall dm name r n level,
      valid_catalog dm -> recipes dm !! name = Some r -> ~ n == 0 ->
      exists depth node costs,
        (forall d, (depth <= d)%nat -> get_recipe_tree d dm name n level = Ok node) /\
        node_quantity node = n /\
        Forall2 (fun m c => cost dm (m_name m) (m_quantity m * n / r_quantity r) c)
                (r_materials r) costs /\
        node_total_cost node = sum costs /\
        node_unit_cost node == node_total_cost node / n /\
        every_node unit_cost_ok node) /\
  (exists node,
      get_recipe_tree 2 Data.plank_catalog "Plank" 3 0 = Ok node /\
      node_total_cost node == 60 /\ node_unit_cost node == 20).
Proof.
  split.
  - intros dm name r n level Hvalid Hrecipe Hn.
    destruct (resolve_accessible dm Hvalid name (proj1 Hvalid name) n level Hn)
      as (depth & node & Hrun & Hq & Hcost & Hall).
    { left. rewrite Hrecipe. eauto. }
    destruct (cost_recipe_inv dm name n _ r Hcost Hrecipe) as (costs & Hcosts & Hsum).
    exists depth, node, costs. repeat split; auto.
    + intros d Hd. eapply get_recipe_tree_mono; eauto.
    + destruct depth as [|depth]; [discriminate|].
      rewrite get_recipe_tree_unfold, Hrecipe in Hrun.
      destruct (for_each _ _ _) as [[children total]|e]; simpl in Hrun; [|discriminate].
      destruct (div total n) as [u|e] eqn:Ediv; simpl in Hrun; [|discriminate].
      apply div_ok in Ediv as [_ ->]. injection Hrun as <-. simpl. reflexivity.
  - eexists. split; [vm_compute; reflexivity|]. split; reflexivity.
Qed.

Lemma plank_catalog_valid : valid_catalog Data.plank_catalog.
Proof.
  assert (Hplank : forall p r, recipes Data.plank_catalog !! p = Some r ->
                     p = "Plank"%string /\ r = Data.make [("Wood"%string, 2)] 1).
  { intros p r H. unfold Data.plank_catalog, recipes in H.
    apply lookup_singleton_Some in H as [<- <-]. auto. }
  split.
  - intros p. constructor. intros m (r & Hr & Hin).
    apply Hplank in Hr as [-> ->]. simpl in Hin. destruct Hin as [<-|[]].
    constructor. intros m' (r' & Hr' & _).
    apply Hplank in Hr' as [Hne _]. discriminate Hne.
  - intros p r Hr. apply Hplank in Hr as [-> ->]. split; [intros H; discriminate H|].
    constructor; [|constructor]. split; [intros H; discriminate H|].
    right. exists (Data.item 10 (-1) (-1) (-1)). reflexivity.
Qed.

Lemma get_recipe_tree_bom_correct_witness :
  exists depth node costs,
    (forall d, (depth <= d)%nat ->
               get_recipe_tree d Data.plank_catalog "Plank" 3 0 = Ok node) /\
    node_quantity node = 3 /\
    Forall2 (fun m c => cost Data.plank_catalog (m_name m) (m_quantity m * 3 / 1) c)
            [{| m_name := "Wood"; m_quantity := 2 |}] costs /\
    node_total_cost node = sum costs /\
    node_unit_cost node == node_total_cost node / 3 /\
    every_node unit_cost_ok node.
Proof.
  apply (proj1 get_recipe_tree_bom_correct Data.plank_catalog "Plank"%string
               (Data.make [("Wood"%string, 2)] 1) 3 0%Z).
  - exact plank_catalog_valid.
  - reflexivity.
  - intros H. discriminate H.
Defined.

End BomCorrectness.

(** ** Materials without a gold price *)

Section UnsetPrice.
Local Open Scope Q_scope.

(** C4, as the program behaves.  A material whose catalog gold price is the
    unset sentinel [-1] and to which no override applies resolves without
    any error, at every positive stack depth, to a leaf whose price is the
    stored sentinel and whose total cost is that price times the quantity,
    that is, minus the quantity. *)
Theorem unset_price_resolves_to_sentinel_cost dm name item :
  recipes dm !! name = None ->
  items dm !! name = Some item ->
  price item == -1 ->
  use_custom_prices dm = false \/ temp_prices dm !! name = None ->
  forall depth quantity level,
    exists node,
      get_recipe_tree (Datatypes.S depth) dm name quantity level = Ok node /\
      node_is_recipe node = false /\
      node_price node = Some (price item) /\
      node_total_cost node = price item * quantity /\
      node_total_cost node == - quantity.
Proof.
  intros Hrecipe Hitem Hunset Hoverride depth quantity level.
  rewrite get_recipe_tree_unfold, Hrecipe, Hitem.
  rewrite (get_item_price_effective dm name item Hitem).
  assert (Heff : effective_price dm name (price item) = price item).
  { unfold effective_price. destruct Hoverride as [-> | ->]; [reflexivity|].
    destruct (use_custom_prices dm); reflexivity. }
  rewrite Heff. simpl. eexists. split; [reflexivity|]. simpl.
  repeat split. rewrite Hunset. ring.
Qed.

Lemma unset_price_resolves_to_sentinel_cost_witness :
  exists node,
    get_recipe_tree 1 Data.ore_catalog "Ore" 3 0 = Ok node /\
    node_is_recipe node = false /\
    node_price node = Some (price (Data.item (-1) 5 (-1) (-1))) /\
    node_total_cost node = price (Data.item (-1) 5 (-1) (-1)) * 3 /\
    node_total_cost node == - (3).
Proof.
  apply (unset_price_resolves_to_sentinel_cost Data.ore_catalog "Ore"%string
           (Data.item (-1) 5 (-1) (-1))).
  - reflexivity.
  - reflexivity.
  - reflexivity.
  - left. reflexivity.
Defined.

(** C4, counterexample.  Ore has no gold price and no override; resolving
    Bar = 2 Ore for quantity 1 does not fail: it returns a tree whose leaf
    carries the price [-1] and whose total cost is [-2]. *)
Lemma unset_price_is_not_an_error :
  exists node,
    get_recipe_tree 2 Data.ore_catalog "Bar" 1 0 = Ok node /\
    map node_price (node_children node) = [Some (-1 # 1)] /\
    node_total_cost node == - (2).
Proof.
  eexists. split; [vm_compute; reflexivity|]. split; reflexivity.
Qed.

End UnsetPrice.

(** ** Cyclic recipes *)

Section Cycles.
Local Open Scope Q_scope.
Variable dm : DataManager.t.
#[local] Arguments get_recipe_tree : simpl never.
#[local] Arguments get_base_materials : simpl never.

Lemma get_base_materials_unfold (depth : nat) (item : string) (quantity : Q) :
  get_base_materials (Datatypes.S depth) dm item quantity =
  match recipes dm !! item with
  | Some recipe =>
      for_each (base_step (get_base_materials depth dm) recipe quantity)
               (r_materials recipe) []
  | None => Ok [(item, quantity)]
  end.
Proof. reflexivity. Qed.

Lemma base_step_ok_inv call recipe quantity base material base' :
  base_step call recipe quantity base material = Ok base' ->
  exists sub,
    call (m_name material) (m_quantity material * quantity / r_quantity recipe) = Ok sub /\
    ~ r_quantity recipe == 0 /\
    base' = merge base sub.
Proof.
  unfold base_step. simpl.
  destruct (div _ _) as [mq|e] eqn:Ediv; simpl; [|discriminate].
  apply div_ok in Ediv as [Hrq ->].
  destruct (call _ _) as [sub|e] eqn:Ecall; simpl; [|discriminate].
  intros [= <-]. exists sub. auto.
Qed.

Lemma base_step_ok call recipe quantity base material sub :
  ~ r_quantity recipe == 0 ->
  call (m_name material) (m_quantity material * quantity / r_quantity recipe) = Ok sub ->
  base_step call recipe quantity base material = Ok (merge base sub).
Proof.
  intros Hrq Hcall. unfold base_step. rewrite (div_nonzero _ _ Hrq). simpl.
  rewrite Hcall. reflexivity.
Qed.

(** A tree is returned only if the tree of each material was returned with
    one frame less. *)
Lemma get_recipe_tree_ok_material depth p m quantity level node :
  get_recipe_tree (Datatypes.S depth) dm p quantity level = Ok node ->
  uses dm p m ->
  exists quantity' level' node', get_recipe_tree depth dm m quantity' level' = Ok node'.
Proof.
  intros Hrun (r & Hr & Hin).
  rewrite get_recipe_tree_unfold, Hr in Hrun.
  destruct (for_each _ _ _) as [acc|e] eqn:Eloop; simpl in Hrun; [|discriminate].
  apply in_map_iff in Hin as (material & <- & Hin).
  destruct (for_each_ok_inv _ _ _ _ material Eloop Hin) as (s1 & s2 & Hstep).
  apply child_step_ok_inv in Hstep as (child & Hcall & _). eauto.
Qed.

Lemma get_base_materials_ok_material depth p m quantity d :
  get_base_materials (Datatypes.S depth) dm p quantity = Ok d ->
  uses dm p m ->
  exists quantity' d', get_base_materials depth dm m quantity' = Ok d'.
Proof.
  intros Hrun (r & Hr & Hin).
  rewrite get_base_materials_unfold, Hr in Hrun.
  apply in_map_iff in Hin as (material & <- & Hin).
  destruct (for_each_ok_inv _ _ _ _ material Hrun Hin) as (s1 & s2 & Hstep).
  apply base_step_ok_inv in Hstep as (sub & Hcall & _). eauto.
Qed.

(** Following a chain of "uses" costs at least one frame per link. *)
Lemma returns_tree_along p x :
  tc (uses dm) p x ->
  forall depth, returns_tree dm depth p -> exists d, (d < depth)%nat /\ returns_tree dm d x.
Proof.
  induction 1 as [p x Hpx | p y x Hpy _ IH]; intros depth (q & lv & node & Hrun).
  - destruct depth as [|depth]; [discriminate|].
    exists depth. split; [lia|]. eapply get_recipe_tree_ok_material; eauto.
  - destruct depth as [|depth]; [discriminate|].
    destruct (IH depth) as (d & Hd & Hx);
      [eapply get_recipe_tree_ok_material; eauto|].
    exists d. split; [lia | exact Hx].
Qed.

Lemma returns_materials_along p x :
  tc (uses dm) p x ->
  forall depth, returns_materials dm depth p -> exists d, (d < depth)%nat /\ returns_materials dm d x.
Proof.
  induction 1 as [p x Hpx | p y x Hpy _ IH]; intros depth (q & d0 & Hrun).
  - destruct depth as [|depth]; [discriminate|].
    exists depth. split; [lia|]. eapply get_base_materials_ok_material; eauto.
  - destruct depth as [|depth]; [discriminate|].
    destruct (IH depth) as (d & Hd & Hx);
      [eapply get_base_materials_ok_material; eauto|].
    exists d. split; [lia | exact Hx].
Qed.

Lemma cycle_returns_no_tree p : on_cycle dm p -> forall depth, ~ returns_tree dm depth p.
Proof.
  intros Hcycle depth. induction depth as [depth IH] using lt_wf_ind.
  intros Hret. destruct (returns_tree_along p p Hcycle depth Hret) as (d & Hd & Hret').
  exact (IH d Hd Hret').
Qed.

Lemma cycle_returns_no_materials p :
  on_cycle dm p -> forall depth, ~ returns_materials dm depth p.
Proof.
  intros Hcycle depth. induction depth as [depth IH] using lt_wf_ind.
  intros Hret. destruct (returns_materials_along p p Hcycle depth Hret) as (d & Hd & Hret').
  exact (IH d Hd Hret').
Qed.

End Cycles.

Section CyclicRecipe.
Local Open Scope Q_scope.

(** C2, as the program behaves.  There is no cycle detection: for a
    product that lies on a cycle of the recipe graph, neither
    [get_recipe_tree] nor [get_base_materials] returns a result, whatever
    the stack depth, the quantity and the level; the call ends only in the
    exhaustion of the stack or in an exception raised on the way. *)
Theorem cyclic_recipe_never_returns dm p :
  on_cycle dm p ->
  forall depth quantity level,
    (forall node, get_recipe_tree depth dm p quantity level <> Ok node) /\
    (forall d, get_base_materials depth dm p quantity <> Ok d).
Proof.
  intros Hcycle depth quantity level. split.
  - intros node Hrun. apply (cycle_returns_no_tree dm p Hcycle depth).
    exists quantity, level, node. exact Hrun.
  - intros d Hrun. apply (cycle_returns_no_materials dm p Hcycle depth).
    exists quantity, d. exact Hrun.
Qed.

Lemma cyclic_catalog_cycle : on_cycle Data.cyclic_catalog "A".
Proof.
  apply (tc_l _ _ "B"%string).
  - eexists. split; [reflexivity | left; reflexivity].
  - apply tc_once. eexists. split; [reflexivity | left; reflexivity].
Defined.

Lemma cyclic_recipe_never_returns_witness :
  (forall node, get_recipe_tree 1000 Data.cyclic_catalog "A" 1 0 <> Ok node) /\
  (forall d, get_base_materials 1000 Data.cyclic_catalog "A" 1 <> Ok d).
Proof.
  exact (cyclic_recipe_never_returns Data.cyclic_catalog "A"%string cyclic_catalog_cycle
           1000%nat 1 0%Z).
Defined.

(** On the catalog where A requires B and B requires A, every call runs
    out of stack. *)
Lemma cyclic_catalog_exhausts_stack (depth : nat) :
  forall name quantity level,
    name = "A"%string \/ name = "B"%string ->
    get_recipe_tree depth Data.cyclic_catalog name quantity level = Raise RecursionError /\
    get_base_materials depth Data.cyclic_catalog name quantity = Raise RecursionError.
Proof.
  induction depth as [|depth IH]; intros name quantity level Hname; [split; reflexivity|].
  rewrite get_recipe_tree_unfold, get_base_materials_unfold.
  destruct Hname as [-> | ->].
  - change (recipes Data.cyclic_catalog !! "A"%string)
      with (Some (Data.make [("B"%string, 1)] 1)).
    cbn [Data.make r_materials map for_each fst snd].
    unfold child_step, base_step. cbn [Data.make r_quantity m_name m_quantity fst snd].
    rewrite !div_nonzero by (intros H; discriminate H).
    cbn [mbind result_bind].
    destruct (IH "B"%string (1 * quantity / 1) (level + 1)%Z) as [-> ->]; [auto|].
    split; reflexivity.
  - change (recipes Data.cyclic_catalog !! "B"%string)
      with (Some (Data.make [("A"%string, 1)] 1)).
    cbn [Data.make r_materials map for_each fst snd].
    unfold child_step, base_step. cbn [Data.make r_quantity m_name m_quantity fst snd].
    rewrite !div_nonzero by (intros H; discriminate H).
    cbn [mbind result_bind].
    destruct (IH "A"%string (1 * quantity / 1) (level + 1)%Z) as [-> ->]; [auto|].
    split; reflexivity.
Qed.

(** C2, counterexample.  With A requiring B and B requiring A, resolving A
    or aggregating a basket that holds A never ends in an exception of its
    own: at every stack depth the outcome is the exhaustion of the stack. *)
Lemma cyclic_recipe_is_not_detected :
  ~ fails_without_exhausting_stack
      (fun depth => get_recipe_tree depth Data.cyclic_catalog "A" 1 0) /\
  ~ fails_without_exhausting_stack
      (fun depth => get_total_materials depth Data.cyclic_catalog [("A"%string, 1%Z)]) /\
  get_recipe_tree 1000 Data.cyclic_catalog "A" 1 0 = Raise RecursionError /\
  get_total_materials 1000 Data.cyclic_catalog [("A"%string, 1%Z)] = Raise RecursionError.
Proof.
  split; [|split; [|split]].
  - intros (depth & e & Hrun & He). apply He.
    destruct (cyclic_catalog_exhausts_stack depth "A"%string 1 0%Z) as [H _]; [auto|].
    congruence.
  - intros (depth & e & Hrun & He). apply He.
    destruct (cyclic_catalog_exhausts_stack depth "A"%string (inject_Z 1) 0%Z) as [_ H];
      [auto|].
    unfold get_total_materials in Hrun. simpl in Hrun. rewrite H in Hrun.
    simpl in Hrun. congruence.
  - apply (cyclic_catalog_exhausts_stack 1000 "A"%string 1 0%Z). auto.
  - unfold get_total_materials. cbn [for_each].
    destruct (cyclic_catalog_exhausts_stack 1000 "A"%string (inject_Z 1) 0%Z) as [_ H];
      [auto|].
    rewrite H. reflexivity.
Qed.

End CyclicRecipe.

(** ** Allocation curves *)

Section Curves.
Local Open Scope Q_scope.

Lemma fold_left_Qplus (l : list Q) (a : Q) : fold_left Qplus l a == a + sum l.
Proof.
  unfold sum. revert a. induction l as [|x l IH]; intros a; simpl; [ring|].
  rewrite (IH (a + x)), (IH (0 + x)). ring.
Qed.

Lemma sum_cons (x : Q) (l : list Q) : sum (x :: l) == x + sum l.
Proof. unfold sum at 1. simpl. rewrite fold_left_Qplus. ring. Qed.

Lemma sum_nil : sum [] = 0.
Proof. reflexivity. Qed.

Lemma sum_app (l1 l2 : list Q) : sum (l1 ++ l2) == sum l1 + sum l2.
Proof.
  induction l1 as [|x l1 IH]; simpl; [rewrite sum_nil; ring|].
  rewrite !sum_cons, IH. ring.
Qed.

Lemma inject_nat_succ (n : nat) :
  inject_Z (Z.of_nat (Datatypes.S n)) == inject_Z (Z.of_nat n) + 1.
Proof. rewrite Nat2Z.inj_succ. unfold Z.succ. apply inject_Z_succ. Qed.

Lemma repeat_loop_inv {T : Type} (P : T -> Prop) (body : T -> T) (n : nat) (s : T) :
  (forall s, P s -> P (body s)) -> P s -> P (repeat_loop body n s).
Proof.
  intros Hbody. revert s. induction n as [|n IH]; intros s Hs; simpl; auto.
Qed.

Lemma fold_left_inv {T X : Type} (P : T -> Prop) (Q : X -> Prop) (f : T -> X -> T)
    (l : list X) (s : T) :
  (forall s x, Q x -> P s -> P (f s x)) -> Forall Q l -> P s -> P (fold_left f l s).
Proof.
  intros Hf Hl. revert s. induction Hl as [|x l Hx _ IH]; intros s Hs; simpl; auto.
Qed.

Lemma StronglySorted_snoc {T : Type} (R : T -> T -> Prop) (l : list T) (x : T) :
  StronglySorted R l -> Forall (fun y => R y x) l -> StronglySorted R (l ++ [x]).
Proof.
  induction 1 as [|y l Hl IH Hy]; intros Hx; simpl.
  - constructor; constructor.
  - apply Forall_cons_iff in Hx as [Hyx Hx]. constructor; [apply IH, Hx|].
    apply Forall_app. split; [exact Hy | constructor; [exact Hyx | constructor]].
Qed.

Lemma step_A_ok (m : row_A) (st : Q * Q * list entry_A) :
  priced_A m -> curve_state_ok st -> curve_state_ok (step_A m st).
Proof.
  intros [Hticket Hgold] Hst. destruct st as [[tc gc] curve].
  destruct Hst as (Hasc & Hdesc & Hbound).
  assert (Hg : (if is_set (a_gold_price m) then gc - a_gold_price m else gc) <= gc).
  { unfold nonneg_if_set in Hgold. destruct (is_set (a_gold_price m)).
    - specialize (Hgold eq_refl). lra.
    - lra. }
  unfold step_A, curve_state_ok. repeat split.
  - apply StronglySorted_snoc; [exact Hasc|].
    eapply Forall_impl; [exact Hbound|]. simpl. intros e [He _]. lra.
  - apply StronglySorted_snoc; [exact Hdesc|].
    eapply Forall_impl; [exact Hbound|]. simpl. intros e [_ He]. lra.
  - apply Forall_app. split.
    + eapply Forall_impl; [exact Hbound|]. simpl. intros e [He1 He2]. split; lra.
    + constructor; [|constructor]. simpl. split; lra.
Qed.

Lemma expand_A_state (A : list row_A) :
  expand_A A =
  snd (fold_left (fun st m => repeat_loop (step_A m) (units (a_quantity m)) st) A
         (0, sum (map (fun m => a_quantity m * a_gold_price m)
                    (List.filter (fun m => is_set (a_gold_price m)) A)), [])).
Proof. reflexivity. Qed.

Lemma fold_curve_state_ok (A : list row_A) (st : Q * Q * list entry_A) :
  Forall priced_A A -> curve_state_ok st ->
  curve_state_ok
    (fold_left (fun st m => repeat_loop (step_A m) (units (a_quantity m)) st) A st).
Proof.
  intros HA Hst.
  apply (fold_left_inv curve_state_ok priced_A); [|exact HA|exact Hst].
  intros s m Hm Hs. apply repeat_loop_inv; [|exact Hs].
  intros s'. apply step_A_ok, Hm.
Qed.

Lemma empty_curve_state_ok (gold : Q) : curve_state_ok (0, gold, []).
Proof.
  unfold curve_state_ok. repeat split; constructor.
Qed.

Lemma expand_A_monotone (A : list row_A) :
  Forall priced_A A ->
  ascending ea_ticket_cost (expand_A A) /\ descending ea_gold_cost (expand_A A).
Proof.
  intros HA. rewrite expand_A_state.
  pose proof (fold_curve_state_ok A _ HA (empty_curve_state_ok
    (sum (map (fun m => a_quantity m * a_gold_price m)
            (List.filter (fun m => is_set (a_gold_price m)) A))))) as Hok.
  destruct (fold_left _ _ _) as [[tc gc] curve]. simpl.
  destruct Hok as (Hasc & Hdesc & _). auto.
Qed.

(** The camp curve, read through one currency, is the ticket curve of the
    rows read through that currency. *)
Lemma step_B_via (c : currency) (m : row_B) (st : Q * Q * Q * list entry_B) :
  state_via c (step_B m st) = step_A (row_via c m) (state_via c st).
Proof.
  destruct st as [[[cc nd] gc] l].
  destruct c; unfold step_B, step_A, state_via; simpl; rewrite map_app; reflexivity.
Qed.

Lemma repeat_step_B_via (c : currency) (m : row_B) (n : nat) (st : Q * Q * Q * list entry_B) :
  state_via c (repeat_loop (step_B m) n st) =
  repeat_loop (step_A (row_via c m)) n (state_via c st).
Proof.
  revert st. induction n as [|n IH]; intros st; simpl; [reflexivity|].
  rewrite IH, step_B_via. reflexivity.
Qed.

Lemma fold_step_B_via (c : currency) (B : list row_B) (st : Q * Q * Q * list entry_B) :
  state_via c
    (fold_left (fun st m => repeat_loop (step_B m) (units (b_quantity m)) st) B st) =
  fold_left (fun st m => repeat_loop (step_A m) (units (a_quantity m)) st)
    (map (row_via c) B) (state_via c st).
Proof.
  revert st. induction B as [|m B IH]; intros st; simpl; [reflexivity|].
  rewrite IH, repeat_step_B_via. reflexivity.
Qed.

Lemma gold_terms_via (c : currency) (B : list row_B) :
  map (fun m => a_quantity m * a_gold_price m)
    (List.filter (fun m => is_set (a_gold_price m)) (map (row_via c) B)) =
  map (fun m => b_quantity m * b_gold_price m)
    (List.filter (fun m => is_set (b_gold_price m)) B).
Proof.
  induction B as [|m B IH]; simpl; [reflexivity|].
  destruct (is_set (b_gold_price m)); simpl; rewrite IH; reflexivity.
Qed.

Lemma expand_B_via (c : currency) (B : list row_B) :
  map (entry_via c) (expand_B B) = expand_A (map (row_via c) B).
Proof.
  unfold expand_B, expand_A. rewrite gold_terms_via.
  match goal with
  | |- context [fold_left ?f B ?st] =>
      pose proof (fold_step_B_via c B st) as H; destruct (fold_left f B st) as [[[cc nd] gc] l]
  end.
  simpl in H. destruct c; simpl; rewrite <- H; reflexivity.
Qed.

Lemma priced_via (c : currency) (B : list row_B) :
  Forall priced_B B -> Forall priced_A (map (row_via c) B).
Proof.
  intros HB. apply Forall_map. eapply Forall_impl; [exact HB|].
  intros m (Hc & Hd & Hg). split; [destruct c; assumption | exact Hg].
Qed.

Lemma StronglySorted_map {T U : Type} (R : U -> U -> Prop) (f : T -> U) (l : list T) :
  StronglySorted R (map f l) -> StronglySorted (fun x y => R (f x) (f y)) l.
Proof.
  induction l as [|x l IH]; intros H; [constructor|].
  simpl in H. apply StronglySorted_inv in H as [Hl Hx].
  constructor; [apply IH, Hl|]. rewrite Forall_map in Hx. exact Hx.
Qed.

Lemma expand_B_monotone (B : list row_B) :
  Forall priced_B B ->
  ascending eb_camp_cost (expand_B B) /\
  ascending eb_new_dollar_cost (expand_B B) /\
  descending eb_gold_cost (expand_B B).
Proof.
  intros HB.
  destruct (expand_A_monotone _ (priced_via Camp B HB)) as [Hcamp Hgold].
  destruct (expand_A_monotone _ (priced_via Dollar B HB)) as [Hdollar _].
  rewrite <- expand_B_via in Hcamp, Hgold, Hdollar.
  repeat split.
  - exact (StronglySorted_map _ _ _ Hcamp).
  - exact (StronglySorted_map _ _ _ Hdollar).
  - exact (StronglySorted_map _ _ _ Hgold).
Qed.

(** C8. For every list of ticket rows and every list of camp rows whose
    set prices are non-negative, the curves built by [expand_A] and
    [expand_B] have non-decreasing cumulative ticket cost, camp cost and
    new-dollar cost, and non-increasing remaining gold cost. *)
Theorem curves_are_monotone (A : list row_A) (B : list row_B) :
  Forall priced_A A -> Forall priced_B B ->
  (ascending ea_ticket_cost (expand_A A) /\ descending ea_gold_cost (expand_A A)) /\
  (ascending eb_camp_cost (expand_B B) /\ ascending eb_new_dollar_cost (expand_B B) /\
   descending eb_gold_cost (expand_B B)).
Proof.
  intros HA HB. split; [apply expand_A_monotone, HA | apply expand_B_monotone, HB].
Qed.

Lemma curves_are_monotone_witness :
  (ascending ea_ticket_cost (expand_A [Data.ticket_row "Ore" (5 # 2) 5 8]) /\
   descending ea_gold_cost (expand_A [Data.ticket_row "Ore" (5 # 2) 5 8])) /\
  (ascending eb_camp_cost (expand_B [Data.camp_row "Hemp" 2 3 4 (-1)]) /\
   ascending eb_new_dollar_cost (expand_B [Data.camp_row "Hemp" 2 3 4 (-1)]) /\
   descending eb_gold_cost (expand_B [Data.camp_row "Hemp" 2 3 4 (-1)])).
Proof.
  apply (curves_are_monotone [Data.ticket_row "Ore" (5 # 2) 5 8]
           [Data.camp_row "Hemp" 2 3 4 (-1)]).
  - constructor; [|constructor]. split.
    + unfold Qle. simpl. lia.
    + intros _. unfold Qle. simpl. lia.
  - constructor; [|constructor]. split; [|split].
    + unfold Qle. simpl. lia.
    + unfold Qle. simpl. lia.
    + intros H. vm_compute in H. discriminate H.
Defined.

(** *** Where a curve ends *)

Lemma step_A_gold (m : row_A) (st : Q * Q * list entry_A) :
  gold_of (step_A m st) == gold_of st - gold_per_unit m.
Proof.
  destruct st as [[tc gc] l]. unfold step_A, gold_of, gold_per_unit. simpl.
  destruct (is_set (a_gold_price m)); ring.
Qed.

Lemma repeat_step_A_gold (m : row_A) (n : nat) (st : Q * Q * list entry_A) :
  gold_of (repeat_loop (step_A m) n st) ==
  gold_of st - inject_Z (Z.of_nat n) * gold_per_unit m.
Proof.
  revert st. induction n as [|n IH]; intros st.
  - simpl. change (inject_Z 0) with 0. ring.
  - cbn [repeat_loop]. rewrite IH, step_A_gold, inject_nat_succ. ring.
Qed.

Lemma fold_step_A_gold (A : list row_A) (st : Q * Q * list entry_A) :
  gold_of (fold_left (fun st m => repeat_loop (step_A m) (units (a_quantity m)) st) A st)
  == gold_of st - exchanged_gold A.
Proof.
  revert st. induction A as [|m A IH]; intros st.
  - simpl. unfold exchanged_gold. simpl. rewrite sum_nil. ring.
  - cbn [fold_left]. rewrite IH, repeat_step_A_gold.
    unfold exchanged_gold. cbn [map]. rewrite sum_cons.
    unfold gold_per_unit. ring.
Qed.

Lemma step_A_last (m : row_A) (st : Q * Q * list entry_A) : last_holds_gold (step_A m st).
Proof.
  destruct st as [[tc gc] l]. unfold step_A, last_holds_gold, gold_of. simpl.
  intros e He. rewrite last_snoc in He. injection He as <-. reflexivity.
Qed.

Lemma fold_step_A_last (A : list row_A) (st : Q * Q * list entry_A) :
  last_holds_gold st ->
  last_holds_gold
    (fold_left (fun st m => repeat_loop (step_A m) (units (a_quantity m)) st) A st).
Proof.
  intros Hst.
  apply (fold_left_inv last_holds_gold (fun _ => True)); [|apply Forall_true; auto|exact Hst].
  intros s m _ Hs. destruct (units (a_quantity m)) as [|n]; [exact Hs|].
  cbn [repeat_loop]. apply repeat_loop_inv; [|apply step_A_last].
  intros s' _. apply step_A_last.
Qed.

Lemma units_rounded (quantity : Q) :
  0 <= quantity -> inject_Z (Z.of_nat (units quantity)) = inject_Z (rounded quantity).
Proof.
  intros Hq. unfold units, rounded.
  rewrite Z2Nat.id by (apply round_quantity_nonneg, Hq). reflexivity.
Qed.

Lemma residue_A_balance (A : list row_A) :
  Forall (fun m => 0 <= a_quantity m) A ->
  sum (map (fun m => a_quantity m * a_gold_price m)
         (List.filter (fun m => is_set (a_gold_price m)) A)) - exchanged_gold A
  == rounding_residue_A A.
Proof.
  unfold exchanged_gold, rounding_residue_A.
  induction 1 as [|m A Hm _ IH]; [simpl; rewrite sum_nil; ring|].
  cbn [map List.filter]. rewrite sum_cons, (units_rounded _ Hm).
  destruct (is_set (a_gold_price m)); cbn [map]; rewrite ?sum_cons, <- IH; ring.
Qed.

Lemma expand_A_ends_at_residue (A : list row_A) (e : entry_A) :
  Forall (fun m => 0 <= a_quantity m) A ->
  last (expand_A A) = Some e ->
  ea_gold_cost e == rounding_residue_A A.
Proof.
  intros HA Hlast. rewrite expand_A_state in Hlast.
  match type of Hlast with
  | context [fold_left ?f A ?st] =>
      pose proof (fold_step_A_gold A st) as Hgold;
      assert (Hheld : last_holds_gold (fold_left f A st))
        by (apply fold_step_A_last; intros e' He'; discriminate He')
  end.
  rewrite (Hheld e Hlast), Hgold. unfold gold_of at 1. simpl.
  apply residue_A_balance, HA.
Qed.

Lemma residue_B_via (c : currency) (B : list row_B) :
  rounding_residue_A (map (row_via c) B) = rounding_residue_B B.
Proof.
  unfold rounding_residue_A, rounding_residue_B. f_equal.
  induction B as [|m B IH]; simpl; [reflexivity|].
  destruct (is_set (b_gold_price m)); simpl; rewrite IH; reflexivity.
Qed.

Lemma last_map {T U : Type} (f : T -> U) (l : list T) (x : T) :
  last l = Some x -> last (map f l) = Some (f x).
Proof.
  intros H. apply last_Some in H as [l' ->]. rewrite map_app. simpl. apply last_snoc.
Qed.

Lemma expand_B_ends_at_residue (B : list row_B) (e : entry_B) :
  Forall (fun m => 0 <= b_quantity m) B ->
  last (expand_B B) = Some e ->
  eb_gold_cost e == rounding_residue_B B.
Proof.
  intros HB Hlast.
  rewrite <- (residue_B_via Camp).
  apply (expand_A_ends_at_residue _ (entry_via Camp e)).
  - rewrite Forall_map. exact HB.
  - rewrite <- expand_B_via. apply last_map, Hlast.
Qed.

Lemma residue_A_negative (A : list row_A) :
  Forall (fun m => not_snapped_down (a_quantity m) (a_gold_price m)) A ->
  Exists (fun m => rounded_up (a_quantity m) (a_gold_price m)) A ->
  rounding_residue_A A < 0.
Proof.
  unfold rounding_residue_A. intros Hall Hex.
  assert (Hle : forall A', Forall (fun m => not_snapped_down (a_quantity m) (a_gold_price m)) A' ->
    sum (map (fun m => (a_quantity m - inject_Z (rounded (a_quantity m))) * a_gold_price m)
           (List.filter (fun m => is_set (a_gold_price m)) A')) <= 0).
  { induction 1 as [|m A' Hm _ IH]; [simpl; rewrite sum_nil; lra|].
    cbn [List.filter]. unfold not_snapped_down in Hm.
    destruct (is_set (a_gold_price m)); [|exact IH].
    cbn [map]. rewrite sum_cons. destruct (Hm eq_refl) as [Hg Hq]. nra. }
  induction Hex as [m A (Hset & Hg & Hq) | m A _ IH].
  - apply Forall_cons_iff in Hall as [_ Hall].
    cbn [List.filter]. rewrite Hset. cbn [map]. rewrite sum_cons.
    specialize (Hle A Hall). nra.
  - apply Forall_cons_iff in Hall as [Hm Hall]. specialize (IH Hall).
    cbn [List.filter]. unfold not_snapped_down in Hm.
    destruct (is_set (a_gold_price m)); [|exact IH].
    cbn [map]. rewrite sum_cons. destruct (Hm eq_refl) as [Hg Hq]. nra.
Qed.

Lemma residue_B_negative (B : list row_B) :
  Forall (fun m => not_snapped_down (b_quantity m) (b_gold_price m)) B ->
  Exists (fun m => rounded_up (b_quantity m) (b_gold_price m)) B ->
  rounding_residue_B B < 0.
Proof.
  intros Hall Hex. rewrite <- (residue_B_via Camp). apply residue_A_negative.
  - rewrite Forall_map. exact Hall.
  - rewrite Exists_map. exact Hex.
Qed.

(** *** The curve, unit by unit *)

Lemma step_A_take_off (m : row_A) (ticket_cost gold_cost : Q) (curve : list entry_A) :
  step_A m (ticket_cost, gold_cost, curve) =
  (ticket_cost + a_ticket_price m, take_off gold_cost (gold_taken_A m),
   curve ++ [{| ea_material := a_material m;
                ea_ticket_cost := ticket_cost + a_ticket_price m;
                ea_gold_cost := take_off gold_cost (gold_taken_A m) |}]).
Proof.
  unfold step_A, take_off, gold_taken_A. destruct (is_set (a_gold_price m)); reflexivity.
Qed.

Lemma curve_from_app (ticket_cost gold_cost : Q) (us1 us2 : list row_A) :
  curve_from ticket_cost gold_cost (us1 ++ us2) =
  curve_from ticket_cost gold_cost us1 ++
  curve_from (fold_left Qplus (map a_ticket_price us1) ticket_cost)
             (fold_left take_off (map gold_taken_A us1) gold_cost) us2.
Proof.
  revert ticket_cost gold_cost. induction us1 as [|m us1 IH]; intros t g; [reflexivity|].
  cbn [app curve_from map fold_left]. rewrite IH. reflexivity.
Qed.

Lemma repeat_step_A_curve (m : row_A) (n : nat) (ticket_cost gold_cost : Q)
    (curve : list entry_A) :
  repeat_loop (step_A m) n (ticket_cost, gold_cost, curve) =
  (fold_left Qplus (map a_ticket_price (replicate n m)) ticket_cost,
   fold_left take_off (map gold_taken_A (replicate n m)) gold_cost,
   curve ++ curve_from ticket_cost gold_cost (replicate n m)).
Proof.
  revert ticket_cost gold_cost curve. induction n as [|n IH]; intros t g curve.
  - cbn. rewrite app_nil_r. reflexivity.
  - cbn [repeat_loop replicate map fold_left curve_from].
    rewrite step_A_take_off, IH, <- app_assoc. reflexivity.
Qed.

Lemma fold_step_A_curve (A : list row_A) (ticket_cost gold_cost : Q) (curve : list entry_A) :
  fold_left (fun st m => repeat_loop (step_A m) (units (a_quantity m)) st) A
    (ticket_cost, gold_cost, curve) =
  (fold_left Qplus (map a_ticket_price (unit_rows a_quantity A)) ticket_cost,
   fold_left take_off (map gold_taken_A (unit_rows a_quantity A)) gold_cost,
   curve ++ curve_from ticket_cost gold_cost (unit_rows a_quantity A)).
Proof.
  revert ticket_cost gold_cost curve. induction A as [|m A IH]; intros t g curve.
  - cbn. rewrite app_nil_r. reflexivity.
  - unfold unit_rows. cbn [fold_left flat_map]. fold (unit_rows a_quantity A).
    rewrite repeat_step_A_curve, IH, curve_from_app, !map_app, !fold_left_app, <- app_assoc.
    reflexivity.
Qed.

(** [expand_A] emits, unit by unit, the totals after that unit. *)
Lemma expand_A_curve (A : list row_A) :
  expand_A A = curve_from 0 (initial_gold_A A) (unit_rows a_quantity A).
Proof.
  rewrite expand_A_state. fold (initial_gold_A A). rewrite fold_step_A_curve. reflexivity.
Qed.

Lemma curve_from_tickets (ticket_cost gold_cost : Q) (us : list row_A) :
  map ea_ticket_cost (curve_from ticket_cost gold_cost us) =
  running Qplus ticket_cost (map a_ticket_price us).
Proof.
  revert ticket_cost gold_cost. induction us as [|m us IH]; intros t g; [reflexivity|].
  cbn [curve_from map running ea_ticket_cost]. rewrite IH. reflexivity.
Qed.

Lemma curve_from_last_gold (ticket_cost gold_cost : Q) (us : list row_A) (e : entry_A) :
  last (curve_from ticket_cost gold_cost us) = Some e ->
  ea_gold_cost e = fold_left take_off (map gold_taken_A us) gold_cost.
Proof.
  revert ticket_cost gold_cost. induction us as [|m us IH]; intros t g Hlast; [discriminate|].
  cbn [curve_from map fold_left] in *.
  destruct us as [|m' us].
  - cbn in Hlast. injection Hlast as <-. reflexivity.
  - apply (IH (t + a_ticket_price m) (take_off g (gold_taken_A m))). exact Hlast.
Qed.

Lemma unit_rows_via (c : currency) (B : list row_B) :
  unit_rows a_quantity (map (row_via c) B) = map (row_via c) (unit_rows b_quantity B).
Proof.
  unfold unit_rows. induction B as [|m B IH]; [reflexivity|].
  cbn [map flat_map]. rewrite IH, map_app. f_equal.
  cbn [row_via a_quantity]. generalize (units (b_quantity m)).
  induction n as [|n IHn]; [reflexivity|]. cbn [replicate map]. rewrite IHn. reflexivity.
Qed.

Lemma initial_gold_via (c : currency) (B : list row_B) :
  initial_gold_A (map (row_via c) B) = initial_gold_B B.
Proof. unfold initial_gold_A, initial_gold_B. rewrite gold_terms_via. reflexivity. Qed.

Lemma expand_A_ends_at_replay (A : list row_A) (e : entry_A) :
  last (expand_A A) = Some e ->
  ea_gold_cost e =
  fold_left take_off (map gold_taken_A (unit_rows a_quantity A)) (initial_gold_A A).
Proof. rewrite expand_A_curve. apply curve_from_last_gold. Qed.

Lemma expand_B_ends_at_replay (B : list row_B) (e : entry_B) :
  last (expand_B B) = Some e ->
  eb_gold_cost e =
  fold_left take_off (map gold_taken_B (unit_rows b_quantity B)) (initial_gold_B B).
Proof.
  intros Hlast.
  pose proof (expand_A_ends_at_replay (map (row_via Camp) B) (entry_via Camp e)) as H.
  rewrite <- expand_B_via in H. specialize (H (last_map _ _ _ Hlast)).
  rewrite unit_rows_via, map_map, initial_gold_via in H. exact H.
Qed.

(** C10, as the program behaves.  The remaining gold of the last entry of a
    curve is the gold asked for at the start (the sum, over the gold-priced
    rows, of raw quantity * gold price) less the gold price of every unit of
    a gold-priced row, taken off one unit at a time in the order of the
    curve.  On rows whose demands are not negative and on which this
    arithmetic is exact in doubles ([exact_in_doubles]), that is the sum,
    over the gold-priced rows, of (raw quantity - rounded quantity) * gold
    price; it is negative when some row with a positive gold price was
    rounded up and no gold-priced row has a negative gold price or was
    snapped down to the integer below its raw quantity. *)
Theorem curve_ends_at_rounding_residue (A : list row_A) (B : list row_B) :
  (forall e, last (expand_A A) = Some e ->
     ea_gold_cost e =
       fold_left take_off (map gold_taken_A (unit_rows a_quantity A)) (initial_gold_A A) /\
     (Forall (fun m => 0 <= a_quantity m) A -> exact_in_doubles A ->
      ea_gold_cost e == rounding_residue_A A /\
      (Forall (fun m => not_snapped_down (a_quantity m) (a_gold_price m)) A ->
       Exists (fun m => rounded_up (a_quantity m) (a_gold_price m)) A ->
       ea_gold_cost e < 0))) /\
  (forall e, last (expand_B B) = Some e ->
     eb_gold_cost e =
       fold_left take_off (map gold_taken_B (unit_rows b_quantity B)) (initial_gold_B B) /\
     (Forall (fun m => 0 <= b_quantity m) B -> exact_in_doubles (map (row_via Camp) B) ->
      eb_gold_cost e == rounding_residue_B B /\
      (Forall (fun m => not_snapped_down (b_quantity m) (b_gold_price m)) B ->
       Exists (fun m => rounded_up (b_quantity m) (b_gold_price m)) B ->
       eb_gold_cost e < 0))).
Proof.
  split; intros e Hlast.
  - split; [apply expand_A_ends_at_replay, Hlast|]. intros HA _.
    pose proof (expand_A_ends_at_residue A e HA Hlast) as Hend.
    split; [exact Hend|]. intros Hall Hex. rewrite Hend.
    apply residue_A_negative; assumption.
  - split; [apply expand_B_ends_at_replay, Hlast|]. intros HB _.
    pose proof (expand_B_ends_at_residue B e HB Hlast) as Hend.
    split; [exact Hend|]. intros Hall Hex. rewrite Hend.
    apply residue_B_negative; assumption.
Qed.

Lemma half_unit_exact : exact_in_doubles Data.half_unit_A.
Proof.
  split.
  - constructor; [|constructor]. split.
    + exists 2621440%Z. reflexivity.
    + exists 8%Z. reflexivity.
  - vm_compute. intros H. discriminate H.
Qed.

Lemma half_unit_exact_via : exact_in_doubles (map (row_via Camp) Data.half_unit_B).
Proof.
  split.
  - constructor; [|constructor]. split.
    + exists 2621440%Z. reflexivity.
    + exists 8%Z. reflexivity.
  - vm_compute. intros H. discriminate H.
Qed.

Lemma curve_ends_at_rounding_residue_witness :
  (exists e, last (expand_A Data.half_unit_A) = Some e /\
     ea_gold_cost e =
       fold_left take_off (map gold_taken_A (unit_rows a_quantity Data.half_unit_A))
         (initial_gold_A Data.half_unit_A) /\
     ea_gold_cost e == rounding_residue_A Data.half_unit_A /\ ea_gold_cost e == -4 /\
     ea_gold_cost e < 0) /\
  (exists e, last (expand_B Data.half_unit_B) = Some e /\
     eb_gold_cost e =
       fold_left take_off (map gold_taken_B (unit_rows b_quantity Data.half_unit_B))
         (initial_gold_B Data.half_unit_B) /\
     eb_gold_cost e == rounding_residue_B Data.half_unit_B /\ eb_gold_cost e == -4 /\
     eb_gold_cost e < 0).
Proof.
  destruct (curve_ends_at_rounding_residue Data.half_unit_A Data.half_unit_B) as [HA HB].
  split.
  - assert (Hlast : exists e, last (expand_A Data.half_unit_A) = Some e)
      by (eexists; vm_compute; reflexivity).
    destruct Hlast as [e Hlast]. destruct (HA e Hlast) as [Hreplay Hexact].
    destruct Hexact as [Hend Hneg].
    { constructor; [|constructor]. unfold Qle. simpl. lia. }
    { exact half_unit_exact. }
    exists e. split; [exact Hlast|]. split; [exact Hreplay|]. split; [exact Hend|].
    split; [rewrite Hend; reflexivity|]. apply Hneg.
    + constructor; [|constructor]. intros _. split; vm_compute; intros H; discriminate H.
    + constructor. split; [reflexivity|]. split; reflexivity.
  - assert (Hlast : exists e, last (expand_B Data.half_unit_B) = Some e)
      by (eexists; vm_compute; reflexivity).
    destruct Hlast as [e Hlast]. destruct (HB e Hlast) as [Hreplay Hexact].
    destruct Hexact as [Hend Hneg].
    { constructor; [|constructor]. unfold Qle. simpl. lia. }
    { exact half_unit_exact_via. }
    exists e. split; [exact Hlast|]. split; [exact Hreplay|]. split; [exact Hend|].
    split; [rewrite Hend; reflexivity|]. apply Hneg.
    + constructor; [|constructor]. intros _. split; vm_compute; intros H; discriminate H.
    + constructor. split; [reflexivity|]. split; reflexivity.
Defined.

(** C10, counterexample.  X (3.00009 units, gold price 10) is snapped down
    to 3 and Y (2.9999 units, gold price 1) is rounded up to 3; the rows are
    in the order [split_materials] gives them; the curve ends at 0.0008
    gold, which is positive although Y was rounded up. *)
Lemma rounded_up_curve_can_end_positive :
  sort_by_key key_A snapped_rows = Ok snapped_rows /\
  Exists (fun m => rounded_up (a_quantity m) (a_gold_price m)) snapped_rows /\
  exists e, last (expand_A snapped_rows) = Some e /\ ea_gold_cost e == 8 # 10000 /\
            0 < ea_gold_cost e.
Proof.
  split; [vm_compute; reflexivity|]. split.
  - apply Exists_cons_tl, Exists_cons_hd. repeat split.
  - eexists. split; [vm_compute; reflexivity|]. split; reflexivity.
Qed.

End Curves.

(** ** Budget evaluation *)

Section Buckets.
Local Open Scope Q_scope.

Lemma zero_buckets_lookup (names : list string) (k : string) :
  zero_buckets names !! k = if decide (k ∈ names) then Some 0 else None.
Proof.
  unfold zero_buckets.
  assert (H : forall d : gmap string Q,
             fold_left (fun d name => <[name := 0]> d) names d !! k =
                        if decide (k ∈ names) then Some 0 else d !! k).
  { induction names as [|n names IH]; intros d; simpl.
    - destruct (decide (k ∈ [])) as [Hin|]; [|reflexivity].
      apply elem_of_nil in Hin. destruct Hin.
    - rewrite IH. destruct (decide (k ∈ names)) as [Hin|Hnin].
      + destruct (decide (k ∈ n :: names)) as [_|Hn]; [reflexivity|].
        exfalso. apply Hn. right. exact Hin.
      + destruct (decide (k ∈ n :: names)) as [Hin|Hn].
        * apply elem_of_cons in Hin as [->|Hin]; [|contradiction].
          apply lookup_insert_eq.
        * rewrite lookup_insert_ne; [reflexivity|]. intros ->. apply Hn. left. }
  rewrite H. destruct (decide (k ∈ names)); [reflexivity | apply lookup_empty].
Qed.

Lemma occurrences_cons (k n : string) (names : list string) :
  occurrences k (n :: names) =
  ((if String.eqb k n then 1 else 0) + occurrences k names)%nat.
Proof. unfold occurrences. simpl. destruct (String.eqb k n); reflexivity. Qed.

Lemma occurrences_app (k : string) (l1 l2 : list string) :
  occurrences k (l1 ++ l2) = (occurrences k l1 + occurrences k l2)%nat.
Proof. unfold occurrences. rewrite List.filter_app, length_app. reflexivity. Qed.

Lemma occurrences_replicate (k n : string) (c : nat) :
  occurrences k (replicate c n) = if String.eqb k n then c else 0%nat.
Proof.
  induction c as [|c IH]; simpl.
  - destruct (String.eqb k n); reflexivity.
  - rewrite occurrences_cons, IH. destruct (String.eqb k n); reflexivity.
Qed.

Lemma occurrences_split (k n : string) (names : list string) :
  inject_Z (Z.of_nat (occurrences k (n :: names))) ==
  inject_Z (Z.of_nat (occurrences k [n])) + inject_Z (Z.of_nat (occurrences k names)).
Proof.
  change (n :: names) with ([n] ++ names).
  rewrite occurrences_app, Nat2Z.inj_add, inject_Z_plus. reflexivity.
Qed.

Lemma incr_tracked (d : gmap string Q) (k : string) :
  is_Some (d !! k) ->
  exists v, d !! k = Some v /\ incr d k = Ok (<[k := v + 1]> d).
Proof. intros [v Hv]. exists v. unfold incr. rewrite Hv. auto. Qed.

Section Route.
Context {E F : Type} (accept fallback : E -> bool) (name : E -> string) (front : E -> F).

(** One step of the walk adds exactly one unit, to the material of the
    entry, in exactly one of the three buckets. *)
Lemma route_step (st : buckets F) (item : E) :
  tracked st (name item) ->
  exists st',
    route accept fallback name front st item = Ok st' /\
    (forall k, tracked st k -> tracked st' k) /\
    (forall k v1 v2 v3,
        acquired st !! k = Some v1 -> gold_fallback st !! k = Some v2 ->
        unavailable st !! k = Some v3 ->
        exists v1' v2' v3',
          acquired st' !! k = Some v1' /\ gold_fallback st' !! k = Some v2' /\
          unavailable st' !! k = Some v3' /\
          v1' + v2' + v3' == v1 + v2 + v3 +
                             inject_Z (Z.of_nat (occurrences k [name item]))).
Proof.
  intros (H1 & H2 & H3). unfold route.
  assert (Hocc : forall k, k <> name item -> occurrences k [name item] = 0%nat).
  { intros k Hk. unfold occurrences. simpl.
    destruct (String.eqb_spec k (name item)); [contradiction | reflexivity]. }
  assert (Hocc1 : occurrences (name item) [name item] = 1%nat).
  { unfold occurrences. simpl. rewrite String.eqb_refl. reflexivity. }
  assert (Hkeep : forall (d : gmap string Q) v k,
             is_Some (d !! k) -> is_Some (<[name item := v]> d !! k)).
  { intros d v k Hk. destruct (decide (name item = k)) as [<-|Hne].
    - rewrite lookup_insert_eq. eauto.
    - rewrite lookup_insert_ne; assumption. }
  destruct (accept item); [|destruct (fallback item)].
  - destruct (incr_tracked _ _ H1) as (v & Hv & ->). simpl. eexists. split; [reflexivity|].
    split.
    + intros k (K1 & K2 & K3). repeat split; simpl; auto.
    + intros k v1 v2 v3 L1 L2 L3. simpl.
      destruct (decide (name item = k)) as [<-|Hne].
      * rewrite lookup_insert_eq. exists (v + 1), v2, v3.
        rewrite Hocc1. assert (v1 = v) by congruence. subst v1.
        repeat split; auto. change (inject_Z (Z.of_nat 1)) with 1. ring.
      * rewrite lookup_insert_ne by assumption. exists v1, v2, v3.
        rewrite Hocc by congruence. repeat split; auto.
        change (inject_Z (Z.of_nat 0)) with 0. ring.
  - destruct (incr_tracked _ _ H2) as (v & Hv & ->). simpl. eexists. split; [reflexivity|].
    split.
    + intros k (K1 & K2 & K3). repeat split; simpl; auto.
    + intros k v1 v2 v3 L1 L2 L3. simpl.
      destruct (decide (name item = k)) as [<-|Hne].
      * rewrite lookup_insert_eq. exists v1, (v + 1), v3.
        rewrite Hocc1. assert (v2 = v) by congruence. subst v2.
        repeat split; auto. change (inject_Z (Z.of_nat 1)) with 1. ring.
      * rewrite lookup_insert_ne by assumption. exists v1, v2, v3.
        rewrite Hocc by congruence. repeat split; auto.
        change (inject_Z (Z.of_nat 0)) with 0. ring.
  - destruct (incr_tracked _ _ H3) as (v & Hv & ->). simpl. eexists. split; [reflexivity|].
    split.
    + intros k (K1 & K2 & K3). repeat split; simpl; auto.
    + intros k v1 v2 v3 L1 L2 L3. simpl.
      destruct (decide (name item = k)) as [<-|Hne].
      * rewrite lookup_insert_eq. exists v1, v2, (v + 1).
        rewrite Hocc1. assert (v3 = v) by congruence. subst v3.
        repeat split; auto. change (inject_Z (Z.of_nat 1)) with 1. ring.
      * rewrite lookup_insert_ne by assumption. exists v1, v2, v3.
        rewrite Hocc by congruence. repeat split; auto.
        change (inject_Z (Z.of_nat 0)) with 0. ring.
Qed.

(** The whole walk: every material gains as many units as the curve has
    entries for it, spread over its three buckets. *)
Lemma route_walk (curve : list E) (st : buckets F) :
  Forall (fun item => tracked st (name item)) curve ->
  exists st',
    for_each (route accept fallback name front) curve st = Ok st' /\
    (forall k v1 v2 v3,
        acquired st !! k = Some v1 -> gold_fallback st !! k = Some v2 ->
        unavailable st !! k = Some v3 ->
        exists v1' v2' v3',
          acquired st' !! k = Some v1' /\ gold_fallback st' !! k = Some v2' /\
          unavailable st' !! k = Some v3' /\
          v1' + v2' + v3' == v1 + v2 + v3 +
                             inject_Z (Z.of_nat (occurrences k (map name curve)))).
Proof.
  revert st. induction curve as [|item curve IH]; intros st Htracked.
  - exists st. split; [reflexivity|]. intros k v1 v2 v3 L1 L2 L3.
    exists v1, v2, v3. repeat split; auto. simpl.
    change (inject_Z (Z.of_nat (occurrences k []))) with 0. ring.
  - apply Forall_cons_iff in Htracked as [Hitem Hrest].
    destruct (route_step st item Hitem) as (st1 & Hstep & Hkeep & Hsum).
    destruct (IH st1) as (st' & Hrun & Hsum').
    { eapply Forall_impl; [exact Hrest|]. intros x Hx. apply Hkeep, Hx. }
    exists st'. split; [simpl; rewrite Hstep; exact Hrun|].
    intros k v1 v2 v3 L1 L2 L3.
    destruct (Hsum k v1 v2 v3 L1 L2 L3) as (w1 & w2 & w3 & M1 & M2 & M3 & Hw).
    destruct (Hsum' k w1 w2 w3 M1 M2 M3) as (u1 & u2 & u3 & N1 & N2 & N3 & Hu).
    exists u1, u2, u3. repeat split; auto.
    rewrite Hu, Hw. cbn [map]. rewrite (occurrences_split k (name item) (map name curve)). ring.
Qed.

End Route.

(** The walk from empty buckets over the keys [keys]. *)
Lemma walk_from_zero {E F : Type} (accept fallback : E -> bool) (name : E -> string)
    (front : E -> F) (front0 : F) (curve : list E) (keys : list string) :
  Forall (fun item => name item ∈ keys) curve ->
  exists st',
    for_each (route accept fallback name front) curve
      {| acquired := zero_buckets keys; gold_fallback := zero_buckets keys;
         unavailable := zero_buckets keys; frontier := front0 |} = Ok st' /\
    forall k, k ∈ keys ->
      partitions st' k (inject_Z (Z.of_nat (occurrences k (map name curve)))).
Proof.
  intros Hkeys.
  assert (Hzero : forall k, k ∈ keys -> zero_buckets keys !! k = Some 0).
  { intros k Hk. rewrite zero_buckets_lookup. destruct (decide (k ∈ keys)); tauto. }
  destruct (route_walk accept fallback name front curve
              {| acquired := zero_buckets keys; gold_fallback := zero_buckets keys;
                 unavailable := zero_buckets keys; frontier := front0 |})
    as (st' & Hrun & Hsum).
  { eapply Forall_impl; [exact Hkeys|]. intros item Hitem.
    unfold tracked. simpl. rewrite (Hzero _ Hitem). eauto. }
  exists st'. split; [exact Hrun|]. intros k Hk.
  destruct (Hsum k 0 0 0) as (v1 & v2 & v3 & L1 & L2 & L3 & Htotal);
    try (simpl; apply Hzero, Hk).
  exists v1, v2, v3. repeat split; auto. rewrite Htotal. ring.
Qed.

(** The material names along a curve: each row gives its name to as many
    entries as it has units. *)
Lemma repeat_step_A_names (m : row_A) (n : nat) (st : Q * Q * list entry_A) :
  map ea_material (snd (repeat_loop (step_A m) n st)) =
  map ea_material (snd st) ++ replicate n (a_material m).
Proof.
  revert st. induction n as [|n IH]; intros st; simpl; [rewrite app_nil_r; reflexivity|].
  rewrite IH. destruct st as [[tc gc] l]. simpl. rewrite map_app, <- app_assoc. reflexivity.
Qed.

Lemma expand_A_names (A : list row_A) :
  map ea_material (expand_A A) =
  flat_map (fun m => replicate (units (a_quantity m)) (a_material m)) A.
Proof.
  rewrite expand_A_state.
  assert (H : forall st,
    map ea_material
      (snd (fold_left (fun st m => repeat_loop (step_A m) (units (a_quantity m)) st) A st)) =
    map ea_material (snd st) ++
    flat_map (fun m => replicate (units (a_quantity m)) (a_material m)) A).
  { induction A as [|m A IH]; intros st; simpl; [rewrite app_nil_r; reflexivity|].
    rewrite IH, repeat_step_A_names, <- app_assoc. reflexivity. }
  rewrite H. reflexivity.
Qed.

Lemma expand_B_names (B : list row_B) :
  map eb_material (expand_B B) =
  flat_map (fun m => replicate (units (b_quantity m)) (b_material m)) B.
Proof.
  transitivity (map ea_material (map (entry_via Camp) (expand_B B))).
  - rewrite map_map. reflexivity.
  - rewrite expand_B_via, expand_A_names.
    induction B as [|m B IH]; simpl; [reflexivity | rewrite IH; reflexivity].
Qed.

Section Units.
Context {T : Type} (name : T -> string) (count : T -> nat).

Lemma occurrences_absent (k : string) (l : list T) :
  ~ In k (map name l) ->
  occurrences k (flat_map (fun m => replicate (count m) (name m)) l) = 0%nat.
Proof.
  induction l as [|x l IH]; intros Hk; simpl; [reflexivity|].
  rewrite occurrences_app, occurrences_replicate, IH.
  - destruct (String.eqb_spec k (name x)) as [->|_]; [|reflexivity].
    exfalso. apply Hk. left. reflexivity.
  - intros Hin. apply Hk. right. exact Hin.
Qed.

(** With distinct names, a row owns exactly its units of the curve. *)
Lemma occurrences_units (l : list T) (m : T) :
  NoDup (map name l) -> In m l ->
  occurrences (name m) (flat_map (fun m => replicate (count m) (name m)) l) = count m.
Proof.
  induction l as [|x l IH]; intros Hnd Hin; [destruct Hin|].
  simpl in Hnd. apply NoDup_cons in Hnd as [Hx Hnd].
  simpl. rewrite occurrences_app, occurrences_replicate.
  destruct Hin as [->|Hin].
  - rewrite String.eqb_refl, occurrences_absent; [lia|].
    intros H. apply Hx, list_elem_of_In, H.
  - rewrite (IH Hnd Hin).
    destruct (String.eqb_spec (name m) (name x)) as [Heq|_]; [|reflexivity].
    exfalso. apply Hx. rewrite <- Heq. apply list_elem_of_In, in_map, Hin.
Qed.

Lemma names_in_keys (l : list T) :
  Forall (fun k => k ∈ map name l)
         (flat_map (fun m => replicate (count m) (name m)) l).
Proof.
  apply List.Forall_forall. intros k Hk.
  apply in_flat_map in Hk as (m & Hm & Hk).
  apply list_elem_of_In in Hk. apply elem_of_replicate in Hk as [-> _].
  apply list_elem_of_In, in_map, Hm.
Qed.

(** [for item in l: d[name(item)] = value(item)] with distinct names. *)
Lemma fold_insert_lookup (value : T -> Q) (l : list T) (d : gmap string Q) (m : T) :
  NoDup (map name l) -> In m l ->
  fold_left (fun d item => <[name item := value item]> d) l d !! name m = Some (value m).
Proof.
  assert (Hkeep : forall l k (d : gmap string Q),
    ~ In k (map name l) ->
    fold_left (fun d item => <[name item := value item]> d) l d !! k = d !! k).
  { clear. induction l as [|x l IH]; intros k d Hk; simpl; [reflexivity|].
    rewrite IH by (intros H; apply Hk; right; exact H).
    apply lookup_insert_ne. intros Heq. apply Hk. left. exact Heq. }
  revert d. induction l as [|x l IH]; intros d Hnd Hin; [destruct Hin|].
  simpl in Hnd. apply NoDup_cons in Hnd as [Hx Hnd]. simpl.
  destruct Hin as [->|Hin]; [|apply IH; assumption].
  rewrite Hkeep; [apply lookup_insert_eq|].
  intros H. apply Hx, list_elem_of_In, H.
Qed.

End Units.

Lemma calculate_A_partition (A : list row_A) (max_tickets : Z) :
  NoDup (map a_material A) ->
  Forall (fun m => 0 <= a_quantity m) A ->
  exists b,
    calculate_A_materials A (expand_A A) max_tickets = Ok b /\
    forall m, In m A ->
      partitions b (a_material m)
        (if (max_tickets =? -1)%Z then a_quantity m
         else inject_Z (rounded (a_quantity m))).
Proof.
  intros Hnd Hq. unfold calculate_A_materials.
  destruct (max_tickets =? -1)%Z.
  - eexists. split; [reflexivity|]. intros m Hm.
    exists (a_quantity m), 0, 0. simpl.
    assert (Hzero : zero_buckets (map a_material A) !! a_material m = Some 0).
    { rewrite zero_buckets_lookup.
      destruct (decide (a_material m ∈ map a_material A)) as [_|Hn]; [reflexivity|].
      exfalso. apply Hn, list_elem_of_In, in_map, Hm. }
    repeat split; auto.
    + apply (fold_insert_lookup a_material a_quantity); assumption.
    + ring.
  - destruct (walk_from_zero (accept_A max_tickets)
                (fun item => is_set (ea_gold_cost item)) ea_material as_frontier_A
                (None, 0, 0) (expand_A A) (map a_material A)) as (b & Hrun & Hpart).
    { rewrite <- (Forall_map ea_material (fun k => k ∈ map a_material A)), expand_A_names.
      apply names_in_keys. }
    exists b. split; [exact Hrun|]. intros m Hm.
    specialize (Hpart (a_material m) (proj2 (list_elem_of_In _ _) (in_map _ _ _ Hm))).
    rewrite expand_A_names, (occurrences_units a_material _ A m Hnd Hm) in Hpart.
    rewrite units_rounded in Hpart; [exact Hpart|].
    rewrite List.Forall_forall in Hq. apply Hq, Hm.
Qed.

Lemma calculate_B_partition (B : list row_B) (max_camp max_new_dollar : Z) :
  NoDup (map b_material B) ->
  Forall (fun m => 0 <= b_quantity m) B ->
  exists b,
    calculate_B_materials B (expand_B B) max_camp max_new_dollar = Ok b /\
    forall m, In m B ->
      partitions b (b_material m)
        (if (max_camp =? -1)%Z && (max_new_dollar =? -1)%Z then b_quantity m
         else inject_Z (rounded (b_quantity m))).
Proof.
  intros Hnd Hq. unfold calculate_B_materials.
  destruct ((max_camp =? -1)%Z && (max_new_dollar =? -1)%Z).
  - eexists. split; [reflexivity|]. intros m Hm.
    exists (b_quantity m), 0, 0. simpl.
    assert (Hzero : zero_buckets (map b_material B) !! b_material m = Some 0).
    { rewrite zero_buckets_lookup.
      destruct (decide (b_material m ∈ map b_material B)) as [_|Hn]; [reflexivity|].
      exfalso. apply Hn, list_elem_of_In, in_map, Hm. }
    repeat split; auto.
    + apply (fold_insert_lookup b_material b_quantity); assumption.
    + ring.
  - destruct (walk_from_zero (accept_B max_camp max_new_dollar)
                (fun item => is_set (eb_gold_cost item)) eb_material as_frontier_B
                (None, 0, 0, 0) (expand_B B) (map b_material B)) as (b & Hrun & Hpart).
    { rewrite <- (Forall_map eb_material (fun k => k ∈ map b_material B)), expand_B_names.
      apply names_in_keys. }
    exists b. split; [exact Hrun|]. intros m Hm.
    specialize (Hpart (b_material m) (proj2 (list_elem_of_In _ _) (in_map _ _ _ Hm))).
    rewrite expand_B_names, (occurrences_units b_material _ B m Hnd Hm) in Hpart.
    rewrite units_rounded in Hpart; [exact Hpart|].
    rewrite List.Forall_forall in Hq. apply Hq, Hm.
Qed.

Lemma calculate_C_state (C : list row_C) :
  calculate_C_materials C =
  fold_left step_C C (zero_buckets (map c_material C), zero_buckets (map c_material C), 0).
Proof.
  unfold calculate_C_materials.
  generalize (zero_buckets (map c_material C), zero_buckets (map c_material C), 0).
  induction C as [|x C IH]; intros st; simpl; [reflexivity|].
  rewrite IH. destruct st as [[C2 C3] t]. reflexivity.
Qed.

Lemma fold_step_C_keeps (l : list row_C) (st : gmap string Q * gmap string Q * Q)
    (k : string) :
  ~ In k (map c_material l) ->
  fst (fst (fold_left step_C l st)) !! k = fst (fst st) !! k /\
  snd (fst (fold_left step_C l st)) !! k = snd (fst st) !! k.
Proof.
  revert st. induction l as [|x l IH]; intros st Hk; [split; reflexivity|].
  cbn [fold_left]. destruct (IH (step_C st x)) as [H2 H3].
  { intros H. apply Hk. right. exact H. }
  rewrite H2, H3.
  assert (Hne : c_material x <> k) by (intros H; apply Hk; left; exact H).
  destruct st as [[C2 C3] t]. unfold step_C.
  destruct (is_set (c_channel_price x)); simpl;
    rewrite ?lookup_insert_ne by exact Hne; split; reflexivity.
Qed.

Lemma fold_step_C_partition (l : list row_C) (st : gmap string Q * gmap string Q * Q)
    (m : row_C) :
  NoDup (map c_material l) -> In m l ->
  fst (fst st) !! c_material m = Some 0 -> snd (fst st) !! c_material m = Some 0 ->
  exists v2 v3,
    fst (fst (fold_left step_C l st)) !! c_material m = Some v2 /\
    snd (fst (fold_left step_C l st)) !! c_material m = Some v3 /\
    v2 + v3 == c_quantity m.
Proof.
  revert st. induction l as [|x l IH]; intros st Hnd Hin H2 H3; [destruct Hin|].
  simpl in Hnd. apply NoDup_cons in Hnd as [Hx Hnd]. cbn [fold_left].
  destruct Hin as [->|Hin].
  - destruct (fold_step_C_keeps l (step_C st m) (c_material m)) as [K2 K3].
    { intros H. apply Hx, list_elem_of_In, H. }
    rewrite K2, K3. destruct st as [[C2 C3] t]. unfold step_C. simpl in *.
    destruct (is_set (c_channel_price m)); simpl; rewrite lookup_insert_eq.
    + exists (c_quantity m), 0. repeat split; auto. ring.
    + exists 0, (c_quantity m). repeat split; auto. ring.
  - apply IH; auto.
    + assert (Hne : c_material x <> c_material m).
      { intros Heq. apply Hx. rewrite Heq. apply list_elem_of_In, in_map, Hin. }
      destruct st as [[C2 C3] t]. unfold step_C. simpl in *.
      destruct (is_set (c_channel_price x)); simpl;
        rewrite ?lookup_insert_ne by exact Hne; assumption.
    + assert (Hne : c_material x <> c_material m).
      { intros Heq. apply Hx. rewrite Heq. apply list_elem_of_In, in_map, Hin. }
      destruct st as [[C2 C3] t]. unfold step_C. simpl in *.
      destruct (is_set (c_channel_price x)); simpl;
        rewrite ?lookup_insert_ne by exact Hne; assumption.
Qed.

Lemma calculate_C_partition (C : list row_C) (m : row_C) :
  NoDup (map c_material C) -> In m C ->
  exists v2 v3,
    fst (fst (calculate_C_materials C)) !! c_material m = Some v2 /\
    snd (fst (calculate_C_materials C)) !! c_material m = Some v3 /\
    v2 + v3 == c_quantity m.
Proof.
  intros Hnd Hin. rewrite calculate_C_state.
  assert (Hzero : zero_buckets (map c_material C) !! c_material m = Some 0).
  { rewrite zero_buckets_lookup.
    destruct (decide (c_material m ∈ map c_material C)) as [_|Hn]; [reflexivity|].
    exfalso. apply Hn, list_elem_of_In, in_map, Hin. }
  apply fold_step_C_partition; assumption.
Qed.

(** C5, as the program behaves.  For rows with distinct material names and
    non-negative demands, both evaluations return, and for every material
    the quantities in its Acquired, GoldFallback and Unavailable buckets
    add up to [round_quantity] of its demand when the channel is walked
    under a finite cap (for the camp channel: unless both caps are
    unlimited), and to the raw, unrounded demand when the channel is
    unlimited; in the gold-only channel the GoldFallback and Unavailable
    buckets of a material add up to its raw demand. *)
Theorem buckets_partition_demand (A : list row_A) (B : list row_B) (C : list row_C)
    (max_tickets max_camp max_new_dollar : Z) :
  NoDup (map a_material A) -> NoDup (map b_material B) -> NoDup (map c_material C) ->
  Forall (fun m => 0 <= a_quantity m) A -> Forall (fun m => 0 <= b_quantity m) B ->
  (exists b,
      calculate_A_materials A (expand_A A) max_tickets = Ok b /\
      forall m, In m A ->
        partitions b (a_material m)
          (if (max_tickets =? -1)%Z then a_quantity m
           else inject_Z (round_quantity (a_quantity m) default_threshold))) /\
  (exists b,
      calculate_B_materials B (expand_B B) max_camp max_new_dollar = Ok b /\
      forall m, In m B ->
        partitions b (b_material m)
          (if (max_camp =? -1)%Z && (max_new_dollar =? -1)%Z then b_quantity m
           else inject_Z (round_quantity (b_quantity m) default_threshold))) /\
  (forall m, In m C ->
     exists v2 v3,
       fst (fst (calculate_C_materials C)) !! c_material m = Some v2 /\
       snd (fst (calculate_C_materials C)) !! c_material m = Some v3 /\
       v2 + v3 == c_quantity m).
Proof.
  intros HA HB HC HqA HqB. split; [|split].
  - apply calculate_A_partition; assumption.
  - apply calculate_B_partition; assumption.
  - intros m Hm. apply calculate_C_partition; assumption.
Qed.

Lemma buckets_partition_demand_witness :
  (exists b,
      calculate_A_materials [Data.ticket_row "Ore" (5 # 2) 5 8]
        (expand_A [Data.ticket_row "Ore" (5 # 2) 5 8]) 7 = Ok b /\
      forall m, In m [Data.ticket_row "Ore" (5 # 2) 5 8] ->
        partitions b (a_material m)
          (if (7 =? -1)%Z then a_quantity m
           else inject_Z (round_quantity (a_quantity m) default_threshold))) /\
  (exists b,
      calculate_B_materials [Data.camp_row "Hemp" (5 # 2) 3 4 8]
        (expand_B [Data.camp_row "Hemp" (5 # 2) 3 4 8]) (-1) 9 = Ok b /\
      forall m, In m [Data.camp_row "Hemp" (5 # 2) 3 4 8] ->
        partitions b (b_material m)
          (if (-1 =? -1)%Z && (9 =? -1)%Z then b_quantity m
           else inject_Z (round_quantity (b_quantity m) default_threshold))) /\
  (forall m, In m [Data.gold_row "Wood" (7 # 2) 10] ->
     exists v2 v3,
       fst (fst (calculate_C_materials [Data.gold_row "Wood" (7 # 2) 10]))
         !! c_material m = Some v2 /\
       snd (fst (calculate_C_materials [Data.gold_row "Wood" (7 # 2) 10]))
         !! c_material m = Some v3 /\
       v2 + v3 == c_quantity m).
Proof.
  apply (buckets_partition_demand [Data.ticket_row "Ore" (5 # 2) 5 8]
           [Data.camp_row "Hemp" (5 # 2) 3 4 8] [Data.gold_row "Wood" (7 # 2) 10]
           7 (-1) 9).
  - apply NoDup_singleton.
  - apply NoDup_singleton.
  - apply NoDup_singleton.
  - constructor; [|constructor]. unfold Qle. simpl. lia.
  - constructor; [|constructor]. unfold Qle. simpl. lia.
Defined.

(** C5, counterexample.  With an unlimited ticket cap, a demand of 2.5 Ore
    is stored unrounded: the three buckets hold 2.5, 0 and 0, which do not
    add up to [round_quantity 2.5 = 3]. *)
Lemma unlimited_cap_keeps_raw_demand :
  exists b,
    calculate_A_materials [Data.ticket_row "Ore" (5 # 2) 5 8]
      (expand_A [Data.ticket_row "Ore" (5 # 2) 5 8]) (-1) = Ok b /\
    acquired b !! "Ore"%string = Some (5 # 2) /\
    gold_fallback b !! "Ore"%string = Some 0 /\
    unavailable b !! "Ore"%string = Some 0 /\
    round_quantity (5 # 2) default_threshold = 3%Z /\
    ~ (5 # 2) + 0 + 0 == inject_Z (round_quantity (5 # 2) default_threshold).
Proof.
  eexists. split; [vm_compute; reflexivity|].
  repeat split; try (vm_compute; reflexivity).
  intros H. vm_compute in H. discriminate H.
Qed.

(** C3, at the failing input.  Ore has a ticket price of 5 and no gold
    price; Bar = 2 Ore; the basket holds one Bar and the ticket cap is 0.
    The two units of Ore exceed the cap and are routed by comparing the
    remaining gold of their curve entries (0 here) with the unset sentinel:
    they land in GoldFallback, and Unavailable stays empty, although Ore has
    no gold price.  The camp walk routes in the same way: one unit of Hemp
    (camp price 3, new-dollar price 4, no gold price) under caps of 0 lands
    in GoldFallback. *)
Theorem unpriced_shortfall_lands_in_gold_fallback :
  (exists page data,
      calculate_materials 3 Data.ore_catalog [("Bar"%string, 1%Z)] 0 (-1) (-1)
        = Ok (page, data) /\
      A page = [Data.ticket_row "Ore" (2 # 1) 5 (-1)] /\
      is_set (a_gold_price (Data.ticket_row "Ore" (2 # 1) 5 (-1))) = false /\
      map ea_gold_cost (A_expand page) = [0; 0] /\
      acquired (data_A data) !! "Ore"%string = Some 0 /\
      gold_fallback (data_A data) !! "Ore"%string = Some (2 # 1) /\
      unavailable (data_A data) !! "Ore"%string = Some 0) /\
  (exists b,
      is_set (b_gold_price (Data.camp_row "Hemp" 1 3 4 (-1))) = false /\
      calculate_B_materials [Data.camp_row "Hemp" 1 3 4 (-1)]
        (expand_B [Data.camp_row "Hemp" 1 3 4 (-1)]) 0 0 = Ok b /\
      acquired b !! "Hemp"%string = Some 0 /\
      gold_fallback b !! "Hemp"%string = Some 1 /\
      unavailable b !! "Hemp"%string = Some 0).
Proof.
  split.
  - eexists. eexists. split; [vm_compute; reflexivity|].
    split; [reflexivity|]. split; [reflexivity|]. split; [reflexivity|].
    repeat split; vm_compute; reflexivity.
  - eexists. split; [reflexivity|]. split; [vm_compute; reflexivity|].
    repeat split; vm_compute; reflexivity.
Qed.

(** What the two walks do get right: an entry is accepted exactly when its
    cumulative costs are within the caps, an unlimited cap being no bound. *)
Lemma accept_A_iff (max_tickets : Z) (item : entry_A) :
  accept_A max_tickets item = true <-> ea_ticket_cost item <= inject_Z max_tickets.
Proof. unfold accept_A. apply Qle_bool_iff. Qed.

Lemma accept_B_iff (max_camp max_new_dollar : Z) (item : entry_B) :
  accept_B max_camp max_new_dollar item = true <->
  (max_camp = (-1)%Z \/ eb_camp_cost item <= inject_Z max_camp) /\
  (max_new_dollar = (-1)%Z \/ eb_new_dollar_cost item <= inject_Z max_new_dollar).
Proof.
  unfold accept_B. rewrite andb_true_iff, !orb_true_iff, !Z.eqb_eq, !Qle_bool_iff.
  reflexivity.
Qed.

End Buckets.

(** ** Sorting by efficiency ratio *)

Section Sorting.
Local Open Scope Q_scope.
Context {T : Type}.

Lemma insert_by_key_perm (x : Q * T) (l : list (Q * T)) :
  Permutation (insert_by_key x l) (x :: l).
Proof.
  induction l as [|y l IH]; simpl; [reflexivity|].
  destruct (Qle_bool (fst x) (fst y)); [reflexivity|].
  rewrite IH. apply perm_swap.
Qed.

Lemma insert_by_key_sorted (x : Q * T) (l : list (Q * T)) :
  ascending fst l -> ascending fst (insert_by_key x l).
Proof.
  unfold ascending. induction 1 as [|y l Hl IH Hy]; simpl.
  - constructor; constructor.
  - destruct (Qle_bool (fst x) (fst y)) eqn:E.
    + apply Qle_bool_iff in E. constructor; [constructor; assumption|].
      constructor; [exact E|].
      eapply Forall_impl; [exact Hy|]. simpl. intros z Hz. lra.
    + assert (Hyx : fst y <= fst x).
      { apply Qlt_le_weak, Qnot_le_lt. intros H. apply Qle_bool_iff in H. congruence. }
      constructor; [exact IH|].
      eapply Permutation_Forall; [symmetry; apply insert_by_key_perm|].
      constructor; assumption.
Qed.

Lemma insertion_sort_perm (l : list (Q * T)) :
  Permutation (fold_right insert_by_key [] l) l.
Proof.
  induction l as [|x l IH]; simpl; [reflexivity|].
  rewrite insert_by_key_perm, IH. reflexivity.
Qed.

Lemma insertion_sort_sorted (l : list (Q * T)) :
  ascending fst (fold_right insert_by_key [] l).
Proof.
  induction l as [|x l IH]; simpl; [constructor | apply insert_by_key_sorted, IH].
Qed.

Lemma keys_computed (key : T -> result Q) (ratio : T -> Q) (l : list T) (acc : list (Q * T)) :
  Forall (fun x => key x = Ok (ratio x)) l ->
  for_each (fun acc x => k ← key x; Ok (acc ++ [(k, x)])) l acc =
  Ok (acc ++ map (fun x => (ratio x, x)) l).
Proof.
  intros Hl. revert acc. induction Hl as [|x l Hx _ IH]; intros acc; simpl.
  - rewrite app_nil_r. reflexivity.
  - rewrite Hx. simpl. rewrite IH, <- app_assoc. reflexivity.
Qed.

(** [sort] returns the elements in ascending order of their keys. *)
Lemma sort_by_key_sorted (key : T -> result Q) (ratio : T -> Q) (l : list T) :
  Forall (fun x => key x = Ok (ratio x)) l ->
  exists l', sort_by_key key l = Ok l' /\ Permutation l' l /\ ascending ratio l'.
Proof.
  intros Hl. unfold sort_by_key. rewrite (keys_computed key ratio l [] Hl). simpl.
  eexists. split; [reflexivity|]. split.
  - rewrite (insertion_sort_perm (map (fun x => (ratio x, x)) l)), map_map. simpl.
    rewrite map_id. reflexivity.
  - pose proof (insertion_sort_sorted (map (fun x => (ratio x, x)) l)) as Hsorted.
    pose proof (insertion_sort_perm (map (fun x => (ratio x, x)) l)) as Hperm.
    assert (Hkeyed : Forall (fun p => fst p = ratio (snd p))
                       (fold_right insert_by_key [] (map (fun x => (ratio x, x)) l))).
    { eapply Permutation_Forall; [symmetry; exact Hperm|].
      apply Forall_map. apply Forall_true. reflexivity. }
    revert Hsorted Hkeyed. generalize (fold_right insert_by_key [] (map (fun x => (ratio x, x)) l)).
    unfold ascending. induction 1 as [|p sorted Hs IH Hp]; intros Hkeyed; simpl; [constructor|].
    apply Forall_cons_iff in Hkeyed as [Hpk Hkeyed].
    constructor; [apply IH, Hkeyed|].
    rewrite Forall_map.
    eapply Forall_impl; [apply Forall_and; split; [exact Hp | exact Hkeyed]|].
    simpl. intros q [Hle Hq]. rewrite <- Hpk, <- Hq. exact Hle.
Qed.

End Sorting.

Section SplitMaterials.
Local Open Scope Q_scope.

Lemma ratio_of_unset_gold (price gold : Q) :
  is_set gold = false -> price / gold == - price.
Proof.
  unfold is_set. rewrite negb_false_iff. intros H. apply Qeq_bool_iff in H.
  rewrite H. field.
Qed.

Lemma StronglySorted_weaken {T : Type} (R R' : T -> T -> Prop) (l : list T) :
  (forall x y, R x y -> R' x y) -> StronglySorted R l -> StronglySorted R' l.
Proof.
  intros HR. induction 1 as [|x l _ IH Hx]; constructor; [exact IH|].
  eapply Forall_impl; [exact Hx|]. intros y. apply HR.
Qed.

(** In a list in ascending order of channel price / gold price, the rows
    without a gold price stand in descending order of channel price, and
    those of them with a positive channel price stand before every
    gold-priced row whose ratio is not negative. *)
Lemma unset_rows_in_sorted_list {T : Type} (channel_price gold_price : T -> Q)
    (l : list T) :
  ascending (fun m => channel_price m / gold_price m) l ->
  StronglySorted (unset_descending channel_price gold_price) l /\
  StronglySorted (unset_first channel_price gold_price) l.
Proof.
  intros Hl. split; (eapply StronglySorted_weaken; [|exact Hl]); simpl; intros x y Hxy.
  - intros Hx Hy.
    rewrite (ratio_of_unset_gold _ _ Hx), (ratio_of_unset_gold _ _ Hy) in Hxy. lra.
  - intros Hy Hpos _. rewrite (ratio_of_unset_gold _ _ Hy) in Hxy. lra.
Qed.

(** C7, as the program behaves.  When no gold price of a ticket or camp row
    is zero, [split_materials] returns the ticket rows in ascending order of
    ticket price / gold price and the camp rows in ascending order of camp
    contribution / gold price (the new-dollar price plays no part), each a
    permutation of the rows of its channel; the gold price enters the ratio
    as stored, so a row whose gold price is unset is kept and has the key
    minus its channel price.  Hence two rows without a gold price stand in
    descending order of channel price, and no gold-priced row with a ratio
    of zero or more stands before a row without a gold price whose channel
    price is positive. *)
Theorem split_materials_sorts_by_ratio (materials_data : list row) :
  Forall (fun m => ~ a_gold_price m == 0) (rows_A materials_data) ->
  Forall (fun m => ~ b_gold_price m == 0) (rows_B materials_data) ->
  exists A B,
    split_materials materials_data = Ok (A, B, rows_C materials_data) /\
    Permutation A (rows_A materials_data) /\ ascending ratio_A A /\
    Permutation B (rows_B materials_data) /\ ascending ratio_B B /\
    Forall (fun m => is_set (a_gold_price m) = false -> ratio_A m == - a_ticket_price m) A /\
    Forall (fun m => is_set (b_gold_price m) = false -> ratio_B m == - b_camp_price m) B /\
    StronglySorted (unset_descending a_ticket_price a_gold_price) A /\
    StronglySorted (unset_first a_ticket_price a_gold_price) A /\
    StronglySorted (unset_descending b_camp_price b_gold_price) B /\
    StronglySorted (unset_first b_camp_price b_gold_price) B.
Proof.
  intros HA HB. unfold split_materials.
  destruct (sort_by_key_sorted key_A ratio_A (rows_A materials_data))
    as (A & HsortA & HpermA & HascA).
  { eapply Forall_impl; [exact HA|]. intros m Hm. apply div_nonzero, Hm. }
  destruct (sort_by_key_sorted key_B ratio_B (rows_B materials_data))
    as (B & HsortB & HpermB & HascB).
  { eapply Forall_impl; [exact HB|]. intros m Hm. apply div_nonzero, Hm. }
  exists A, B. fold (rows_A materials_data) (rows_B materials_data) (rows_C materials_data).
  rewrite HsortA. simpl. rewrite HsortB. simpl.
  destruct (unset_rows_in_sorted_list a_ticket_price a_gold_price A HascA) as [HdescA HfirstA].
  destruct (unset_rows_in_sorted_list b_camp_price b_gold_price B HascB) as [HdescB HfirstB].
  split; [reflexivity|]. split; [exact HpermA|]. split; [exact HascA|].
  split; [exact HpermB|]. split; [exact HascB|].
  split; [apply Forall_true; intros m; apply ratio_of_unset_gold|].
  split; [apply Forall_true; intros m; apply ratio_of_unset_gold|].
  split; [exact HdescA|]. split; [exact HfirstA|]. split; [exact HdescB | exact HfirstB].
Qed.

Lemma split_materials_sorts_by_ratio_witness :
  exists A B,
    split_materials unpriced_rows = Ok (A, B, rows_C unpriced_rows) /\
    Permutation A (rows_A unpriced_rows) /\ ascending ratio_A A /\
    Permutation B (rows_B unpriced_rows) /\ ascending ratio_B B /\
    Forall (fun m => is_set (a_gold_price m) = false -> ratio_A m == - a_ticket_price m) A /\
    Forall (fun m => is_set (b_gold_price m) = false -> ratio_B m == - b_camp_price m) B /\
    StronglySorted (unset_descending a_ticket_price a_gold_price) A /\
    StronglySorted (unset_first a_ticket_price a_gold_price) A /\
    StronglySorted (unset_descending b_camp_price b_gold_price) B /\
    StronglySorted (unset_first b_camp_price b_gold_price) B.
Proof.
  apply (split_materials_sorts_by_ratio unpriced_rows).
  - repeat constructor; intros H; discriminate H.
  - constructor.
Defined.

(** C7, counterexample.  Z has ticket price 5 and gold price 8; X and Y
    have ticket prices 1 and 2 and no gold price.  [split_materials] returns
    Y, X, Z: the rows without a gold price come first and in descending
    order of channel price, which is not the ascending order of the keys
    "ratio, or channel price alone when the gold price is unset". *)
Lemma unpriced_rows_are_not_sorted_by_channel_price :
  exists A,
    split_materials unpriced_rows = Ok (A, [], []) /\
    map a_material A = ["Y"%string; "X"%string; "Z"%string] /\
    map claimed_key_A A = [2; 1; 5 / 8] /\
    ~ ascending claimed_key_A A.
Proof.
  eexists. split; [vm_compute; reflexivity|].
  split; [reflexivity|]. split; [reflexivity|].
  intros H. apply StronglySorted_inv in H as [_ H].
  apply Forall_cons_iff in H as [H _]. vm_compute in H. apply H. reflexivity.
Qed.

(** Rows with equal keys keep the order of the input: with a ticket price
    of 0 the key is 0 with and without a gold price, and a gold-priced row
    stays before a row without gold price. *)
Example tied_rows_keep_their_order :
  split_materials [Row1 (Data.ticket_row "Z" 1 0 8); Row1 (Data.ticket_row "X" 1 0 (-1))] =
  Ok ([Data.ticket_row "Z" 1 0 8; Data.ticket_row "X" 1 0 (-1)], [], []).
Proof. reflexivity. Qed.

(** A gold price of zero is set, and stops the sort: the ratio is a
    division by zero. *)
Example zero_gold_price_stops_the_sort :
  split_materials [Row1 (Data.ticket_row "Ore" 1 5 0)] = Raise ZeroDivisionError.
Proof. reflexivity. Qed.

End SplitMaterials.

(** ** Demand aggregation *)

Section Dictionaries.
Local Open Scope Q_scope.

Lemma contribution_cons (k k1 : string) (v1 : Q) (paths : list (string * Q)) :
  contribution k ((k1, v1) :: paths) ==
  (if String.eqb k1 k then v1 else 0) + contribution k paths.
Proof.
  unfold contribution. simpl. destruct (String.eqb k1 k); simpl.
  - apply sum_cons.
  - ring.
Qed.

Lemma contribution_app (k : string) (p1 p2 : list (string * Q)) :
  contribution k (p1 ++ p2) == contribution k p1 + contribution k p2.
Proof.
  unfold contribution. rewrite List.filter_app, map_app. apply sum_app.
Qed.

Lemma demand_dict_add (d : dict Q) (k : string) (v : Q) (k' : string) :
  demand (dict_add d k v) k' == demand d k' + (if String.eqb k k' then v else 0).
Proof.
  unfold demand. induction d as [|[k0 v0] d IH]; simpl.
  - destruct (String.eqb k k'); simpl; ring.
  - destruct (String.eqb_spec k0 k) as [->|Hne]; simpl.
    + destruct (String.eqb k k'); simpl; ring.
    + destruct (String.eqb_spec k0 k') as [->|Hne']; simpl.
      * destruct (String.eqb_spec k k') as [->|_]; [contradiction | ring].
      * exact IH.
Qed.

Lemma dict_add_keys (d : dict Q) (k : string) (v : Q) :
  map fst (dict_add d k v) = if decide (k ∈ map fst d) then map fst d else map fst d ++ [k].
Proof.
  induction d as [|[k0 v0] d IH]; simpl.
  - destruct (decide (k ∈ [])) as [H|_]; [|reflexivity].
    apply elem_of_nil in H. destruct H.
  - destruct (String.eqb_spec k0 k) as [->|Hne]; simpl.
    + destruct (decide (k ∈ k :: map fst d)) as [_|H]; [reflexivity|].
      exfalso. apply H. left.
    + rewrite IH. destruct (decide (k ∈ map fst d)) as [Hin|Hnin].
      * destruct (decide (k ∈ k0 :: map fst d)) as [_|H]; [reflexivity|].
        exfalso. apply H. right. exact Hin.
      * destruct (decide (k ∈ k0 :: map fst d)) as [H|_]; [|reflexivity].
        apply elem_of_cons in H as [->|H]; contradiction.
Qed.

Lemma dict_add_NoDup (d : dict Q) (k : string) (v : Q) :
  NoDup (map fst d) -> NoDup (map fst (dict_add d k v)).
Proof.
  intros Hd. rewrite dict_add_keys.
  destruct (decide (k ∈ map fst d)) as [_|Hk]; [exact Hd|].
  apply NoDup_app. split; [exact Hd|]. split; [|apply NoDup_singleton].
  intros x Hx Hx'. apply list_elem_of_singleton in Hx'. subst x. contradiction.
Qed.

Lemma merge_NoDup (base sub : dict Q) : NoDup (map fst base) -> NoDup (map fst (merge base sub)).
Proof.
  unfold merge. revert base. induction sub as [|[k v] sub IH]; intros base Hb; simpl; auto.
  apply IH, dict_add_NoDup, Hb.
Qed.

Lemma demand_merge (base sub : dict Q) (k : string) :
  demand (merge base sub) k == demand base k + contribution k sub.
Proof.
  unfold merge. revert base. induction sub as [|[k1 v1] sub IH]; intros base; simpl.
  - unfold contribution. simpl. rewrite sum_nil. ring.
  - rewrite IH, demand_dict_add, contribution_cons. ring.
Qed.

(** In a dictionary, the contributions to a key are its one entry. *)
Lemma contribution_dict (d : dict Q) (k : string) :
  NoDup (map fst d) -> contribution k d == demand d k.
Proof.
  unfold demand. induction d as [|[k0 v0] d IH]; intros Hd.
  - unfold contribution. simpl. rewrite sum_nil. reflexivity.
  - simpl in Hd. apply NoDup_cons in Hd as [Hk0 Hd].
    rewrite contribution_cons. simpl.
    destruct (String.eqb_spec k0 k) as [->|Hne]; simpl.
    + assert (Hnone : contribution k d == 0).
      { rewrite (IH Hd).
        destruct (dict_get d k) as [v|] eqn:E; [|reflexivity].
        exfalso. apply Hk0. clear -E.
        induction d as [|[k1 v1] d IHd]; [discriminate|]. simpl in E.
        destruct (String.eqb_spec k1 k) as [->|_]; [left | right; apply IHd, E]. }
      rewrite Hnone. ring.
    + rewrite (IH Hd). ring.
Qed.

Lemma same_demand_merge (base sub : dict Q) (paths subpaths : list (string * Q)) :
  same_demand base paths -> same_demand sub subpaths ->
  same_demand (merge base sub) (paths ++ subpaths).
Proof.
  intros [Hb Hbase] [Hs Hsub]. split; [apply merge_NoDup, Hb|].
  intros k. fold (demand (merge base sub) k) (contribution k (paths ++ subpaths)).
  rewrite demand_merge, contribution_app, (contribution_dict sub k Hs).
  unfold demand, contribution. rewrite Hbase, Hsub. reflexivity.
Qed.

Lemma dict_add_scaled (c : Q) (d d' : dict Q) (k : string) (v v' : Q) :
  scaled c d d' -> v' == c * v -> scaled c (dict_add d k v) (dict_add d' k v').
Proof.
  unfold scaled. intros Hd Hv.
  induction Hd as [|[k0 v0] [k0' v0'] d d' [Hk Hv0] Hd IH]; simpl in *.
  - constructor; [split; [reflexivity | exact Hv] | constructor].
  - subst k0'. destruct (String.eqb k0 k).
    + constructor; [|exact Hd]. split; [reflexivity|]. simpl. rewrite Hv0, Hv. ring.
    + constructor; [split; [reflexivity | exact Hv0] | exact IH].
Qed.

Lemma merge_scaled (c : Q) (base base' sub sub' : dict Q) :
  scaled c base base' -> scaled c sub sub' -> scaled c (merge base sub) (merge base' sub').
Proof.
  unfold merge. intros Hbase Hsub. revert base base' Hbase.
  induction Hsub as [|[k v] [k' v'] sub sub' [Hk Hv] _ IH]; intros base base' Hbase;
    simpl in *; [exact Hbase|].
  subst k'. apply IH, dict_add_scaled; assumption.
Qed.

Lemma scaled_keys (c : Q) (d d' : dict Q) : scaled c d d' -> map fst d' = map fst d.
Proof.
  induction 1 as [|x y d d' [Hk _] _ IH]; simpl; [reflexivity|]. rewrite IH, Hk. reflexivity.
Qed.

Lemma scaled_demand (c : Q) (d d' : dict Q) (k : string) :
  scaled c d d' -> demand d' k == c * demand d k.
Proof.
  unfold demand. induction 1 as [|[k0 v0] [k0' v0'] d d' [Hk Hv] _ IH]; simpl in *.
  - ring.
  - subst k0'. destruct (String.eqb k0 k); simpl; [exact Hv | exact IH].
Qed.

End Dictionaries.

Section Aggregation.
Local Open Scope Q_scope.
Variable dm : DataManager.t.
#[local] Arguments get_base_materials : simpl never.
#[local] Arguments leaf_paths : simpl never.

Lemma leaf_paths_unfold (depth : nat) (item : string) (quantity : Q) :
  leaf_paths (Datatypes.S depth) dm item quantity =
  match recipes dm !! item with
  | Some recipe =>
      for_each (path_step (leaf_paths depth dm) recipe quantity) (r_materials recipe) []
  | None => Ok [(item, quantity)]
  end.
Proof. reflexivity. Qed.

Lemma get_total_materials_unfold (depth : nat) (selected_items : dict Z) :
  get_total_materials depth dm selected_items =
  for_each (total_step (get_base_materials depth dm)) selected_items [].
Proof.
  unfold get_total_materials. apply for_each_ext.
  intros acc [item quantity]. reflexivity.
Qed.

Lemma basket_paths_unfold (depth : nat) (basket : dict Z) :
  basket_paths depth dm basket =
  for_each (fun paths entry =>
              sub ← leaf_paths depth dm (fst entry) (inject_Z (snd entry));
              Ok (paths ++ sub)) basket [].
Proof.
  unfold basket_paths. apply for_each_ext.
  intros acc [item quantity]. reflexivity.
Qed.

Lemma same_demand_nil : same_demand [] [].
Proof. split; [constructor | intros k; reflexivity]. Qed.

Lemma same_demand_leaf (item : string) (quantity : Q) :
  same_demand [(item, quantity)] [(item, quantity)].
Proof.
  split; [apply NoDup_singleton|]. intros k.
  fold (demand [(item, quantity)] k) (contribution k [(item, quantity)]).
  symmetry. apply contribution_dict. apply NoDup_singleton.
Qed.

(** Two loops that agree step by step agree at the end. *)
Lemma for_each_agree {X : Type} (f : dict Q -> X -> result (dict Q))
    (g : list (string * Q) -> X -> result (list (string * Q))) (l : list X) :
  (forall base paths x, same_demand base paths -> agree (f base x) (g paths x)) ->
  forall base paths, same_demand base paths ->
    agree (for_each f l base) (for_each g l paths).
Proof.
  intros Hstep. induction l as [|x l IH]; intros base paths Hsame; simpl; [exact Hsame|].
  specialize (Hstep base paths x Hsame).
  destruct (f base x) as [base'|e], (g paths x) as [paths'|e']; simpl in *;
    try contradiction.
  - apply IH, Hstep.
  - exact Hstep.
Qed.

(** The dictionary of [get_base_materials] holds, for every material, the
    sum of what the paths to it ask for. *)
Lemma get_base_materials_agree (depth : nat) :
  forall item quantity,
    agree (get_base_materials depth dm item quantity) (leaf_paths depth dm item quantity).
Proof.
  induction depth as [|depth IH]; intros item quantity; [reflexivity|].
  rewrite get_base_materials_unfold, leaf_paths_unfold.
  destruct (recipes dm !! item) as [r|]; [|apply same_demand_leaf].
  apply for_each_agree; [|apply same_demand_nil].
  intros base paths m Hsame. unfold base_step, path_step.
  destruct (div _ _) as [mq|e]; simpl; [|reflexivity].
  specialize (IH (m_name m) mq).
  destruct (get_base_materials depth dm (m_name m) mq) as [sub|e],
           (leaf_paths depth dm (m_name m) mq) as [subpaths|e']; simpl in *;
    try contradiction.
  - apply same_demand_merge; assumption.
  - exact IH.
Qed.

Lemma get_total_materials_agree (depth : nat) (basket : dict Z) :
  agree (get_total_materials depth dm basket) (basket_paths depth dm basket).
Proof.
  rewrite get_total_materials_unfold, basket_paths_unfold.
  apply for_each_agree; [|apply same_demand_nil].
  intros base paths [item quantity] Hsame. unfold total_step. simpl.
  pose proof (get_base_materials_agree depth item (inject_Z quantity)) as H.
  destruct (get_base_materials depth dm item (inject_Z quantity)) as [sub|e],
           (leaf_paths depth dm item (inject_Z quantity)) as [subpaths|e']; simpl in *;
    try contradiction.
  - apply same_demand_merge; assumption.
  - exact H.
Qed.

(** The decomposition is linear in the quantity asked for. *)
Lemma get_base_materials_scaled (c : Q) (depth : nat) :
  forall item quantity quantity' d,
    quantity' == c * quantity ->
    get_base_materials depth dm item quantity = Ok d ->
    exists d', get_base_materials depth dm item quantity' = Ok d' /\ scaled c d d'.
Proof.
  induction depth as [|depth IH]; intros item quantity quantity' d Hq Hrun; [discriminate|].
  rewrite get_base_materials_unfold in Hrun. rewrite get_base_materials_unfold.
  destruct (recipes dm !! item) as [r|].
  - assert (Hloop : forall l base base' d,
      scaled c base base' ->
      for_each (base_step (get_base_materials depth dm) r quantity) l base = Ok d ->
      exists d', for_each (base_step (get_base_materials depth dm) r quantity') l base' = Ok d'
                 /\ scaled c d d').
    { clear Hrun d. induction l as [|m l IHl]; intros base base' d Hbase Hrun;
        cbn [for_each] in *.
      - injection Hrun as <-. eauto.
      - destruct (base_step _ r quantity base m) as [base1|e] eqn:Estep;
          cbn [mbind result_bind] in Hrun; [|discriminate].
        apply base_step_ok_inv in Estep as (sub & Hcall & Hrq & ->).
        destruct (IH (m_name m) (m_quantity m * quantity / r_quantity r)
                    (m_quantity m * quantity' / r_quantity r) sub)
          as (sub' & Hcall' & Hsub); [|exact Hcall|].
        { rewrite Hq. field. exact Hrq. }
        rewrite (base_step_ok _ r quantity' base' m sub' Hrq Hcall').
        cbn [mbind result_bind].
        apply (IHl (merge base sub) (merge base' sub') d); [|exact Hrun].
        apply merge_scaled; assumption. }
    apply (Hloop _ [] [] d); [constructor | exact Hrun].
  - injection Hrun as <-. eexists. split; [reflexivity|].
    constructor; [|constructor]. split; [reflexivity | exact Hq].
Qed.

Lemma single_entry_scaled (c : Q) (depth : nat) (P : string) (n n' : Z) (d : dict Q) :
  inject_Z n' == c * inject_Z n ->
  get_total_materials depth dm [(P, n)] = Ok d ->
  exists d', get_total_materials depth dm [(P, n')] = Ok d' /\ scaled c d d'.
Proof.
  intros Hn Hrun. rewrite get_total_materials_unfold in Hrun.
  rewrite get_total_materials_unfold. simpl in *. unfold total_step in *. simpl in *.
  destruct (get_base_materials depth dm P (inject_Z n)) as [m|e] eqn:E;
    simpl in Hrun; [|discriminate].
  injection Hrun as <-.
  destruct (get_base_materials_scaled c depth P _ (inject_Z n') m Hn E) as (m' & -> & Hm).
  simpl. eexists. split; [reflexivity|]. apply merge_scaled; [constructor | exact Hm].
Qed.

(** *** One material at a time *)

Lemma add_demand_None (held : option Q) : add_demand held None = held.
Proof. destruct held; reflexivity. Qed.

Lemma dict_get_dict_add (d : dict Q) (k : string) (v : Q) (k' : string) :
  dict_get (dict_add d k v) k' =
  if String.eqb k k' then add_demand (dict_get d k') (Some v) else dict_get d k'.
Proof.
  induction d as [|[k0 v0] d IH]; simpl.
  - destruct (String.eqb k k'); reflexivity.
  - destruct (String.eqb_spec k0 k) as [->|Hne]; simpl.
    + destruct (String.eqb k k'); reflexivity.
    + destruct (String.eqb_spec k0 k') as [->|Hne'].
      * destruct (String.eqb_spec k k') as [->|_]; [contradiction | reflexivity].
      * exact IH.
Qed.

Lemma dict_get_absent (d : dict Q) (k : string) : k ∉ map fst d -> dict_get d k = None.
Proof.
  induction d as [|[k0 v0] d IH]; intros Hk; [reflexivity|].
  simpl in *. apply not_elem_of_cons in Hk as [Hne Hk].
  destruct (String.eqb_spec k0 k) as [->|_]; [contradiction | apply IH, Hk].
Qed.

(** Merging a dictionary into another adds, for every key, what the second
    holds to what the first holds. *)
Lemma dict_get_merge (base sub : dict Q) (k : string) :
  NoDup (map fst sub) ->
  dict_get (merge base sub) k = add_demand (dict_get base k) (dict_get sub k).
Proof.
  unfold merge. revert base. induction sub as [|[k1 v1] sub IH]; intros base Hs; simpl.
  - symmetry. apply add_demand_None.
  - simpl in Hs. apply NoDup_cons in Hs as [Hk1 Hs]. rewrite (IH _ Hs), dict_get_dict_add.
    destruct (String.eqb_spec k1 k) as [->|Hne]; [|reflexivity].
    rewrite (dict_get_absent sub k Hk1). apply add_demand_None.
Qed.

Lemma get_base_materials_NoDup (depth : nat) (item : string) (quantity : Q) (d : dict Q) :
  get_base_materials depth dm item quantity = Ok d -> NoDup (map fst d).
Proof.
  intros Hrun. pose proof (get_base_materials_agree depth item quantity) as H.
  rewrite Hrun in H. destruct (leaf_paths depth dm item quantity); [apply H | destruct H].
Qed.

Lemma path_demand_unfold (depth : nat) (k item : string) (quantity : Q) :
  path_demand (Datatypes.S depth) dm k item quantity =
  match recipes dm !! item with
  | Some recipe =>
      for_each (demand_step (path_demand depth dm k) recipe quantity)
               (r_materials recipe) None
  | None => Ok (if String.eqb item k then Some quantity else None)
  end.
Proof. reflexivity. Qed.

Lemma base_step_held (k : string) (depth : nat) (recipe : recipe) (quantity : Q)
    (base : dict Q) (m : material) :
  (forall item quantity,
     held_for k (get_base_materials depth dm item quantity) =
     path_demand depth dm k item quantity) ->
  match base_step (get_base_materials depth dm) recipe quantity base m with
  | Ok base' =>
      NoDup (map fst base) -> NoDup (map fst base') /\
      demand_step (path_demand depth dm k) recipe quantity (dict_get base k) m
      = Ok (dict_get base' k)
  | Raise e =>
      demand_step (path_demand depth dm k) recipe quantity (dict_get base k) m = Raise e
  end.
Proof.
  intros IH. unfold base_step, demand_step.
  destruct (div (m_quantity m * quantity) (r_quantity recipe)) as [mq|e];
    cbn [mbind result_bind]; [|reflexivity].
  rewrite <- IH.
  destruct (get_base_materials depth dm (m_name m) mq) as [sub|e] eqn:Esub;
    cbn [held_for mbind result_bind]; [|reflexivity].
  intros Hbase. split; [apply merge_NoDup, Hbase|].
  rewrite (dict_get_merge base sub k (get_base_materials_NoDup _ _ _ _ Esub)). reflexivity.
Qed.

(** What [get_base_materials] holds for a material is the demand that the
    paths to it bring, and it raises where adding them up raises. *)
Lemma held_for_base_materials (k : string) (depth : nat) :
  forall item quantity,
    held_for k (get_base_materials depth dm item quantity) =
    path_demand depth dm k item quantity.
Proof.
  induction depth as [|depth IH]; intros item quantity; [reflexivity|].
  rewrite get_base_materials_unfold, path_demand_unfold.
  destruct (recipes dm !! item) as [r|]; [|reflexivity].
  assert (Hloop : forall l base,
    NoDup (map fst base) ->
    held_for k (for_each (base_step (get_base_materials depth dm) r quantity) l base) =
    for_each (demand_step (path_demand depth dm k) r quantity) l (dict_get base k)).
  { induction l as [|m l IHl]; intros base Hbase; [reflexivity|].
    cbn [for_each].
    pose proof (base_step_held k depth r quantity base m IH) as Hstep.
    destruct (base_step (get_base_materials depth dm) r quantity base m) as [base'|e].
    - destruct (Hstep Hbase) as [Hbase' ->]. cbn [mbind result_bind].
      apply IHl, Hbase'.
    - rewrite Hstep. reflexivity. }
  apply (Hloop (r_materials r) []). constructor.
Qed.

Lemma held_for_total_materials (k : string) (depth : nat) (basket : dict Z) :
  held_for k (get_total_materials depth dm basket) = basket_demand depth dm k basket.
Proof.
  rewrite get_total_materials_unfold. unfold basket_demand.
  assert (Hloop : forall l total,
    NoDup (map fst total) ->
    held_for k (for_each (total_step (get_base_materials depth dm)) l total) =
    for_each (fun held entry =>
                sub ← path_demand depth dm k (fst entry) (inject_Z (snd entry));
                Ok (add_demand held sub)) l (dict_get total k)).
  { induction l as [|entry l IHl]; intros total Htotal; [reflexivity|].
    cbn [for_each]. rewrite <- held_for_base_materials.
    destruct (get_base_materials depth dm (fst entry) (inject_Z (snd entry)))
      as [sub|e] eqn:Esub.
    - assert (Hstep : total_step (get_base_materials depth dm) total entry
                      = Ok (merge total sub))
        by (unfold total_step; rewrite Esub; reflexivity).
      rewrite Hstep. cbn [held_for mbind result_bind].
      rewrite <- (dict_get_merge total sub k (get_base_materials_NoDup _ _ _ _ Esub)).
      apply IHl, merge_NoDup, Htotal.
    - assert (Hstep : total_step (get_base_materials depth dm) total entry = Raise e)
        by (unfold total_step; rewrite Esub; reflexivity).
      rewrite Hstep. reflexivity. }
  apply (Hloop basket []). constructor.
Qed.

(** *** The aggregate is produced *)

Lemma returns_at_every_depth (item : string) :
  acyclic dm -> nonzero_outputs dm ->
  exists bound, forall depth, (bound <= depth)%nat ->
    forall quantity, exists d, get_base_materials depth dm item quantity = Ok d.
Proof.
  intros Hacyclic Hnonzero. induction (Hacyclic item) as [item _ IH].
  destruct (recipes dm !! item) as [r|] eqn:Hrecipe.
  - assert (Hall : forall l, (forall m, In m l -> In m (r_materials r)) ->
      exists bound, Forall (fun m => forall depth, (bound <= depth)%nat ->
        forall quantity, exists d,
          get_base_materials depth dm (m_name m) quantity = Ok d) l).
    { induction l as [|m l IHl]; intros Hl; [exists 0%nat; constructor|].
      destruct IHl as [bound1 Hbound1]; [intros m' Hm'; apply Hl; right; exact Hm'|].
      destruct (IH (m_name m)) as [bound2 Hbound2].
      { exists r. split; [exact Hrecipe | apply in_map, Hl; left; reflexivity]. }
      exists (Nat.max bound1 bound2). constructor.
      - intros depth Hdepth. apply Hbound2. lia.
      - eapply Forall_impl; [exact Hbound1|]. simpl. intros m' Hm' depth Hdepth.
        apply Hm'. lia. }
    destruct (Hall (r_materials r)) as [bound Hbound]; [auto|].
    exists (Datatypes.S bound). intros depth Hdepth quantity.
    destruct depth as [|depth]; [lia|].
    rewrite get_base_materials_unfold, Hrecipe.
    assert (Hdepth' : (bound <= depth)%nat) by lia.
    generalize (@nil (string * Q)). revert Hbound. generalize (r_materials r).
    induction l as [|m l IHl]; intros Hl base; [eexists; reflexivity|].
    apply Forall_cons_iff in Hl as [Hm Hl].
    destruct (Hm depth Hdepth' (m_quantity m * quantity / r_quantity r)) as [sub Hsub].
    cbn [for_each].
    rewrite (base_step_ok _ r quantity base m sub (Hnonzero item r Hrecipe) Hsub).
    cbn [mbind result_bind]. apply IHl, Hl.
  - exists 1%nat. intros depth Hdepth quantity. destruct depth as [|depth]; [lia|].
    rewrite get_base_materials_unfold, Hrecipe. eexists. reflexivity.
Qed.

Lemma total_returns_at_every_depth (basket : dict Z) :
  acyclic dm -> nonzero_outputs dm ->
  exists bound, forall depth, (bound <= depth)%nat ->
    exists d, get_total_materials depth dm basket = Ok d.
Proof.
  intros Hacyclic Hnonzero.
  assert (Hall : exists bound, Forall (fun entry : string * Z =>
    forall depth, (bound <= depth)%nat -> forall quantity, exists d,
      get_base_materials depth dm (fst entry) quantity = Ok d) basket).
  { induction basket as [|entry basket [bound1 Hbound1]]; [exists 0%nat; constructor|].
    destruct (returns_at_every_depth (fst entry) Hacyclic Hnonzero) as [bound2 Hbound2].
    exists (Nat.max bound1 bound2). constructor.
    - intros depth Hdepth. apply Hbound2. lia.
    - eapply Forall_impl; [exact Hbound1|]. simpl. intros e He depth Hdepth.
      apply He. lia. }
  destruct Hall as [bound Hbound]. exists bound. intros depth Hdepth.
  rewrite get_total_materials_unfold.
  generalize (@nil (string * Q)). revert Hbound.
  induction basket as [|entry basket IHb]; intros Hl total; [eexists; reflexivity|].
  apply Forall_cons_iff in Hl as [He Hl].
  destruct (He depth Hdepth (inject_Z (snd entry))) as [sub Hsub].
  assert (Hstep : total_step (get_base_materials depth dm) total entry
                  = Ok (merge total sub))
    by (unfold total_step; rewrite Hsub; reflexivity).
  cbn [for_each]. rewrite Hstep. cbn [mbind result_bind].
  apply IHb, Hl.
Qed.

End Aggregation.

Section Additivity.
Local Open Scope Q_scope.

Lemma frame_catalog_recipes (p : string) (r : recipe) :
  recipes Data.frame_catalog !! p = Some r ->
  (p = "Frame"%string /\
   r = Data.make [("Wood"%string, 1); ("Plank"%string, 2); ("Nail"%string, 4)] 1) \/
  (p = "Plank"%string /\ r = Data.make [("Wood"%string, 3)] 2).
Proof.
  unfold Data.frame_catalog, recipes. intros H.
  apply lookup_insert_Some in H as [[<- <-]|[_ H]]; [left; auto|].
  apply lookup_singleton_Some in H as [<- <-]. right. auto.
Qed.

Lemma frame_catalog_acyclic : acyclic Data.frame_catalog.
Proof.
  assert (Hleaf : forall m, m <> "Frame"%string -> m <> "Plank"%string ->
                            Acc (fun m p => uses Data.frame_catalog p m) m).
  { intros m Hf Hp. constructor. intros m' (r & Hr & _).
    apply frame_catalog_recipes in Hr as [[-> _]|[-> _]]; contradiction. }
  assert (Hplank : Acc (fun m p => uses Data.frame_catalog p m) "Plank"%string).
  { constructor. intros m (r & Hr & Hin).
    apply frame_catalog_recipes in Hr as [[Hne _]|[_ ->]]; [discriminate Hne|].
    simpl in Hin. destruct Hin as [<-|[]]. apply Hleaf; discriminate. }
  intros p. constructor. intros m (r & Hr & Hin).
  apply frame_catalog_recipes in Hr as [[-> ->]|[-> ->]]; simpl in Hin.
  - destruct Hin as [<-|[<-|[<-|[]]]]; [apply Hleaf; discriminate | exact Hplank |
                                        apply Hleaf; discriminate].
  - destruct Hin as [<-|[]]. apply Hleaf; discriminate.
Qed.

Lemma frame_catalog_nonzero : nonzero_outputs Data.frame_catalog.
Proof.
  intros p r Hr. apply frame_catalog_recipes in Hr as [[_ ->]|[_ ->]];
    intros H; discriminate H.
Qed.

(** C9. On a catalog without cycles and without zero output quantities the
    aggregate of every basket is produced, at every stack depth from some
    depth on.  What the aggregate holds for a material is the sum of the
    quantities of all the paths that reach it from all the basket entries,
    added in the order in which the program meets them (and the aggregation
    raises where one of these quantities cannot be computed).  The
    aggregate of [(P, 2)] is, material by material and with the same
    materials in the same order, the aggregate of [(P, 1)] added to
    itself: wherever the latter is produced, and so, on a catalog without
    cycles and without zero output quantities, at every stack depth from
    some depth on. *)
Theorem aggregation_is_additive :
  (forall dm basket,
      acyclic dm -> nonzero_outputs dm ->
      exists bound, forall depth, (bound <= depth)%nat ->
        exists d, get_total_materials depth dm basket = Ok d) /\
  (forall depth dm basket k,
      held_for k (get_total_materials depth dm basket) = basket_demand depth dm k basket) /\
  (forall depth dm P d1,
      get_total_materials depth dm [(P, 1%Z)] = Ok d1 ->
      exists d,
        get_total_materials depth dm [(P, 2%Z)] = Ok d /\
        map fst d = map fst d1 /\
        forall k, demand d k == demand d1 k + demand d1 k) /\
  (forall dm P,
      acyclic dm -> nonzero_outputs dm ->
      exists bound, forall depth, (bound <= depth)%nat ->
        exists d1 d,
          get_total_materials depth dm [(P, 1%Z)] = Ok d1 /\
          get_total_materials depth dm [(P, 2%Z)] = Ok d /\
          map fst d = map fst d1 /\
          forall k, demand d k == demand d1 k + demand d1 k).
Proof.
  assert (Hdouble : forall depth dm P d1,
      get_total_materials depth dm [(P, 1%Z)] = Ok d1 ->
      exists d,
        get_total_materials depth dm [(P, 2%Z)] = Ok d /\
        map fst d = map fst d1 /\
        forall k, demand d k == demand d1 k + demand d1 k).
  { intros depth dm P d1 Hrun.
    destruct (single_entry_scaled dm 2 depth P 1%Z 2%Z d1) as (d & Hrun2 & Hscaled);
      [reflexivity | exact Hrun |].
    exists d. split; [exact Hrun2|]. split; [eapply scaled_keys, Hscaled|].
    intros k. rewrite (scaled_demand _ _ _ k Hscaled). ring. }
  split; [|split; [|split]].
  - intros dm basket. apply total_returns_at_every_depth.
  - intros depth dm basket k. apply held_for_total_materials.
  - exact Hdouble.
  - intros dm P Hacyclic Hnonzero.
    destruct (total_returns_at_every_depth dm [(P, 1%Z)] Hacyclic Hnonzero)
      as [bound Hbound].
    exists bound. intros depth Hdepth. destruct (Hbound depth Hdepth) as [d1 Hrun].
    destruct (Hdouble depth dm P d1 Hrun) as (d & Hrun2 & Hkeys & Hsum).
    exists d1, d. auto.
Qed.

Lemma aggregation_is_additive_witness :
  (exists bound, forall depth, (bound <= depth)%nat ->
     exists d, get_total_materials depth Data.frame_catalog Data.frame_basket = Ok d) /\
  (exists d,
     get_total_materials 3 Data.frame_catalog Data.frame_basket = Ok d /\
     map fst d = ["Wood"%string; "Nail"%string] /\
     Ok (dict_get d "Wood") = basket_demand 3 Data.frame_catalog "Wood" Data.frame_basket /\
     dict_get d "Wood" = Some (1 * 1 / 1 + 3 * (2 * 1 / 1) / 2 + 3 * 2 / 2) /\
     demand d "Wood" == 7) /\
  (exists d1 d,
     get_total_materials 3 Data.frame_catalog [("Frame"%string, 1%Z)] = Ok d1 /\
     get_total_materials 3 Data.frame_catalog [("Frame"%string, 2%Z)] = Ok d /\
     map fst d = map fst d1 /\
     (forall k, demand d k == demand d1 k + demand d1 k) /\
     demand d1 "Wood" == 4 /\ demand d "Wood" == 8) /\
  (exists bound, forall depth, (bound <= depth)%nat ->
     exists d1 d,
       get_total_materials depth Data.frame_catalog [("Frame"%string, 1%Z)] = Ok d1 /\
       get_total_materials depth Data.frame_catalog [("Frame"%string, 2%Z)] = Ok d /\
       map fst d = map fst d1 /\
       forall k, demand d k == demand d1 k + demand d1 k).
Proof.
  destruct aggregation_is_additive as (Hreturns & Hheld & Hdouble & Hdoubles).
  split; [|split; [|split]]; [| | |apply Hdoubles;
    [exact frame_catalog_acyclic | exact frame_catalog_nonzero]].
  - apply Hreturns; [exact frame_catalog_acyclic | exact frame_catalog_nonzero].
  - assert (Hrun : exists d,
        get_total_materials 3 Data.frame_catalog Data.frame_basket = Ok d)
      by (eexists; vm_compute; reflexivity).
    destruct Hrun as [d Hrun]. exists d. split; [exact Hrun|].
    pose proof (Hheld 3%nat Data.frame_catalog Data.frame_basket "Wood"%string) as Hwood.
    rewrite Hrun in Hwood. cbn [held_for mbind result_bind] in Hwood.
    assert (Hd : Ok d = get_total_materials 3 Data.frame_catalog Data.frame_basket)
      by (symmetry; exact Hrun).
    vm_compute in Hd. injection Hd as ->.
    split; [reflexivity|]. split; [exact Hwood|]. split; reflexivity.
  - assert (Hrun : exists d1,
        get_total_materials 3 Data.frame_catalog [("Frame"%string, 1%Z)] = Ok d1)
      by (eexists; vm_compute; reflexivity).
    destruct Hrun as [d1 Hrun].
    destruct (Hdouble 3%nat Data.frame_catalog "Frame"%string d1 Hrun)
      as (d & Hrun2 & Hkeys & Hsum).
    exists d1, d. split; [exact Hrun|]. split; [exact Hrun2|]. split; [exact Hkeys|].
    split; [exact Hsum|].
    assert (Hd1 : Ok d1 = get_total_materials 3 Data.frame_catalog [("Frame"%string, 1%Z)])
      by (symmetry; exact Hrun).
    assert (Hd : Ok d = get_total_materials 3 Data.frame_catalog [("Frame"%string, 2%Z)])
      by (symmetry; exact Hrun2).
    vm_compute in Hd1, Hd. injection Hd1 as ->. injection Hd as ->.
    split; reflexivity.
Defined.

End Additivity.

(** ** Price overrides *)

Section Overrides.
Local Open Scope Q_scope.

Lemma get_recipe_tree_ext (dm dm' : DataManager.t) :
  items dm = items dm' -> recipes dm = recipes dm' ->
  (forall name, get_item_price dm name = get_item_price dm' name) ->
  forall depth item_name quantity level,
    get_recipe_tree depth dm item_name quantity level =
    get_recipe_tree depth dm' item_name quantity level.
Proof.
  intros Hi Hr Hp depth. induction depth as [|depth IH]; intros item_name quantity level.
  - reflexivity.
  - rewrite !get_recipe_tree_unfold, <- Hi, <- Hr, Hp.
    destruct (recipes dm !! item_name) as [recipe|]; [|reflexivity].
    rewrite (for_each_ext (child_step (get_recipe_tree depth dm) recipe quantity level)
               (child_step (get_recipe_tree depth dm') recipe quantity level)).
    + reflexivity.
    + intros [children total] material. unfold child_step.
      destruct (div _ _) as [mq|e]; [|reflexivity].
      cbn [mbind result_bind]. rewrite IH. reflexivity.
Qed.

Lemma get_base_materials_ext (dm dm' : DataManager.t) :
  recipes dm = recipes dm' ->
  forall depth item quantity,
    get_base_materials depth dm item quantity = get_base_materials depth dm' item quantity.
Proof.
  intros Hr depth. induction depth as [|depth IH]; intros item quantity.
  - reflexivity.
  - rewrite !get_base_materials_unfold, <- Hr.
    destruct (recipes dm !! item) as [recipe|]; [|reflexivity].
    apply for_each_ext. intros base material. unfold base_step.
    destruct (div _ _) as [mq|e]; [|reflexivity].
    cbn [mbind result_bind]. rewrite IH. reflexivity.
Qed.

Lemma calculate_materials_unfold (depth : nat) (dm : DataManager.t)
    (item_entries : list (string * Z)) (max_tickets max_camp max_new_dollar : Z) :
  calculate_materials depth dm item_entries max_tickets max_camp max_new_dollar =
  (total_materials ← get_total_materials depth dm (read_basket item_entries);
   calculate_costs
     {| selected_items := read_basket item_entries;
        total_materials := total_materials;
        base_materials_data := items dm;
        A := []; B := []; C := []; A_expand := []; B_expand := [];
        max_tickets := max_tickets; max_camp := max_camp;
        max_new_dollar := max_new_dollar |}).
Proof.
  unfold calculate_materials, read_basket.
  assert (Hfold : forall l acc,
            fold_left (fun (selected_items : dict Z) '(item, quantity) =>
                         if negb (String.eqb item "") && (0 <? quantity)%Z
                         then dict_set selected_items item quantity
                         else selected_items) l acc = fold_left read_entry l acc).
  { induction l as [|[item quantity] l IH]; intros acc; [reflexivity|].
    cbn [fold_left]. rewrite IH. reflexivity. }
  rewrite Hfold. reflexivity.
Qed.

(** X1. An override set with [set_temp_price] is what [get_item_price]
    returns for that name once the custom-price mode is on, whether or not
    the catalog holds the item; with the mode off the call is that of the
    manager without the override; the price of every other name is
    unchanged; and after [clear_temp_prices] every price is the one of the
    mode off. *)
Theorem temp_price_round_trip (self : DataManager.t) (item_name : string) (p : Q) :
  get_item_price (set_use_custom_prices (set_temp_price self item_name p) true) item_name
    = Ok p /\
  get_item_price (set_use_custom_prices (set_temp_price self item_name p) false) item_name
    = get_item_price (set_use_custom_prices self false) item_name /\
  (forall other, other <> item_name ->
     get_item_price (set_temp_price self item_name p) other = get_item_price self other) /\
  (forall name, get_item_price (clear_temp_prices self) name
                = get_item_price (set_use_custom_prices self false) name).
Proof.
  repeat split.
  - unfold get_item_price; cbn. rewrite lookup_insert_eq. reflexivity.
  - intros other Hne. unfold get_item_price; cbn.
    rewrite lookup_insert_ne by congruence. reflexivity.
  - intros name. unfold get_item_price; cbn. rewrite lookup_empty.
    destruct (use_custom_prices self); reflexivity.
Qed.

(** X2. While the custom-price mode is off, setting an override changes no
    result of [get_recipe_tree]: the same tree or the same exception, for
    every item, quantity, level and stack depth. *)
Theorem unused_overrides_leave_tree_unchanged (self : DataManager.t) (name : string)
    (p : Q) (depth : nat) (item_name : string) (quantity : Q) (level : Z) :
  use_custom_prices self = false ->
  get_recipe_tree depth (set_temp_price self name p) item_name quantity level =
  get_recipe_tree depth self item_name quantity level.
Proof.
  intros Hoff. apply get_recipe_tree_ext; try reflexivity.
  intros n. unfold get_item_price; cbn. rewrite Hoff. reflexivity.
Qed.

Lemma unused_overrides_leave_tree_unchanged_witness :
  get_recipe_tree 2 (set_temp_price Data.plank_catalog "Wood" 12) "Plank" 3 0 =
  get_recipe_tree 2 Data.plank_catalog "Plank" 3 0.
Proof.
  apply (unused_overrides_leave_tree_unchanged Data.plank_catalog "Wood" 12 2 "Plank" 3 0).
  reflexivity.
Defined.

(** X3. The material tracking page takes its gold prices from the catalog:
    neither an override nor the custom-price mode changes the outcome of
    [calculate_materials]. *)
Theorem tracking_page_ignores_price_overrides (depth : nat) (dm : DataManager.t)
    (name : string) (p : Q) (use_custom : bool)
    (item_entries : list (string * Z)) (max_tickets max_camp max_new_dollar : Z) :
  calculate_materials depth (set_use_custom_prices (set_temp_price dm name p) use_custom)
    item_entries max_tickets max_camp max_new_dollar =
  calculate_materials depth dm item_entries max_tickets max_camp max_new_dollar.
Proof.
  rewrite !calculate_materials_unfold, !get_total_materials_unfold.
  rewrite (for_each_ext
             (total_step (get_base_materials depth
                            (set_use_custom_prices (set_temp_price dm name p) use_custom)))
             (total_step (get_base_materials depth dm))).
  - reflexivity.
  - intros total entry. unfold total_step.
    rewrite (get_base_materials_ext _ dm) by reflexivity. reflexivity.
Qed.

Lemma get_custom_price_changes_unfold (self : DataManager.t) :
  get_custom_price_changes self =
  for_each (price_change_step self) (map_to_list (temp_prices self)) [].
Proof.
  unfold get_custom_price_changes. apply for_each_ext. intros s [n c]. reflexivity.
Qed.

Lemma price_changes_all_known (self : DataManager.t) (l : list (string * Q))
    (acc : list (string * Q * Q)) :
  Forall (fun e => is_Some (items self !! fst e)) l ->
  for_each (price_change_step self) l acc = Ok (acc ++ map (change_of self) l).
Proof.
  revert acc. induction l as [|e l IH]; intros acc Hl.
  - cbn. rewrite app_nil_r. reflexivity.
  - inversion Hl as [|? ? [item Hitem] Hl']; subst.
    assert (Hstep : price_change_step self acc e = Ok (acc ++ [(fst e, price item, snd e)]))
      by (unfold price_change_step; rewrite Hitem; reflexivity).
    cbn [for_each]. rewrite Hstep.
    cbn [mbind result_bind]. rewrite IH by assumption.
    assert (Hchange : change_of self e = (fst e, price item, snd e))
      by (unfold change_of; rewrite Hitem; reflexivity).
    cbn [map]. rewrite Hchange, <- app_assoc. reflexivity.
Qed.

Lemma price_changes_missing (self : DataManager.t) (l : list (string * Q))
    (acc : list (string * Q * Q)) :
  Exists (fun e => items self !! fst e = None) l ->
  exists e, In e l /\ items self !! fst e = None /\
            for_each (price_change_step self) l acc = Raise (KeyError (fst e)).
Proof.
  revert acc. induction l as [|e l IH]; intros acc Hl.
  - inversion Hl.
  - cbn [for_each].
    destruct (items self !! fst e) as [item|] eqn:Hitem.
    + assert (Hstep : price_change_step self acc e
                      = Ok (acc ++ [(fst e, price item, snd e)]))
        by (unfold price_change_step; rewrite Hitem; reflexivity).
      rewrite Hstep. cbn [mbind result_bind]. inversion Hl as [? ? Hnone|? ? Hl']; subst.
      * congruence.
      * destruct (IH (acc ++ [(fst e, price item, snd e)]) Hl') as (e' & Hin & Hnone & Hrun).
        exists e'. split; [right; assumption|]. split; assumption.
    + assert (Hstep : price_change_step self acc e = Raise (KeyError (fst e)))
        by (unfold price_change_step; rewrite Hitem; reflexivity).
      rewrite Hstep. exists e. split; [left; reflexivity|]. split; [assumption|reflexivity].
Qed.

(** X4. When every override names an item of the catalog,
    [get_custom_price_changes] returns one entry per override, and the
    entries are exactly the triples of a name, the catalog price of that
    item and its override. *)
Theorem custom_price_changes_list_every_override (self : DataManager.t) :
  (forall name, is_Some (temp_prices self !! name) -> is_Some (items self !! name)) ->
  exists changes,
    get_custom_price_changes self = Ok changes /\
    length changes = size (temp_prices self) /\
    forall name original custom,
      (name, original, custom) ∈ changes <->
      temp_prices self !! name = Some custom /\
      exists item, items self !! name = Some item /\ price item = original.
Proof.
  intros Hknown.
  assert (Hall : Forall (fun e => is_Some (items self !! fst e))
                        (map_to_list (temp_prices self))).
  { apply List.Forall_forall. intros [n c] Hin. apply Hknown. exists c.
    apply elem_of_map_to_list. apply list_elem_of_In. exact Hin. }
  exists (map (change_of self) (map_to_list (temp_prices self))).
  split; [|split].
  - rewrite get_custom_price_changes_unfold.
    rewrite (price_changes_all_known self _ [] Hall). reflexivity.
  - rewrite length_map. apply length_map_to_list.
  - intros name original custom. rewrite list_elem_of_fmap. split.
    + intros ([n c] & Heq & Hin). apply elem_of_map_to_list in Hin.
      unfold change_of in Heq. cbn in Heq. inversion Heq; subst. split; [exact Hin|].
      destruct (Hknown n (ex_intro _ c Hin)) as [item Hitem].
      exists item. rewrite Hitem. split; reflexivity.
    + intros (Htemp & item & Hitem & Hprice). exists (name, custom). split.
      * unfold change_of. cbn. rewrite Hitem. cbn. rewrite Hprice. reflexivity.
      * apply elem_of_map_to_list. exact Htemp.
Qed.

Lemma plank_override_known (name : string) :
  is_Some (temp_prices Data.plank_catalog_with_override !! name) ->
  is_Some (items Data.plank_catalog_with_override !! name).
Proof.
  unfold Data.plank_catalog_with_override, set_temp_price. cbn.
  destruct (decide (name = "Wood"%string)) as [->|Hne].
  - intros _. rewrite lookup_singleton_eq. eauto.
  - rewrite lookup_insert_ne by congruence. rewrite lookup_empty. intros [x Hx]. discriminate.
Qed.

Lemma custom_price_changes_list_every_override_witness :
  exists changes,
    get_custom_price_changes Data.plank_catalog_with_override = Ok changes /\
    length changes = size (temp_prices Data.plank_catalog_with_override) /\
    forall name original custom,
      (name, original, custom) ∈ changes <->
      temp_prices Data.plank_catalog_with_override !! name = Some custom /\
      exists item, items Data.plank_catalog_with_override !! name = Some item /\
                   price item = original.
Proof.
  apply (custom_price_changes_list_every_override Data.plank_catalog_with_override).
  exact plank_override_known.
Defined.

(** X5. [delete_item] leaves the overrides as they are; once an item that
    has an override is deleted, [get_custom_price_changes] raises
    [KeyError] on an override whose item is gone. *)
Theorem override_of_deleted_item_breaks_price_list (self self' : DataManager.t)
    (name : string) (custom : Q) :
  temp_prices self !! name = Some custom ->
  delete_item self name = Ok self' ->
  temp_prices self' = temp_prices self /\
  exists missing,
    get_custom_price_changes self' = Raise (KeyError missing) /\
    is_Some (temp_prices self' !! missing) /\ items self' !! missing = None.
Proof.
  intros Htemp Hdel. unfold delete_item in Hdel.
  destruct (items self !! name) as [item|] eqn:Hitem; [|discriminate].
  inversion Hdel; subst self'; clear Hdel. split; [reflexivity|].
  rewrite get_custom_price_changes_unfold.
  destruct (price_changes_missing (with_items self (delete name (items self)))
              (map_to_list (temp_prices self)) []) as ([n c] & Hin & Hnone & Hrun).
  - apply List.Exists_exists. exists (name, custom). split.
    + apply list_elem_of_In. apply elem_of_map_to_list. exact Htemp.
    + cbn. apply lookup_delete_eq.
  - exists n. split; [exact Hrun|]. split; [|exact Hnone].
    exists c. cbn. apply elem_of_map_to_list. apply list_elem_of_In. exact Hin.
Qed.

Lemma override_of_deleted_item_breaks_price_list_witness :
  temp_prices (with_items Data.plank_catalog_with_override
                 (delete "Wood"%string (items Data.plank_catalog_with_override)))
    = temp_prices Data.plank_catalog_with_override /\
  exists missing,
    get_custom_price_changes
      (with_items Data.plank_catalog_with_override
         (delete "Wood"%string (items Data.plank_catalog_with_override)))
      = Raise (KeyError missing) /\
    is_Some (temp_prices
               (with_items Data.plank_catalog_with_override
                  (delete "Wood"%string (items Data.plank_catalog_with_override)))
             !! missing) /\
    items (with_items Data.plank_catalog_with_override
             (delete "Wood"%string (items Data.plank_catalog_with_override)))
      !! missing = None.
Proof.
  apply (override_of_deleted_item_breaks_price_list Data.plank_catalog_with_override
           _ "Wood" 12).
  - reflexivity.
  - reflexivity.
Defined.

End Overrides.

(** ** Editing the catalog *)

Section Editing.
Local Open Scope Q_scope.

(** X6. For a name that the catalog does not hold: [add_item] stores the
    entry, an absent channel price being stored as [-1]; deleting the item
    again gives back the catalog; on the catalog without it, [delete_item]
    and [update_item] raise [KeyError] with the message of the source;
    [update_item] on the stored item replaces the entry, and deleting it
    still gives back the catalog. *)
Theorem item_store_round_trip (self : DataManager.t) (name : string)
    (gold gold' : Q) (cat cat' : string) (lv ql lv' ql' : Z)
    (ticket camp dollar ticket' camp' dollar' : option Q) :
  items self !! name = None ->
  items (add_item self name gold cat lv ql ticket camp dollar) !! name
    = Some {| price := gold; category := cat; level := lv; quality := ql;
              ticket_price := default (-1 # 1) ticket;
              camp_contribution := default (-1 # 1) camp;
              new_dollar := default (-1 # 1) dollar |} /\
  delete_item (add_item self name gold cat lv ql ticket camp dollar) name = Ok self /\
  delete_item self name
    = Raise (KeyError ("Item '" +:+ name +:+ "' not found in the database.")) /\
  update_item self name gold' cat' lv' ql' ticket' camp' dollar'
    = Raise (KeyError ("Item '" +:+ name +:+ "' not found in the database.")) /\
  exists updated,
    update_item (add_item self name gold cat lv ql ticket camp dollar) name
      gold' cat' lv' ql' ticket' camp' dollar' = Ok updated /\
    items updated !! name
      = Some {| price := gold'; category := cat'; level := lv'; quality := ql';
                ticket_price := default (-1 # 1) ticket';
                camp_contribution := default (-1 # 1) camp';
                new_dollar := default (-1 # 1) dollar' |} /\
    delete_item updated name = Ok self.
Proof.
  intros Hfresh. destruct self as [its rcs tmp use]. cbn in Hfresh.
  unfold add_item, delete_item, update_item, new_item, with_items, item_not_found, or_unset.
  cbn. rewrite !lookup_insert_eq, Hfresh.
  split; [reflexivity|]. split.
  { rewrite delete_insert_id by assumption. reflexivity. }
  split; [reflexivity|]. split; [reflexivity|].
  eexists. split; [reflexivity|]. cbn. rewrite !lookup_insert_eq.
  split; [reflexivity|]. rewrite insert_insert_eq, delete_insert_id by assumption.
  reflexivity.
Qed.

Lemma item_store_round_trip_witness :
  items (add_item Data.plank_catalog "Ore" 9 "矿物" 3 2 (Some 5) None None) !! "Ore"%string
    = Some {| price := 9; category := "矿物"; level := 3; quality := 2;
              ticket_price := default (-1 # 1) (Some 5);
              camp_contribution := default (-1 # 1) None;
              new_dollar := default (-1 # 1) None |} /\
  delete_item (add_item Data.plank_catalog "Ore" 9 "矿物" 3 2 (Some 5) None None) "Ore"
    = Ok Data.plank_catalog /\
  delete_item Data.plank_catalog "Ore"
    = Raise (KeyError ("Item '" +:+ "Ore" +:+ "' not found in the database.")) /\
  update_item Data.plank_catalog "Ore" 7 "矿物" 4 1 None (Some 3) (Some 4)
    = Raise (KeyError ("Item '" +:+ "Ore" +:+ "' not found in the database.")) /\
  exists updated,
    update_item (add_item Data.plank_catalog "Ore" 9 "矿物" 3 2 (Some 5) None None) "Ore"
      7 "矿物" 4 1 None (Some 3) (Some 4) = Ok updated /\
    items updated !! "Ore"%string
      = Some {| price := 7; category := "矿物"; level := 4; quality := 1;
                ticket_price := default (-1 # 1) None;
                camp_contribution := default (-1 # 1) (Some 3);
                new_dollar := default (-1 # 1) (Some 4) |} /\
    delete_item updated "Ore" = Ok Data.plank_catalog.
Proof.
  apply (item_store_round_trip Data.plank_catalog "Ore" 9 7 "矿物" "矿物" 3 2 4 1
           (Some 5) None None None (Some 3) (Some 4)).
  reflexivity.
Defined.

(** X7. For a product that has no recipe: [add_recipe] stores the recipe;
    deleting it again gives back the catalog; on the catalog without it,
    [delete_recipe] and [update_recipe] raise [KeyError] with the message
    of the source; [update_recipe] on the stored recipe replaces it, and
    deleting it still gives back the catalog. *)
Theorem recipe_store_round_trip (self : DataManager.t) (product : string) (r r' : recipe) :
  recipes self !! product = None ->
  recipes (add_recipe self product (r_materials r) (r_quantity r) (r_crafting_level r)
             (r_recipe_type r) (r_is_exclusive r)) !! product = Some r /\
  delete_recipe (add_recipe self product (r_materials r) (r_quantity r)
                   (r_crafting_level r) (r_recipe_type r) (r_is_exclusive r)) product
    = Ok self /\
  delete_recipe self product
    = Raise (KeyError ("Recipe for '" +:+ product +:+ "' not found in the database.")) /\
  update_recipe self product (r_materials r') (r_quantity r') (r_crafting_level r')
    (r_recipe_type r') (r_is_exclusive r')
    = Raise (KeyError ("Recipe for '" +:+ product +:+ "' not found in the database.")) /\
  exists updated,
    update_recipe (add_recipe self product (r_materials r) (r_quantity r)
                     (r_crafting_level r) (r_recipe_type r) (r_is_exclusive r)) product
      (r_materials r') (r_quantity r') (r_crafting_level r') (r_recipe_type r')
      (r_is_exclusive r') = Ok updated /\
    recipes updated !! product = Some r' /\ delete_recipe updated product = Ok self.
Proof.
  intros Hfresh. destruct self as [its rcs tmp use]. cbn in Hfresh.
  unfold add_recipe, delete_recipe, update_recipe, new_recipe, with_recipes,
    recipe_not_found.
  cbn. rewrite !lookup_insert_eq, Hfresh. destruct r, r'; cbn.
  split; [reflexivity|]. split.
  { rewrite delete_insert_id by assumption. reflexivity. }
  split; [reflexivity|]. split; [reflexivity|].
  eexists. split; [reflexivity|]. cbn. rewrite !lookup_insert_eq.
  split; [reflexivity|]. rewrite insert_insert_eq, delete_insert_id by assumption.
  reflexivity.
Qed.

Lemma recipe_store_round_trip_witness :
  recipes (add_recipe Data.plank_catalog "Beam"
             (r_materials (Data.make [("Plank"%string, 4)] 1))
             (r_quantity (Data.make [("Plank"%string, 4)] 1))
             (r_crafting_level (Data.make [("Plank"%string, 4)] 1))
             (r_recipe_type (Data.make [("Plank"%string, 4)] 1))
             (r_is_exclusive (Data.make [("Plank"%string, 4)] 1))) !! "Beam"%string
    = Some (Data.make [("Plank"%string, 4)] 1) /\
  delete_recipe (add_recipe Data.plank_catalog "Beam"
                   (r_materials (Data.make [("Plank"%string, 4)] 1))
                   (r_quantity (Data.make [("Plank"%string, 4)] 1))
                   (r_crafting_level (Data.make [("Plank"%string, 4)] 1))
                   (r_recipe_type (Data.make [("Plank"%string, 4)] 1))
                   (r_is_exclusive (Data.make [("Plank"%string, 4)] 1))) "Beam"
    = Ok Data.plank_catalog /\
  delete_recipe Data.plank_catalog "Beam"
    = Raise (KeyError ("Recipe for '" +:+ "Beam" +:+ "' not found in the database.")) /\
  update_recipe Data.plank_catalog "Beam"
    (r_materials (Data.make [("Wood"%string, 9)] 2))
    (r_quantity (Data.make [("Wood"%string, 9)] 2))
    (r_crafting_level (Data.make [("Wood"%string, 9)] 2))
    (r_recipe_type (Data.make [("Wood"%string, 9)] 2))
    (r_is_exclusive (Data.make [("Wood"%string, 9)] 2))
    = Raise (KeyError ("Recipe for '" +:+ "Beam" +:+ "' not found in the database.")) /\
  exists updated,
    update_recipe (add_recipe Data.plank_catalog "Beam"
                     (r_materials (Data.make [("Plank"%string, 4)] 1))
                     (r_quantity (Data.make [("Plank"%string, 4)] 1))
                     (r_crafting_level (Data.make [("Plank"%string, 4)] 1))
                     (r_recipe_type (Data.make [("Plank"%string, 4)] 1))
                     (r_is_exclusive (Data.make [("Plank"%string, 4)] 1))) "Beam"
      (r_materials (Data.make [("Wood"%string, 9)] 2))
      (r_quantity (Data.make [("Wood"%string, 9)] 2))
      (r_crafting_level (Data.make [("Wood"%string, 9)] 2))
      (r_recipe_type (Data.make [("Wood"%string, 9)] 2))
      (r_is_exclusive (Data.make [("Wood"%string, 9)] 2)) = Ok updated /\
    recipes updated !! "Beam"%string = Some (Data.make [("Wood"%string, 9)] 2) /\
    delete_recipe updated "Beam" = Ok Data.plank_catalog.
Proof.
  apply (recipe_store_round_trip Data.plank_catalog "Beam"
           (Data.make [("Plank"%string, 4)] 1) (Data.make [("Wood"%string, 9)] 2)).
  reflexivity.
Defined.

(** X8. [delete_item] does not touch the recipes: after a material that has
    no recipe of its own is deleted, every recipe that lists it still does,
    and [get_recipe_tree] returns no tree for such a product, at any stack
    depth, quantity or level. *)
Theorem delete_item_keeps_recipes_using_it (self self' : DataManager.t)
    (name product : string) :
  delete_item self name = Ok self' ->
  recipes self !! name = None ->
  uses self product name ->
  recipes self' = recipes self /\
  uses self' product name /\
  forall depth quantity level node,
    get_recipe_tree depth self' product quantity level <> Ok node.
Proof.
  intros Hdel Hleaf Huses. unfold delete_item in Hdel.
  destruct (items self !! name) as [item|] eqn:Hitem; [|discriminate].
  inversion Hdel; subst self'; clear Hdel.
  split; [reflexivity|]. split; [exact Huses|].
  intros depth quantity level node Hrun.
  destruct depth as [|depth]; [discriminate|].
  destruct (get_recipe_tree_ok_material _ depth product name quantity level node Hrun Huses)
    as (q' & l' & node' & Hsub).
  destruct depth as [|depth]; [discriminate|].
  rewrite get_recipe_tree_unfold in Hsub. cbn in Hsub.
  rewrite Hleaf, lookup_delete_eq in Hsub. discriminate.
Qed.

Lemma plank_uses_wood : uses Data.plank_catalog "Plank" "Wood".
Proof.
  exists (Data.make [("Wood"%string, 2)] 1). split; [reflexivity|]. left. reflexivity.
Qed.

Lemma delete_item_keeps_recipes_using_it_witness :
  recipes (with_items Data.plank_catalog (delete "Wood"%string (items Data.plank_catalog)))
    = recipes Data.plank_catalog /\
  uses (with_items Data.plank_catalog (delete "Wood"%string (items Data.plank_catalog)))
       "Plank" "Wood" /\
  forall depth quantity level node,
    get_recipe_tree depth
      (with_items Data.plank_catalog (delete "Wood"%string (items Data.plank_catalog)))
      "Plank" quantity level <> Ok node.
Proof.
  apply (delete_item_keeps_recipes_using_it Data.plank_catalog _ "Wood" "Plank").
  - reflexivity.
  - reflexivity.
  - exact plank_uses_wood.
Defined.

End Editing.

(** ** The basket and the channels *)

Section Basket.
Local Open Scope Q_scope.

Lemma dict_set_twice {V : Type} (d : dict V) (k : string) (v1 v2 : V) :
  dict_set (dict_set d k v1) k v2 = dict_set d k v2.
Proof.
  induction d as [|[k' v'] d IH]; cbn.
  - rewrite String.eqb_refl. reflexivity.
  - destruct (String.eqb k' k) eqn:Hk; cbn; rewrite Hk; [reflexivity|].
    rewrite IH. reflexivity.
Qed.

(** X9. A name that is neither a recipe nor an item is treated in three
    ways: [get_recipe_tree] raises [ValueError] "Item not found";
    [get_total_materials] returns it as a base material; and
    [calculate_materials], looking up the data of that material, raises
    [KeyError]. *)
Theorem unknown_name_fails_differently_per_page (depth : nat) (dm : DataManager.t)
    (name : string) (n : Z) (level : Z) (max_tickets max_camp max_new_dollar : Z) :
  recipes dm !! name = None -> items dm !! name = None ->
  name <> ""%string -> (0 < n)%Z ->
  get_recipe_tree (S depth) dm name (inject_Z n) level
    = Raise (ValueError ("Item not found: " +:+ name)) /\
  get_total_materials (S depth) dm [(name, n)] = Ok [(name, inject_Z n)] /\
  calculate_materials (S depth) dm [(name, n)] max_tickets max_camp max_new_dollar
    = Raise (KeyError name).
Proof.
  intros Hr Hi Hname Hn.
  assert (Htotal : get_total_materials (S depth) dm [(name, n)] = Ok [(name, inject_Z n)]).
  { rewrite get_total_materials_unfold. cbn [for_each]. unfold total_step. cbn [fst snd].
    rewrite get_base_materials_unfold, Hr. reflexivity. }
  split; [|split].
  - rewrite get_recipe_tree_unfold, Hr, Hi. reflexivity.
  - exact Htotal.
  - rewrite calculate_materials_unfold.
    assert (Hbasket : read_basket [(name, n)] = [(name, n)]).
    { unfold read_basket, read_entry. cbn.
      apply String.eqb_neq in Hname. rewrite Hname. apply Z.ltb_lt in Hn. rewrite Hn.
      reflexivity. }
    rewrite Hbasket, Htotal. cbn [mbind result_bind].
    unfold calculate_costs, prepare_materials_data. cbn. rewrite Hi. reflexivity.
Qed.

Lemma unknown_name_fails_differently_per_page_witness :
  get_recipe_tree 3 Data.plank_catalog "Nail" (inject_Z 2) 0
    = Raise (ValueError ("Item not found: " +:+ "Nail")) /\
  get_total_materials 3 Data.plank_catalog [("Nail"%string, 2%Z)]
    = Ok [("Nail"%string, inject_Z 2)] /\
  calculate_materials 3 Data.plank_catalog [("Nail"%string, 2%Z)] (-1) (-1) (-1)
    = Raise (KeyError "Nail").
Proof.
  apply (unknown_name_fails_differently_per_page 2 Data.plank_catalog "Nail" 2 0
           (-1) (-1) (-1)).
  - reflexivity.
  - reflexivity.
  - discriminate.
  - lia.
Defined.

(** X10. The basket is a dictionary: of two consecutive entries of the page
    that name the same item, the second one with a positive quantity, only
    the second counts; the quantities are not added. *)
Theorem repeated_basket_entry_overwrites (depth : nat) (dm : DataManager.t)
    (earlier later : list (string * Z)) (item : string) (n1 n2 : Z)
    (max_tickets max_camp max_new_dollar : Z) :
  (0 < n2)%Z ->
  calculate_materials depth dm (earlier ++ (item, n1) :: (item, n2) :: later)
    max_tickets max_camp max_new_dollar =
  calculate_materials depth dm (earlier ++ (item, n2) :: later)
    max_tickets max_camp max_new_dollar.
Proof.
  intros Hn2. rewrite !calculate_materials_unfold.
  assert (Hbasket : read_basket (earlier ++ (item, n1) :: (item, n2) :: later) =
                    read_basket (earlier ++ (item, n2) :: later)).
  { unfold read_basket. rewrite !fold_left_app. cbn [fold_left]. f_equal.
    unfold read_entry; cbn [fst snd].
    apply Z.ltb_lt in Hn2. rewrite Hn2.
    destruct (String.eqb item ""); cbn; [reflexivity|].
    destruct (0 <? n1)%Z; [|reflexivity]. apply dict_set_twice. }
  rewrite Hbasket. reflexivity.
Qed.

Lemma repeated_basket_entry_overwrites_witness :
  calculate_materials 3 Data.plank_catalog
    ([] ++ ("Plank"%string, 5%Z) :: ("Plank"%string, 2%Z) :: []) (-1) (-1) (-1) =
  calculate_materials 3 Data.plank_catalog
    ([] ++ ("Plank"%string, 2%Z) :: []) (-1) (-1) (-1).
Proof.
  apply (repeated_basket_entry_overwrites 3 Data.plank_catalog [] [] "Plank" 5 2
           (-1) (-1) (-1)).
  lia.
Defined.

End Basket.

(** ** The three channels *)

Section Channels.
Local Open Scope Q_scope.

Lemma prepare_materials_data_unfold (total_materials : dict Q)
    (base_materials_data : gmap string item_data) :
  prepare_materials_data total_materials base_materials_data =
  for_each (prepare_step base_materials_data) total_materials [].
Proof.
  unfold prepare_materials_data. apply for_each_ext. intros rows [material quantity].
  unfold prepare_step, row_for. cbn [fst snd].
  destruct (base_materials_data !! material) as [item|]; [|reflexivity].
  destruct (is_set (ticket_price item)); [reflexivity|].
  destruct (is_set (camp_contribution item)); reflexivity.
Qed.

Lemma prepare_step_rows (base_materials_data : gmap string item_data)
    (l : list (string * Q)) (acc rows : list row) :
  for_each (prepare_step base_materials_data) l acc = Ok rows ->
  exists new, rows = acc ++ new /\ Forall2 (row_of_demand base_materials_data) l new.
Proof.
  revert acc. induction l as [|e l IH]; intros acc Hrun.
  - cbn in Hrun. inversion Hrun; subst. exists []. rewrite app_nil_r. split; constructor.
  - cbn [for_each] in Hrun.
    destruct (base_materials_data !! fst e) as [item|] eqn:Hitem.
    + assert (Hstep : prepare_step base_materials_data acc e
                      = Ok (acc ++ [row_for (fst e) (snd e) item]))
        by (unfold prepare_step; rewrite Hitem; reflexivity).
      rewrite Hstep in Hrun. cbn [mbind result_bind] in Hrun.
      destruct (IH _ Hrun) as (new & Hrows & Hnew).
      exists (row_for (fst e) (snd e) item :: new). split.
      * rewrite Hrows, <- app_assoc. reflexivity.
      * constructor; [|exact Hnew]. exists item. split; [exact Hitem|reflexivity].
    + assert (Hstep : prepare_step base_materials_data acc e = Raise (KeyError (fst e)))
        by (unfold prepare_step; rewrite Hitem; reflexivity).
      rewrite Hstep in Hrun. discriminate.
Qed.

Lemma channels_cover_rows (rows : list row) :
  Permutation (map a_material (rows_A rows) ++ map b_material (rows_B rows)
               ++ map c_material (rows_C rows))
              (map row_name rows).
Proof.
  induction rows as [|m rows IH]; [constructor|].
  destruct m as [a|b|c]; cbn.
  - constructor. exact IH.
  - change (omap (fun m => match m with Row1 a => Some a | _ => None end) rows)
      with (rows_A rows).
    change (omap (fun m => match m with Row2 b => Some b | _ => None end) rows)
      with (rows_B rows).
    change (omap (fun m => match m with Row3 c => Some c | _ => None end) rows)
      with (rows_C rows).
    rewrite <- Permutation_middle. constructor. exact IH.
  - change (omap (fun m => match m with Row1 a => Some a | _ => None end) rows)
      with (rows_A rows).
    change (omap (fun m => match m with Row2 b => Some b | _ => None end) rows)
      with (rows_B rows).
    change (omap (fun m => match m with Row3 c => Some c | _ => None end) rows)
      with (rows_C rows).
    rewrite app_assoc, <- Permutation_middle, <- app_assoc. constructor. exact IH.
Qed.

Lemma rows_of_demand_names (base_materials_data : gmap string item_data)
    (l : list (string * Q)) (rows : list row) :
  Forall2 (row_of_demand base_materials_data) l rows -> map row_name rows = map fst l.
Proof.
  induction 1 as [|e m l rows (item & Hitem & Hm) _ IH]; [reflexivity|].
  cbn. rewrite IH. f_equal. subst m. unfold row_for.
  destruct (is_set (ticket_price item)); [reflexivity|].
  destruct (is_set (camp_contribution item)); reflexivity.
Qed.

Lemma rows_of_demand_channels (base_materials_data : gmap string item_data)
    (l : list (string * Q)) (rows : list row) :
  Forall2 (row_of_demand base_materials_data) l rows ->
  Forall (on_ticket_channel base_materials_data l) (rows_A rows) /\
  Forall (on_camp_channel base_materials_data l) (rows_B rows) /\
  Forall (on_gold_channel base_materials_data l) (rows_C rows).
Proof.
  intros Hrows.
  assert (Hin : forall m, In m rows -> exists e, In e l /\ row_of_demand base_materials_data e m).
  { induction Hrows as [|e m l' rows' Hm _ IH]; intros m' Hm'; [destruct Hm'|].
    destruct Hm' as [<-|Hm'].
    - exists e. split; [left; reflexivity|exact Hm].
    - destruct (IH m' Hm') as (e' & He' & Hm''). exists e'. split; [right; exact He'|exact Hm'']. }
  repeat split; apply List.Forall_forall; intros m Hm.
  - assert (Hrow : In (Row1 m) rows).
    { apply list_elem_of_In, list_elem_of_omap in Hm. destruct Hm as (r & Hr & Heq).
      destruct r; inversion Heq; subst. apply list_elem_of_In. exact Hr. }
    destruct (Hin _ Hrow) as ([k q] & He & item & Hitem & Heq). cbn [fst snd] in *.
    unfold row_for in Heq. destruct (is_set (ticket_price item)) eqn:Ht.
    + inversion Heq; subst m. exists item. cbn. repeat split; assumption.
    + destruct (is_set (camp_contribution item)); discriminate.
  - assert (Hrow : In (Row2 m) rows).
    { apply list_elem_of_In, list_elem_of_omap in Hm. destruct Hm as (r & Hr & Heq).
      destruct r; inversion Heq; subst. apply list_elem_of_In. exact Hr. }
    destruct (Hin _ Hrow) as ([k q] & He & item & Hitem & Heq). cbn [fst snd] in *.
    unfold row_for in Heq. destruct (is_set (ticket_price item)) eqn:Ht; [discriminate|].
    destruct (is_set (camp_contribution item)) eqn:Hc; [|discriminate].
    inversion Heq; subst m. exists item. cbn. repeat split; assumption.
  - assert (Hrow : In (Row3 m) rows).
    { apply list_elem_of_In, list_elem_of_omap in Hm. destruct Hm as (r & Hr & Heq).
      destruct r; inversion Heq; subst. apply list_elem_of_In. exact Hr. }
    destruct (Hin _ Hrow) as ([k q] & He & item & Hitem & Heq). cbn [fst snd] in *.
    unfold row_for in Heq. destruct (is_set (ticket_price item)) eqn:Ht; [discriminate|].
    destruct (is_set (camp_contribution item)) eqn:Hc; [discriminate|].
    inversion Heq; subst m. exists item. cbn. repeat split; assumption.
Qed.

Lemma keyed_rows {T : Type} (key : T -> result Q) (l : list T) (acc keyed : list (Q * T)) :
  for_each (fun acc x => k ← key x; Ok (acc ++ [(k, x)])) l acc = Ok keyed ->
  map snd keyed = map snd acc ++ l.
Proof.
  revert acc. induction l as [|x l IH]; intros acc Hrun.
  - cbn in Hrun. inversion Hrun; subst. rewrite app_nil_r. reflexivity.
  - cbn [for_each] in Hrun. destruct (key x) as [k|e]; [|discriminate].
    cbn [mbind result_bind] in Hrun. rewrite (IH _ Hrun), map_app, <- app_assoc.
    reflexivity.
Qed.

Lemma sort_by_key_perm {T : Type} (key : T -> result Q) (l l' : list T) :
  sort_by_key key l = Ok l' -> Permutation l' l.
Proof.
  unfold sort_by_key. intros Hrun.
  destruct (for_each _ l []) as [keyed|e] eqn:Hkeys; [|discriminate].
  cbn [mbind result_bind] in Hrun. inversion Hrun; subst l'.
  pose proof (keyed_rows key l [] keyed Hkeys) as Hsnd. cbn [map app] in Hsnd.
  rewrite <- Hsnd. apply Permutation_map. apply insertion_sort_perm.
Qed.

(** X11. When [calculate_costs] returns, every material of the aggregated
    demand is on exactly one channel: the names of the rows of [A], [B] and
    [C] together are a permutation of the keys of the demand; a row of [A]
    is an item with a ticket price, a row of [B] an item without a ticket
    price and with a camp contribution, a row of [C] an item with neither;
    each row carries the demanded quantity and the prices of the
    catalog. *)
Theorem channels_partition_materials (self self' : page) (data : material_data) :
  calculate_costs self = Ok (self', data) ->
  Permutation (map a_material (A self') ++ map b_material (B self')
               ++ map c_material (C self'))
              (map fst (total_materials self)) /\
  Forall (on_ticket_channel (base_materials_data self) (total_materials self)) (A self') /\
  Forall (on_camp_channel (base_materials_data self) (total_materials self)) (B self') /\
  Forall (on_gold_channel (base_materials_data self) (total_materials self)) (C self').
Proof.
  unfold calculate_costs. intros Hrun.
  destruct (prepare_materials_data _ _) as [rows|e] eqn:Hrows; [|discriminate].
  cbn [mbind result_bind] in Hrun.
  destruct (split_materials rows) as [[[As Bs] Cs]|e] eqn:Hsplit; [|discriminate].
  cbn [mbind result_bind] in Hrun.
  destruct (calculate_material_data _) as [md|e]; [|discriminate].
  cbn [mbind result_bind] in Hrun. inversion Hrun; subst self' data; clear Hrun. cbn.
  rewrite prepare_materials_data_unfold in Hrows.
  destruct (prepare_step_rows _ _ _ _ Hrows) as (new & Heq & Hnew). cbn in Heq. subst new.
  unfold split_materials in Hsplit.
  destruct (sort_by_key key_A _) as [As'|e] eqn:HA; [|discriminate].
  cbn [mbind result_bind] in Hsplit.
  destruct (sort_by_key key_B _) as [Bs'|e] eqn:HB; [|discriminate].
  cbn [mbind result_bind] in Hsplit. inversion Hsplit; subst As' Bs' Cs; clear Hsplit.
  apply sort_by_key_perm in HA, HB.
  destruct (rows_of_demand_channels _ _ _ Hnew) as (HcA & HcB & HcC).
  split; [|split; [|split]].
  - rewrite <- (rows_of_demand_names _ _ _ Hnew), <- channels_cover_rows.
    unfold rows_A, rows_B, rows_C. rewrite HA, HB. reflexivity.
  - eapply Permutation_Forall; [symmetry; exact HA|exact HcA].
  - eapply Permutation_Forall; [symmetry; exact HB|exact HcB].
  - exact HcC.
Qed.

Lemma channels_partition_materials_witness :
  exists self' data,
    calculate_costs Data.kit_page = Ok (self', data) /\
    Permutation (map a_material (A self') ++ map b_material (B self')
                 ++ map c_material (C self'))
                (map fst (total_materials Data.kit_page)) /\
    Forall (on_ticket_channel (base_materials_data Data.kit_page)
              (total_materials Data.kit_page)) (A self') /\
    Forall (on_camp_channel (base_materials_data Data.kit_page)
              (total_materials Data.kit_page)) (B self') /\
    Forall (on_gold_channel (base_materials_data Data.kit_page)
              (total_materials Data.kit_page)) (C self').
Proof.
  assert (Hrun : exists r, calculate_costs Data.kit_page = Ok r)
    by (eexists; vm_compute; reflexivity).
  destruct Hrun as [[self' data] Hrun]. exists self', data.
  split; [exact Hrun|]. apply (channels_partition_materials Data.kit_page self' data Hrun).
Defined.

End Channels.

(** ** The labels of the tracking page *)

Lemma last_accepted_accepts {E : Type} (accept : E -> bool) (curve : list E) (e : E) :
  last_accepted accept curve = Some e -> accept e = true /\ In e curve.
Proof.
  unfold last_accepted. intros Hlast. apply last_Some in Hlast. destruct Hlast as [l' Hl'].
  assert (Hin : In e (List.filter accept curve)) by (rewrite Hl'; apply in_or_app; right; left; reflexivity).
  apply filter_In in Hin. tauto.
Qed.

Lemma last_accepted_last {E : Type} (accept : E -> bool) (curve : list E) (e : E) :
  last curve = Some e -> accept e = true -> last_accepted accept curve = Some e.
Proof.
  intros Hlast Hacc. apply last_Some in Hlast. destruct Hlast as [l' ->].
  unfold last_accepted. rewrite List.filter_app. cbn [List.filter]. rewrite Hacc.
  apply last_snoc.
Qed.

Section Frontier.

Context {E F : Type} (accept fallback : E -> bool) (name : E -> string) (front : E -> F).

Lemma route_frontier (st st' : buckets F) (item : E) :
  route accept fallback name front st item = Ok st' ->
  frontier st' = if accept item then front item else frontier st.
Proof.
  unfold route. intros Hrun. destruct (accept item).
  - destruct (incr _ _); [|discriminate]. inversion Hrun. reflexivity.
  - destruct (fallback item).
    + destruct (incr _ _); [|discriminate]. inversion Hrun. reflexivity.
    + destruct (incr _ _); [|discriminate]. inversion Hrun. reflexivity.
Qed.

Lemma walk_frontier (curve : list E) (st st' : buckets F) :
  for_each (route accept fallback name front) curve st = Ok st' ->
  frontier st' = match last_accepted accept curve with
                 | Some e => front e
                 | None => frontier st
                 end.
Proof.
  revert st. induction curve as [|item curve IH]; intros st Hrun.
  - inversion Hrun. reflexivity.
  - cbn [for_each] in Hrun.
    destruct (route accept fallback name front st item) as [st1|e] eqn:Hstep; [|discriminate].
    cbn [mbind result_bind] in Hrun. rewrite (IH _ Hrun).
    apply route_frontier in Hstep. unfold last_accepted. cbn [List.filter].
    destruct (accept item).
    + rewrite last_cons. destruct (last (List.filter accept curve)); [reflexivity|exact Hstep].
    + destruct (last (List.filter accept curve)); [reflexivity|exact Hstep].
Qed.

End Frontier.

Section Labels.
Local Open Scope Q_scope.

Lemma calculate_A_frontier (A : list row_A) (curve : list entry_A) (max_tickets : Z)
    (b : buckets frontier_A) :
  calculate_A_materials A curve max_tickets = Ok b ->
  frontier b =
  match (if (max_tickets =? -1)%Z then last curve
         else last_accepted (accept_A max_tickets) curve) with
  | Some e => as_frontier_A e
  | None => (None, 0, 0)
  end.
Proof.
  unfold calculate_A_materials. destruct (max_tickets =? -1)%Z.
  - intros Hrun. inversion Hrun. reflexivity.
  - intros Hrun.
    apply (walk_frontier (accept_A max_tickets) (fun item => is_set (ea_gold_cost item))
             ea_material as_frontier_A) in Hrun. exact Hrun.
Qed.

Lemma calculate_B_frontier (B : list row_B) (curve : list entry_B)
    (max_camp max_new_dollar : Z) (b : buckets frontier_B) :
  calculate_B_materials B curve max_camp max_new_dollar = Ok b ->
  frontier b =
  match (if (max_camp =? -1)%Z && (max_new_dollar =? -1)%Z then last curve
         else last_accepted (accept_B max_camp max_new_dollar) curve) with
  | Some e => as_frontier_B e
  | None => (None, 0, 0, 0)
  end.
Proof.
  unfold calculate_B_materials. destruct ((max_camp =? -1)%Z && (max_new_dollar =? -1)%Z).
  - intros Hrun. inversion Hrun. reflexivity.
  - intros Hrun.
    apply (walk_frontier (accept_B max_camp max_new_dollar)
             (fun item => is_set (eb_gold_cost item)) eb_material as_frontier_B) in Hrun.
    exact Hrun.
Qed.

Lemma inject_Z_nonneg (z : Z) : (0 <= z)%Z -> 0 <= inject_Z z.
Proof. intros Hz. change (inject_Z 0 <= inject_Z z). rewrite <- Zle_Qle. exact Hz. Qed.

Lemma frontier_A_eqb_refl (x : frontier_A) : frontier_A_eqb x x = true.
Proof.
  destruct x as [[[n|] t] g]; unfold frontier_A_eqb, name_eqb;
    rewrite ?String.eqb_refl, !Qeq_bool_refl; reflexivity.
Qed.

Lemma frontier_B_eqb_refl (x : frontier_B) : frontier_B_eqb x x = true.
Proof.
  destruct x as [[[[n|] c] d] g]; unfold frontier_B_eqb, name_eqb;
    rewrite ?String.eqb_refl, !Qeq_bool_refl; reflexivity.
Qed.

Lemma accept_A_differs (max_tickets : Z) (e e' : entry_A) :
  accept_A max_tickets e' = true -> accept_A max_tickets e = false ->
  frontier_A_eqb (as_frontier_A e') (as_frontier_A e) = false.
Proof.
  intros Hacc Hrej. unfold frontier_A_eqb, as_frontier_A.
  destruct (Qeq_bool (ea_ticket_cost e') (ea_ticket_cost e)) eqn:Heq.
  - exfalso. apply Qeq_bool_iff in Heq. apply accept_A_iff in Hacc.
    assert (accept_A max_tickets e = true) by (apply accept_A_iff; rewrite <- Heq; exact Hacc).
    congruence.
  - rewrite andb_false_r. reflexivity.
Qed.

Lemma accept_B_differs (max_camp max_new_dollar : Z) (e e' : entry_B) :
  accept_B max_camp max_new_dollar e' = true ->
  accept_B max_camp max_new_dollar e = false ->
  frontier_B_eqb (as_frontier_B e') (as_frontier_B e) = false.
Proof.
  intros Hacc Hrej. unfold frontier_B_eqb, as_frontier_B.
  destruct (Qeq_bool (eb_camp_cost e') (eb_camp_cost e)) eqn:Hc;
    [|rewrite andb_false_r; reflexivity].
  destruct (Qeq_bool (eb_new_dollar_cost e') (eb_new_dollar_cost e)) eqn:Hd;
    [|rewrite andb_false_r; reflexivity].
  exfalso. apply Qeq_bool_iff in Hc, Hd. apply accept_B_iff in Hacc.
  assert (accept_B max_camp max_new_dollar e = true).
  { apply accept_B_iff. rewrite <- Hc, <- Hd. exact Hacc. }
  congruence.
Qed.

Lemma shortage_A_excess (curve : list entry_A) (max_tickets : Z) (pick : entry_A -> Q) :
  match last curve with
  | Some e =>
      if negb (frontier_A_eqb
                 match (if (max_tickets =? -1)%Z then last curve
                        else last_accepted (accept_A max_tickets) curve) with
                 | Some e0 => as_frontier_A e0
                 | None => (None, 0, 0)
                 end (as_frontier_A e))
      then pick e else 0
  | None => 0
  end =
  match last curve with
  | Some e => if (max_tickets =? -1)%Z || accept_A max_tickets e then 0 else pick e
  | None => 0
  end.
Proof.
  destruct (last curve) as [e|] eqn:Hlast; [|reflexivity].
  destruct (max_tickets =? -1)%Z; cbn [orb].
  - rewrite frontier_A_eqb_refl. reflexivity.
  - destruct (accept_A max_tickets e) eqn:Hacc.
    + rewrite (last_accepted_last _ _ _ Hlast Hacc), frontier_A_eqb_refl. reflexivity.
    + destruct (last_accepted (accept_A max_tickets) curve) as [e'|] eqn:Hla.
      * apply last_accepted_accepts in Hla. destruct Hla as [Hacc' _].
        rewrite (accept_A_differs _ _ _ Hacc' Hacc). reflexivity.
      * reflexivity.
Qed.

Lemma shortage_B_excess (curve : list entry_B) (max_camp max_new_dollar : Z)
    (pick : entry_B -> Q) :
  match last curve with
  | Some e =>
      if negb (frontier_B_eqb
                 match (if (max_camp =? -1)%Z && (max_new_dollar =? -1)%Z then last curve
                        else last_accepted (accept_B max_camp max_new_dollar) curve) with
                 | Some e0 => as_frontier_B e0
                 | None => (None, 0, 0, 0)
                 end (as_frontier_B e))
      then pick e else 0
  | None => 0
  end =
  match last curve with
  | Some e => if accept_B max_camp max_new_dollar e then 0 else pick e
  | None => 0
  end.
Proof.
  destruct (last curve) as [e|] eqn:Hlast; [|reflexivity].
  destruct ((max_camp =? -1)%Z && (max_new_dollar =? -1)%Z) eqn:Hcaps.
  - rewrite frontier_B_eqb_refl. unfold accept_B.
    apply andb_true_iff in Hcaps. destruct Hcaps as [-> ->]. reflexivity.
  - destruct (accept_B max_camp max_new_dollar e) eqn:Hacc.
    + rewrite (last_accepted_last _ _ _ Hlast Hacc), frontier_B_eqb_refl. reflexivity.
    + destruct (last_accepted (accept_B max_camp max_new_dollar) curve) as [e'|] eqn:Hla.
      * apply last_accepted_accepts in Hla. destruct Hla as [Hacc' _].
        rewrite (accept_B_differs _ _ _ _ Hacc' Hacc). reflexivity.
      * reflexivity.
Qed.

(** X12. The shortages that [update_unavailable_materials] shows, for the
    buckets that [calculate_material_data] returns: the ticket shortage is 0
    when the curve is empty, the cap is unlimited or the last entry of the
    curve is within the cap, and otherwise the ticket cost of the last
    entry minus the cap; the camp and new-dollar shortages are 0 when the
    curve is empty or its last entry is accepted, and otherwise both are
    the cost of the last entry minus their own cap, also for a cap that is
    the unlimited sentinel [-1] or that the last entry does not exceed. *)
Theorem shortage_is_excess_of_last_entry (self : page) (data : material_data) :
  calculate_material_data self = Ok data ->
  update_unavailable_materials self data =
  (match last (A_expand self) with
   | Some e =>
       if (max_tickets self =? -1)%Z || accept_A (max_tickets self) e then 0
       else ea_ticket_cost e - inject_Z (max_tickets self)
   | None => 0
   end,
   match last (B_expand self) with
   | Some e =>
       if accept_B (max_camp self) (max_new_dollar self) e then 0
       else eb_camp_cost e - inject_Z (max_camp self)
   | None => 0
   end,
   match last (B_expand self) with
   | Some e =>
       if accept_B (max_camp self) (max_new_dollar self) e then 0
       else eb_new_dollar_cost e - inject_Z (max_new_dollar self)
   | None => 0
   end).
Proof.
  unfold calculate_material_data. intros Hrun.
  destruct (calculate_A_materials _ _ _) as [bA|e] eqn:HA; [|discriminate].
  cbn [mbind result_bind] in Hrun.
  destruct (calculate_B_materials _ _ _ _) as [bB|e] eqn:HB; [|discriminate].
  cbn [mbind result_bind] in Hrun. inversion Hrun; subst data; clear Hrun.
  apply calculate_A_frontier in HA. apply calculate_B_frontier in HB.
  unfold update_unavailable_materials. cbn [data_A data_B frontier]. rewrite HA, HB.
  rewrite (shortage_A_excess (A_expand self) (max_tickets self)
             (fun e => ea_ticket_cost e - inject_Z (max_tickets self))).
  rewrite (shortage_B_excess (B_expand self) (max_camp self) (max_new_dollar self)
             (fun e => eb_camp_cost e - inject_Z (max_camp self))).
  rewrite (shortage_B_excess (B_expand self) (max_camp self) (max_new_dollar self)
             (fun e => eb_new_dollar_cost e - inject_Z (max_new_dollar self))).
  reflexivity.
Qed.

Lemma shortage_is_excess_of_last_entry_witness :
  exists data,
    calculate_material_data Data.capped_page = Ok data /\
    update_unavailable_materials Data.capped_page data = (3, 7, 3).
Proof.
  assert (Hrun : exists r, calculate_material_data Data.capped_page = Ok r)
    by (eexists; vm_compute; reflexivity).
  destruct Hrun as [data Hrun]. exists data. split; [exact Hrun|].
  rewrite (shortage_is_excess_of_last_entry Data.capped_page data Hrun). reflexivity.
Defined.

(** X13. Whatever the curves, the spend that the labels show stays within a
    cap that is not negative: the ticket balance and, for each of the two
    camp currencies, the balance of that currency are then numbers that are
    not negative. *)
Theorem spend_stays_within_cap (self : page) (data : material_data) :
  calculate_material_data self = Ok data ->
  (forall spent balance,
     (0 <= max_tickets self)%Z ->
     update_ticket_materials (max_tickets self) data = (spent, balance) ->
     exists rest, balance = Some rest /\ 0 <= rest) /\
  (forall camp dollar camp_balance dollar_balance,
     update_camp_materials (max_camp self) (max_new_dollar self) data
       = (camp, dollar, camp_balance, dollar_balance) ->
     ((0 <= max_camp self)%Z -> exists rest, camp_balance = Some rest /\ 0 <= rest) /\
     ((0 <= max_new_dollar self)%Z -> exists rest, dollar_balance = Some rest /\ 0 <= rest)).
Proof.
  unfold calculate_material_data. intros Hrun.
  destruct (calculate_A_materials _ _ _) as [bA|e] eqn:HA; [|discriminate].
  cbn [mbind result_bind] in Hrun.
  destruct (calculate_B_materials _ _ _ _) as [bB|e] eqn:HB; [|discriminate].
  cbn [mbind result_bind] in Hrun. inversion Hrun; subst data; clear Hrun.
  apply calculate_A_frontier in HA. apply calculate_B_frontier in HB.
  unfold update_ticket_materials, update_camp_materials. cbn [data_A data_B frontier].
  split.
  - intros spent balance Hcap. rewrite HA.
    assert (Hne : (max_tickets self =? -1)%Z = false) by (apply Z.eqb_neq; lia).
    rewrite Hne. destruct (last_accepted _ _) as [e|] eqn:Hla.
    + apply last_accepted_accepts in Hla. destruct Hla as [Hacc _].
      apply accept_A_iff in Hacc. cbn. intros Heq. inversion Heq; subst.
      eexists. split; [reflexivity|]. lra.
    + cbn. intros Heq. inversion Heq; subst. eexists. split; [reflexivity|].
      apply inject_Z_nonneg in Hcap. lra.
  - clear HA. intros camp dollar cb db. rewrite HB. clear HB.
    destruct (match (if (max_camp self =? -1)%Z && (max_new_dollar self =? -1)%Z
                     then last (B_expand self)
                     else last_accepted (accept_B (max_camp self) (max_new_dollar self))
                            (B_expand self)) with
              | Some e => as_frontier_B e
              | None => (None, 0, 0, 0)
              end) as [[[n c] d] g] eqn:Hfront.
    intros Heq. inversion Heq; subst camp dollar cb db; clear Heq.
    assert (Hbound : ((0 <= max_camp self)%Z -> c <= inject_Z (max_camp self)) /\
                     ((0 <= max_new_dollar self)%Z -> d <= inject_Z (max_new_dollar self))).
    { destruct ((max_camp self =? -1)%Z && (max_new_dollar self =? -1)%Z) eqn:Hcaps.
      - apply andb_true_iff in Hcaps. destruct Hcaps as [Hc Hd].
        apply Z.eqb_eq in Hc, Hd. split; intros; lia.
      - destruct (last_accepted (accept_B (max_camp self) (max_new_dollar self))
                    (B_expand self)) as [e|] eqn:Hla.
        + apply last_accepted_accepts in Hla. destruct Hla as [Hacc _].
          apply accept_B_iff in Hacc. destruct Hacc as [Hc Hd].
          unfold as_frontier_B in Hfront. inversion Hfront; subst.
          split; intros Hpos; [destruct Hc as [Hc|Hc]|destruct Hd as [Hd|Hd]];
            solve [lia | assumption].
        + inversion Hfront; subst. split; intros Hpos; apply inject_Z_nonneg; exact Hpos. }
    destruct Hbound as [Hc Hd]. split; intros Hpos.
    + assert (Hne : (max_camp self =? -1)%Z = false) by (apply Z.eqb_neq; lia).
      rewrite Hne. eexists. split; [reflexivity|]. specialize (Hc Hpos). lra.
    + assert (Hne : (max_new_dollar self =? -1)%Z = false) by (apply Z.eqb_neq; lia).
      rewrite Hne. eexists. split; [reflexivity|]. specialize (Hd Hpos). lra.
Qed.

Lemma spend_stays_within_cap_witness :
  exists data,
    calculate_material_data Data.capped_page = Ok data /\
    (forall spent balance,
       (0 <= max_tickets Data.capped_page)%Z ->
       update_ticket_materials (max_tickets Data.capped_page) data = (spent, balance) ->
       exists rest, balance = Some rest /\ 0 <= rest) /\
    (forall camp dollar camp_balance dollar_balance,
       update_camp_materials (max_camp Data.capped_page)
         (max_new_dollar Data.capped_page) data
         = (camp, dollar, camp_balance, dollar_balance) ->
       ((0 <= max_camp Data.capped_page)%Z ->
        exists rest, camp_balance = Some rest /\ 0 <= rest) /\
       ((0 <= max_new_dollar Data.capped_page)%Z ->
        exists rest, dollar_balance = Some rest /\ 0 <= rest)).
Proof.
  assert (Hrun : exists r, calculate_material_data Data.capped_page = Ok r)
    by (eexists; vm_compute; reflexivity).
  destruct Hrun as [data Hrun]. exists data. split; [exact Hrun|].
  apply (spend_stays_within_cap Data.capped_page data Hrun).
Defined.

Lemma nothing_accepted {E : Type} (accept : E -> bool) (curve : list E) :
  Forall (fun e => accept e = false) curve -> List.filter accept curve = [].
Proof.
  induction 1 as [|e curve He _ IH]; [reflexivity|].
  cbn [List.filter]. rewrite He. exact IH.
Qed.

Lemma walk_rejected_keeps_acquired {E F : Type} (accept fallback : E -> bool)
    (name : E -> string) (front : E -> F) (curve : list E) (st st' : buckets F) :
  Forall (fun e => accept e = false) curve ->
  for_each (route accept fallback name front) curve st = Ok st' ->
  acquired st' = acquired st.
Proof.
  intros Hrej. revert st. induction Hrej as [|e curve He _ IH]; intros st Hrun.
  - inversion Hrun. reflexivity.
  - cbn [for_each] in Hrun.
    destruct (route accept fallback name front st e) as [st1|x] eqn:Hstep; [|discriminate].
    cbn [mbind result_bind] in Hrun. rewrite (IH _ Hrun).
    unfold route in Hstep. rewrite He in Hstep.
    destruct (fallback e).
    + destruct (incr _ _); [|discriminate]. inversion Hstep. reflexivity.
    + destruct (incr _ _); [|discriminate]. inversion Hstep. reflexivity.
Qed.

(** X14. When the ticket cap is below the ticket cost of every entry of the
    curve, no unit is acquired for tickets, the ticket spend shown is 0 and
    the balance is the cap, and the ticket channel adds nothing to the gold
    that the purchase label shows: the label is the gold of the camp
    frontier plus the cost of the gold channel. *)
Theorem unaffordable_channel_shows_no_gold (self : page) (data : material_data) :
  calculate_material_data self = Ok data ->
  max_tickets self <> (-1)%Z ->
  Forall (fun e => inject_Z (max_tickets self) < ea_ticket_cost e) (A_expand self) ->
  frontier (data_A data) = (None, 0, 0) /\
  acquired (data_A data) = zero_buckets (map a_material (A self)) /\
  update_ticket_materials (max_tickets self) data
    = (0, Some (inject_Z (max_tickets self) - 0)) /\
  (forall name camp dollar gold,
     frontier (data_B data) = (name, camp, dollar, gold) ->
     update_gold_materials data = 0 + gold + snd (data_C data)).
Proof.
  unfold calculate_material_data. intros Hrun Hcap Hover.
  destruct (calculate_A_materials _ _ _) as [bA|e] eqn:HA; [|discriminate].
  cbn [mbind result_bind] in Hrun.
  destruct (calculate_B_materials _ _ _ _) as [bB|e] eqn:HB; [|discriminate].
  cbn [mbind result_bind] in Hrun. inversion Hrun; subst data; clear Hrun.
  cbn [data_A data_B data_C].
  assert (Hrej : Forall (fun e => accept_A (max_tickets self) e = false) (A_expand self)).
  { eapply Forall_impl; [exact Hover|]. cbn. intros e He.
    destruct (accept_A (max_tickets self) e) eqn:Hacc; [|reflexivity].
    apply accept_A_iff in Hacc. lra. }
  assert (Hne : (max_tickets self =? -1)%Z = false) by (apply Z.eqb_neq; exact Hcap).
  assert (Hfront : frontier bA = (None, 0, 0)).
  { rewrite (calculate_A_frontier _ _ _ _ HA), Hne. unfold last_accepted.
    rewrite (nothing_accepted _ _ Hrej). reflexivity. }
  assert (Hacq : acquired bA = zero_buckets (map a_material (A self))).
  { unfold calculate_A_materials in HA. rewrite Hne in HA.
    apply (walk_rejected_keeps_acquired (accept_A (max_tickets self))
             (fun item => is_set (ea_gold_cost item)) ea_material as_frontier_A
             _ _ _ Hrej) in HA. exact HA. }
  split; [exact Hfront|]. split; [exact Hacq|]. split.
  - unfold update_ticket_materials. cbn [data_A]. rewrite Hfront, Hne. reflexivity.
  - intros name camp dollar gold HfB. unfold update_gold_materials.
    cbn [data_A data_B data_C]. rewrite Hfront, HfB.
    destruct (calculate_C_materials (C self)) as [[C2 C3] temp_C]. reflexivity.
Qed.

Lemma unaffordable_channel_shows_no_gold_witness :
  exists data,
    calculate_material_data Data.short_page = Ok data /\
    frontier (data_A data) = (None, 0, 0) /\
    acquired (data_A data) = zero_buckets (map a_material (A Data.short_page)) /\
    update_ticket_materials (max_tickets Data.short_page) data
      = (0, Some (inject_Z (max_tickets Data.short_page) - 0)) /\
    (forall name camp dollar gold,
       frontier (data_B data) = (name, camp, dollar, gold) ->
       update_gold_materials data = 0 + gold + snd (data_C data)).
Proof.
  assert (Hrun : exists r, calculate_material_data Data.short_page = Ok r)
    by (eexists; vm_compute; reflexivity).
  destruct Hrun as [data Hrun]. exists data. split; [exact Hrun|].
  apply (unaffordable_channel_shows_no_gold Data.short_page data Hrun).
  - discriminate.
  - apply List.Forall_forall. intros e He. vm_compute in He.
    destruct He as [<-|[<-|[]]]; reflexivity.
Defined.

End Labels.

(** ** The surface of the plot *)

Section Plot.
Local Open Scope Q_scope.

Lemma lookup_map {T U : Type} (f : T -> U) (l : list T) (i : nat) :
  map f l !! i = f <$> l !! i.
Proof. change (map f l) with (f <$> l). apply list_lookup_fmap. Qed.

Lemma descending_lookup {T : Type} (key : T -> Q) (l : list T) (i j : nat) (x y : T) :
  descending key l -> (i <= j)%nat -> l !! i = Some x -> l !! j = Some y -> key y <= key x.
Proof.
  intros Hsorted. revert i j. induction Hsorted as [|a l Hl IH Ha]; intros i j Hij Hi Hj.
  - discriminate.
  - destruct i as [|i], j as [|j]; cbn in Hi, Hj.
    + inversion Hi; inversion Hj; subst. lra.
    + inversion Hi; subst. rewrite List.Forall_forall in Ha. apply Ha.
      apply list_elem_of_In. eapply list_elem_of_lookup_2. exact Hj.
    + lia.
    + apply (IH i j); [lia|assumption|assumption].
Qed.

(** X15. The surface that [create_plot_data] builds from the two curves:
    it is empty as soon as one curve is; otherwise the cell of row [i] and
    column [j] holds the ticket cost of the [j]-th ticket entry in [X], the
    camp cost of the [i]-th camp entry in [Y] and the sum of their two
    remaining gold costs in [Z]; for rows with non-negative set prices,
    [Z] does not increase along a row or down a column. *)
Theorem plot_surface_adds_the_two_curves (A : list row_A) (B : list row_B) :
  Forall priced_A A -> Forall priced_B B ->
  (expand_A A = [] \/ expand_B B = [] ->
   fst (fst (create_plot_data (expand_A A) (expand_B B))) = [] /\
   snd (fst (create_plot_data (expand_A A) (expand_B B))) = [] /\
   snd (create_plot_data (expand_A A) (expand_B B)) = []) /\
  (forall i j a b,
     expand_B B !! i = Some b -> expand_A A !! j = Some a ->
     cell (fst (fst (create_plot_data (expand_A A) (expand_B B)))) i j
       = Some (ea_ticket_cost a) /\
     cell (snd (fst (create_plot_data (expand_A A) (expand_B B)))) i j
       = Some (eb_camp_cost b) /\
     cell (snd (create_plot_data (expand_A A) (expand_B B))) i j
       = Some (ea_gold_cost a + eb_gold_cost b)) /\
  (forall i j i' j' z z',
     (i <= i')%nat -> (j <= j')%nat ->
     cell (snd (create_plot_data (expand_A A) (expand_B B))) i j = Some z ->
     cell (snd (create_plot_data (expand_A A) (expand_B B))) i' j' = Some z' ->
     z' <= z).
Proof.
  intros HA HB.
  destruct (expand_A_monotone A HA) as [_ HdA].
  destruct (expand_B_monotone B HB) as (_ & _ & HdB).
  unfold create_plot_data.
  destruct (expand_A A) as [|a0 curveA] eqn:HcA.
  { cbn [fst snd]. split; [auto|]. split; [intros i j a b _ Hj; discriminate|].
    intros i j i' j' z z' _ _ Hz. unfold cell in Hz. rewrite lookup_nil in Hz. discriminate. }
  destruct (expand_B B) as [|b0 curveB] eqn:HcB.
  { cbn [fst snd]. split; [auto|]. split; [intros i j a b Hi; discriminate|].
    intros i j i' j' z z' _ _ Hz. unfold cell in Hz. rewrite lookup_nil in Hz. discriminate. }
  cbn [fst snd].
  set (cA := a0 :: curveA) in *. set (cB := b0 :: curveB) in *.
  assert (Hcell : forall i j a b, cB !! i = Some b -> cA !! j = Some a ->
            cell (map (fun b => map (fun a => a + b) (map ea_gold_cost cA))
                    (map eb_gold_cost cB)) i j = Some (ea_gold_cost a + eb_gold_cost b)).
  { intros i j a b Hi Hj. unfold cell.
    rewrite !lookup_map, Hi. cbn [fmap option_fmap option_map mbind option_bind].
    rewrite !lookup_map, Hj. reflexivity. }
  split; [intros [H|H]; discriminate|]. split.
  - intros i j a b Hi Hj. split; [|split].
    + unfold cell. rewrite !lookup_map, Hi.
      cbn [fmap option_fmap option_map mbind option_bind].
      rewrite lookup_map, Hj. reflexivity.
    + unfold cell. rewrite !lookup_map, Hi.
      cbn [fmap option_fmap option_map mbind option_bind].
      rewrite !lookup_map, Hj. reflexivity.
    + apply Hcell; assumption.
  - intros i j i' j' z z' Hi Hj Hz Hz'.
    assert (Hinv : forall i j z,
              cell (map (fun b => map (fun a => a + b) (map ea_gold_cost cA))
                      (map eb_gold_cost cB)) i j = Some z ->
              exists a b, cB !! i = Some b /\ cA !! j = Some a).
    { clear. intros i j z Hz. unfold cell in Hz. rewrite !lookup_map in Hz.
      destruct (cB !! i) as [b|]; [|discriminate].
      cbn [fmap option_fmap option_map mbind option_bind] in Hz.
      rewrite !lookup_map in Hz.
      destruct (cA !! j) as [a|]; [|discriminate]. eauto. }
    destruct (Hinv _ _ _ Hz) as (a & b & Hb & Ha).
    destruct (Hinv _ _ _ Hz') as (a' & b' & Hb' & Ha').
    rewrite (Hcell _ _ _ _ Hb Ha) in Hz. rewrite (Hcell _ _ _ _ Hb' Ha') in Hz'.
    inversion Hz; inversion Hz'; subst.
    pose proof (descending_lookup ea_gold_cost cA j j' a a' HdA Hj Ha Ha').
    pose proof (descending_lookup eb_gold_cost cB i i' b b' HdB Hi Hb Hb').
    lra.
Qed.

Lemma plot_surface_adds_the_two_curves_witness :
  (expand_A [Data.ticket_row "Ore" 2 5 8] = [] \/
   expand_B [Data.camp_row "Hemp" 2 3 4 6] = [] ->
   fst (fst (create_plot_data (expand_A [Data.ticket_row "Ore" 2 5 8])
               (expand_B [Data.camp_row "Hemp" 2 3 4 6]))) = [] /\
   snd (fst (create_plot_data (expand_A [Data.ticket_row "Ore" 2 5 8])
               (expand_B [Data.camp_row "Hemp" 2 3 4 6]))) = [] /\
   snd (create_plot_data (expand_A [Data.ticket_row "Ore" 2 5 8])
          (expand_B [Data.camp_row "Hemp" 2 3 4 6])) = []) /\
  (forall i j a b,
     expand_B [Data.camp_row "Hemp" 2 3 4 6] !! i = Some b ->
     expand_A [Data.ticket_row "Ore" 2 5 8] !! j = Some a ->
     cell (fst (fst (create_plot_data (expand_A [Data.ticket_row "Ore" 2 5 8])
                       (expand_B [Data.camp_row "Hemp" 2 3 4 6])))) i j
       = Some (ea_ticket_cost a) /\
     cell (snd (fst (create_plot_data (expand_A [Data.ticket_row "Ore" 2 5 8])
                       (expand_B [Data.camp_row "Hemp" 2 3 4 6])))) i j
       = Some (eb_camp_cost b) /\
     cell (snd (create_plot_data (expand_A [Data.ticket_row "Ore" 2 5 8])
                  (expand_B [Data.camp_row "Hemp" 2 3 4 6]))) i j
       = Some (ea_gold_cost a + eb_gold_cost b)) /\
  (forall i j i' j' z z',
     (i <= i')%nat -> (j <= j')%nat ->
     cell (snd (create_plot_data (expand_A [Data.ticket_row "Ore" 2 5 8])
                  (expand_B [Data.camp_row "Hemp" 2 3 4 6]))) i j = Some z ->
     cell (snd (create_plot_data (expand_A [Data.ticket_row "Ore" 2 5 8])
                  (expand_B [Data.camp_row "Hemp" 2 3 4 6]))) i' j' = Some z' ->
     z' <= z).
Proof.
  apply (plot_surface_adds_the_two_curves [Data.ticket_row "Ore" 2 5 8]
           [Data.camp_row "Hemp" 2 3 4 6]).
  - constructor; [|constructor]. split.
    + unfold Qle. simpl. lia.
    + intros _. unfold Qle. simpl. lia.
  - constructor; [|constructor]. split; [|split].
    + unfold Qle. simpl. lia.
    + unfold Qle. simpl. lia.
    + intros _. unfold Qle. simpl. lia.
Defined.

End Plot.

(** ** The running totals of a curve *)

Section RunningTotals.
Local Open Scope Q_scope.

Lemma ticket_costs_running (A : list row_A) :
  map ea_ticket_cost (expand_A A) =
  running Qplus 0 (map a_ticket_price (unit_rows a_quantity A)).
Proof. rewrite expand_A_curve. apply curve_from_tickets. Qed.

Lemma costs_running_via (c : currency) (B : list row_B) :
  map (entry_cost c) (expand_B B) =
  running Qplus 0 (map (row_price c) (unit_rows b_quantity B)).
Proof.
  transitivity (map ea_ticket_cost (map (entry_via c) (expand_B B))).
  - rewrite map_map. reflexivity.
  - rewrite expand_B_via, ticket_costs_running, unit_rows_via, map_map. reflexivity.
Qed.

Lemma unit_rows_length {T : Type} (quantity : T -> Q) (rows : list T) :
  length (unit_rows quantity rows) = list_sum (map (fun m => units (quantity m)) rows).
Proof.
  unfold unit_rows. induction rows as [|m rows IH]; [reflexivity|].
  cbn [flat_map map list_sum]. rewrite length_app, length_replicate, IH. reflexivity.
Qed.

Lemma running_length {X : Type} (f : Q -> X -> Q) (start : Q) (l : list X) :
  length (running f start l) = length l.
Proof.
  revert start. induction l as [|x l IH]; intros start; [reflexivity|].
  cbn [running length]. rewrite IH. reflexivity.
Qed.

(** X16. A curve has one entry per unit of rounded demand, and its
    cumulative costs are the running totals of the prices of these units in
    the order of the curve: the ticket cost of an entry of [expand_A] is
    that of the entry before it (0 before the first) plus the ticket price
    of its row; likewise the camp contribution and the new dollars of an
    entry of [expand_B]. *)
Theorem curve_costs_are_running_totals (A : list row_A) (B : list row_B) :
  map ea_ticket_cost (expand_A A) =
    running Qplus 0 (map a_ticket_price (unit_rows a_quantity A)) /\
  map eb_camp_cost (expand_B B) =
    running Qplus 0 (map b_camp_price (unit_rows b_quantity B)) /\
  map eb_new_dollar_cost (expand_B B) =
    running Qplus 0 (map b_new_dollar_price (unit_rows b_quantity B)) /\
  length (expand_A A) = list_sum (map (fun m => units (a_quantity m)) A) /\
  length (expand_B B) = list_sum (map (fun m => units (b_quantity m)) B).
Proof.
  split; [apply ticket_costs_running|].
  split; [apply (costs_running_via Camp)|].
  split; [apply (costs_running_via Dollar)|].
  split.
  - rewrite <- (length_map ea_ticket_cost), ticket_costs_running, running_length, length_map.
    apply unit_rows_length.
  - rewrite <- (length_map (entry_cost Camp)), (costs_running_via Camp B), running_length,
      length_map.
    apply unit_rows_length.
Qed.

End RunningTotals.

(** ** The leaves of a tree *)

Section TreeLeaves.
Local Open Scope Q_scope.

Variable dm : DataManager.t.

Lemma leaf_demand_unfold (k : string) (t : tree_node) :
  leaf_demand k t =
  if node_is_recipe t then
    fold_left (fun held c => add_demand held (leaf_demand k c)) (node_children t) None
  else if String.eqb (node_name t) k then Some (node_quantity t) else None.
Proof.
  destruct t as [name quantity level is_recipe children price total unit].
  cbn [leaf_demand node_is_recipe node_children node_name node_quantity].
  destruct is_recipe; [|reflexivity].
  generalize (@None Q). induction children as [|c children IH]; intros held; [reflexivity|].
  cbn [fold_left]. apply IH.
Qed.

Lemma tree_leaves_demand (k : string) (depth : nat) :
  forall name quantity level node,
    get_recipe_tree depth dm name quantity level = Ok node ->
    path_demand depth dm k name quantity = Ok (leaf_demand k node).
Proof.
  induction depth as [|depth IH]; intros name quantity level node Hrun; [discriminate|].
  rewrite get_recipe_tree_unfold in Hrun. rewrite path_demand_unfold.
  destruct (recipes dm !! name) as [recipe|] eqn:Hrecipe.
  - destruct (for_each _ _ _) as [[children total]|e] eqn:Hloop; [|discriminate].
    cbn [mbind result_bind] in Hrun.
    destruct (div total quantity) as [unit|e]; [|discriminate].
    cbn [mbind result_bind] in Hrun. inversion Hrun; subst node; clear Hrun.
    rewrite leaf_demand_unfold. cbn [node_is_recipe node_children].
    assert (Hgen : forall l children0 total0 children total,
              for_each (child_step (get_recipe_tree depth dm) recipe quantity level) l
                (children0, total0) = Ok (children, total) ->
              for_each (demand_step (path_demand depth dm k) recipe quantity) l
                (fold_left (fun held c => add_demand held (leaf_demand k c)) children0 None)
              = Ok (fold_left (fun held c => add_demand held (leaf_demand k c))
                      children None)).
    { clear Hloop children total unit. induction l as [|m l IHl];
        intros children0 total0 children total Hloop.
      - cbn in Hloop. inversion Hloop; subst. reflexivity.
      - cbn [for_each] in Hloop.
        destruct (child_step _ _ _ _ _ m) as [[children1 total1]|e] eqn:Hstep; [|discriminate].
        cbn [mbind result_bind] in Hloop.
        apply child_step_ok_inv in Hstep. destruct Hstep as (child & Hchild & Hr & Hacc).
        cbn [fst snd] in Hacc. inversion Hacc; subst children1 total1; clear Hacc.
        cbn [for_each].
        assert (Hstep : demand_step (path_demand depth dm k) recipe quantity
                          (fold_left (fun held c => add_demand held (leaf_demand k c))
                             children0 None) m
                        = Ok (fold_left (fun held c => add_demand held (leaf_demand k c))
                                (children0 ++ [child]) None)).
        { unfold demand_step. rewrite (div_nonzero _ _ Hr). cbn [mbind result_bind].
          rewrite (IH _ _ _ _ Hchild). cbn [mbind result_bind].
          rewrite fold_left_app. reflexivity. }
        rewrite Hstep. cbn [mbind result_bind].
        apply (IHl _ _ _ _ Hloop). }
    apply (Hgen (r_materials recipe) [] 0 children total Hloop).
  - destruct (items dm !! name) as [item|] eqn:Hitem; [|discriminate].
    destruct (get_item_price dm name) as [p|e] eqn:Hprice; [|discriminate].
    cbn [mbind result_bind] in Hrun. inversion Hrun; subst node; clear Hrun.
    rewrite leaf_demand_unfold. reflexivity.
Qed.

Lemma base_materials_of_tree (depth : nat) (name : string) (quantity : Q) (level : Z)
    (node : tree_node) :
  get_recipe_tree depth dm name quantity level = Ok node ->
  exists d,
    get_base_materials depth dm name quantity = Ok d /\
    forall k, dict_get d k = leaf_demand k node.
Proof.
  intros Hrun.
  assert (Hheld : forall k, held_for k (get_base_materials depth dm name quantity)
                            = Ok (leaf_demand k node)).
  { intros k. rewrite held_for_base_materials. apply (tree_leaves_demand k _ _ _ _ _ Hrun). }
  destruct (get_base_materials depth dm name quantity) as [d|e].
  - exists d. split; [reflexivity|]. intros k. specialize (Hheld k).
    cbn [held_for mbind result_bind] in Hheld. injection Hheld as ->. reflexivity.
  - specialize (Hheld ""%string). discriminate Hheld.
Qed.

End TreeLeaves.

Section TreeLeavesProperties.
Local Open Scope Q_scope.

(** X17. The two pages agree on what a product is made of: whenever
    [get_recipe_tree] returns a tree, [get_base_materials] returns, at the
    same stack depth, the base materials of the same item and quantity, and
    what they hold for a material is the sum of the quantities of the
    leaves of the tree with that name, added child by child in the order of
    the tree; a material that is no leaf of the tree is absent. *)
Theorem base_materials_are_the_leaves_of_the_tree (dm : DataManager.t) (depth : nat)
    (name : string) (quantity : Q) (level : Z) (node : tree_node) :
  get_recipe_tree depth dm name quantity level = Ok node ->
  exists d,
    get_base_materials depth dm name quantity = Ok d /\
    forall k, dict_get d k = leaf_demand k node.
Proof. apply base_materials_of_tree. Qed.

Lemma base_materials_are_the_leaves_of_the_tree_witness :
  exists node d,
    get_recipe_tree 3 Data.frame_catalog "Frame" 1 0 = Ok node /\
    get_base_materials 3 Data.frame_catalog "Frame" 1 = Ok d /\
    (forall k, dict_get d k = leaf_demand k node) /\
    leaf_demand "Wood" node = Some (1 * 1 / 1 + 3 * (2 * 1 / 1) / 2) /\
    leaf_demand "Plank" node = None.
Proof.
  assert (Hrun : exists r, get_recipe_tree 3 Data.frame_catalog "Frame" 1 0 = Ok r)
    by (eexists; vm_compute; reflexivity).
  destruct Hrun as [node Hrun].
  destruct (base_materials_are_the_leaves_of_the_tree Data.frame_catalog 3 "Frame" 1 0 node
              Hrun) as (d & Hd & Hleaves).
  exists node, d. split; [exact Hrun|]. split; [exact Hd|]. split; [exact Hleaves|].
  assert (Hnode : Ok node = get_recipe_tree 3 Data.frame_catalog "Frame" 1 0)
    by (symmetry; exact Hrun).
  vm_compute in Hnode. injection Hnode as ->. split; reflexivity.
Defined.

End TreeLeavesProperties.

(** ** The dialogs *)

Section Dialogs.
Local Open Scope Q_scope.

Lemma read_valid (f : AddItemDialog.form) (d : item_data) :
  AddItemDialog.read f = Some d ->
  AddItemDialog.name_entry f <> ""%string /\ category d <> ""%string /\
  (1 <= level d <= 14)%Z /\ (1 <= quality d <= 5)%Z /\
  category d = AddItemDialog.category_combobox f /\
  (AddItemDialog.use_gold_price_var f = false -> price d = -1 # 1) /\
  (AddItemDialog.use_ticket_price_var f = false -> ticket_price d = -1 # 1) /\
  (AddItemDialog.use_camp_price_var f = false ->
     camp_contribution d = -1 # 1 /\ new_dollar d = -1 # 1).
Proof.
  unfold AddItemDialog.read. intros Hread.
  destruct (if AddItemDialog.use_gold_price_var f then _ else _) as [p|] eqn:Hp;
    [|discriminate].
  cbn [mbind option_bind] in Hread.
  destruct (AddItemDialog.level_combobox f) as [lv|]; [|discriminate].
  cbn [mbind option_bind] in Hread.
  destruct (AddItemDialog.quality_combobox f) as [ql|]; [|discriminate].
  cbn [mbind option_bind] in Hread.
  destruct (if AddItemDialog.use_ticket_price_var f then _ else _) as [tp|] eqn:Ht;
    [|discriminate].
  cbn [mbind option_bind] in Hread.
  destruct (if AddItemDialog.use_camp_price_var f then _ else _) as [[cc nd]|] eqn:Hc;
    [|discriminate].
  cbn [mbind option_bind] in Hread.
  destruct (_ || _) eqn:Hcheck; [discriminate|].
  inversion Hread; subst d; clear Hread. cbn.
  apply orb_false_iff in Hcheck. destruct Hcheck as [Hcheck Hq].
  apply orb_false_iff in Hcheck. destruct Hcheck as [Hcheck Hl].
  apply orb_false_iff in Hcheck. destruct Hcheck as [Hn Hcat].
  apply String.eqb_neq in Hn, Hcat.
  apply negb_false_iff, andb_true_iff in Hq, Hl.
  destruct Hq as [Hq1 Hq2], Hl as [Hl1 Hl2].
  apply Z.leb_le in Hq1, Hl1. apply Z.ltb_lt in Hq2, Hl2.
  split; [exact Hn|]. split; [exact Hcat|]. split; [lia|]. split; [lia|].
  split; [reflexivity|]. split; [|split].
  - intros Hoff. rewrite Hoff in Hp. inversion Hp. reflexivity.
  - intros Hoff. rewrite Hoff in Ht. inversion Ht. reflexivity.
  - intros Hoff. rewrite Hoff in Hc. inversion Hc. split; reflexivity.
Qed.

Lemma item_data_eta (d : item_data) :
  new_item (price d) (category d) (level d) (quality d) (Some (ticket_price d))
    (Some (camp_contribution d)) (Some (new_dollar d)) = d.
Proof. destruct d. reflexivity. Qed.

(** X19. What [add_or_update_item] stores when it adds an item: the name of
    the form, which is not empty, with a category that is not empty, a
    level from 1 to 14 and a quality from 1 to 5; the price of every
    channel whose box is not ticked is the sentinel [-1]; the recipes and
    the other items are unchanged. *)
Theorem new_item_is_stored_within_ranges (data_manager data_manager' : DataManager.t)
    (f : AddItemDialog.form) (result : string) :
  AddItemDialog.add_or_update_item data_manager None f
    = AddItemDialog.Saved data_manager' result ->
  result = AddItemDialog.name_entry f /\ result <> ""%string /\
  recipes data_manager' = recipes data_manager /\
  (forall other, other <> result -> items data_manager' !! other = items data_manager !! other) /\
  exists d,
    items data_manager' !! result = Some d /\
    category d <> ""%string /\ (1 <= level d <= 14)%Z /\ (1 <= quality d <= 5)%Z /\
    (AddItemDialog.use_gold_price_var f = false -> price d = -1 # 1) /\
    (AddItemDialog.use_ticket_price_var f = false -> ticket_price d = -1 # 1) /\
    (AddItemDialog.use_camp_price_var f = false ->
       camp_contribution d = -1 # 1 /\ new_dollar d = -1 # 1).
Proof.
  unfold AddItemDialog.add_or_update_item. intros Hrun.
  destruct (AddItemDialog.read f) as [d|] eqn:Hread; [|discriminate].
  inversion Hrun; subst data_manager' result; clear Hrun.
  destruct (read_valid f d Hread) as (Hn & Hcat & Hl & Hq & _ & Hg & Ht & Hc).
  split; [reflexivity|]. split; [exact Hn|]. split; [reflexivity|]. split.
  { intros other Hother. unfold add_item. cbn. rewrite lookup_insert_ne by congruence.
    reflexivity. }
  exists d. split.
  { unfold add_item. cbn. rewrite lookup_insert_eq, item_data_eta. reflexivity. }
  split; [exact Hcat|]. split; [exact Hl|]. split; [exact Hq|].
  split; [exact Hg|]. split; [exact Ht|exact Hc].
Qed.

Lemma new_item_is_stored_within_ranges_witness :
  exists data_manager',
    AddItemDialog.add_or_update_item Data.plank_catalog None (Data.ore_form "Ore")
      = AddItemDialog.Saved data_manager' "Ore" /\
    "Ore"%string = AddItemDialog.name_entry (Data.ore_form "Ore") /\
    "Ore"%string <> ""%string /\
    recipes data_manager' = recipes Data.plank_catalog /\
    (forall other, other <> "Ore"%string ->
       items data_manager' !! other = items Data.plank_catalog !! other) /\
    exists d,
      items data_manager' !! "Ore"%string = Some d /\
      category d <> ""%string /\ (1 <= level d <= 14)%Z /\ (1 <= quality d <= 5)%Z /\
      (AddItemDialog.use_gold_price_var (Data.ore_form "Ore") = false ->
       price d = -1 # 1) /\
      (AddItemDialog.use_ticket_price_var (Data.ore_form "Ore") = false ->
       ticket_price d = -1 # 1) /\
      (AddItemDialog.use_camp_price_var (Data.ore_form "Ore") = false ->
       camp_contribution d = -1 # 1 /\ new_dollar d = -1 # 1).
Proof.
  eexists. split; [reflexivity|].
  apply (new_item_is_stored_within_ranges Data.plank_catalog _ (Data.ore_form "Ore") "Ore").
  reflexivity.
Defined.

(** X20. In the edit dialog, a changed name makes [add_or_update_item]
    delete the item first and update the new name afterwards: when the
    catalog holds no item of the new name, the item is gone and the
    [KeyError] of [update_item] leaves the handler; when it holds one, that
    item is overwritten and the edited one is gone. *)
Theorem renaming_an_item_deletes_it_first (data_manager : DataManager.t)
    (old : string) (f : AddItemDialog.form) (d : item_data) :
  AddItemDialog.read f = Some d ->
  old <> ""%string -> AddItemDialog.name_entry f <> old ->
  is_Some (items data_manager !! old) ->
  (items data_manager !! AddItemDialog.name_entry f = None ->
   AddItemDialog.add_or_update_item data_manager (Some old) f =
   AddItemDialog.Uncaught (with_items data_manager (delete old (items data_manager)))
     (item_not_found (AddItemDialog.name_entry f))) /\
  (is_Some (items data_manager !! AddItemDialog.name_entry f) ->
   AddItemDialog.add_or_update_item data_manager (Some old) f =
   AddItemDialog.Saved
     (with_items data_manager
        (<[AddItemDialog.name_entry f := d]> (delete old (items data_manager))))
     (AddItemDialog.name_entry f)).
Proof.
  intros Hread Hold Hname [item Hitem].
  unfold AddItemDialog.add_or_update_item. rewrite Hread.
  apply String.eqb_neq in Hold. rewrite Hold.
  assert (Hne : String.eqb (AddItemDialog.name_entry f) old = false)
    by (apply String.eqb_neq; exact Hname).
  rewrite Hne. cbn [negb]. unfold delete_item. rewrite Hitem.
  unfold update_item. cbn [items with_items].
  rewrite lookup_delete_ne by congruence. split.
  - intros Hfresh. rewrite Hfresh. reflexivity.
  - intros [item' Hitem']. rewrite Hitem', item_data_eta. reflexivity.
Qed.

Lemma renaming_an_item_deletes_it_first_witness :
  (items Data.plank_catalog !! AddItemDialog.name_entry (Data.ore_form "Timber") = None ->
   AddItemDialog.add_or_update_item Data.plank_catalog (Some "Wood"%string)
     (Data.ore_form "Timber") =
   AddItemDialog.Uncaught
     (with_items Data.plank_catalog (delete "Wood"%string (items Data.plank_catalog)))
     (item_not_found (AddItemDialog.name_entry (Data.ore_form "Timber")))) /\
  (is_Some (items Data.plank_catalog !! AddItemDialog.name_entry (Data.ore_form "Timber")) ->
   AddItemDialog.add_or_update_item Data.plank_catalog (Some "Wood"%string)
     (Data.ore_form "Timber") =
   AddItemDialog.Saved
     (with_items Data.plank_catalog
        (<[AddItemDialog.name_entry (Data.ore_form "Timber") :=
             {| price := 9; category := "矿物"; level := 3; quality := 2;
                ticket_price := -1 # 1; camp_contribution := -1 # 1;
                new_dollar := -1 # 1 |}]>
           (delete "Wood"%string (items Data.plank_catalog))))
     (AddItemDialog.name_entry (Data.ore_form "Timber"))).
Proof.
  apply (renaming_an_item_deletes_it_first Data.plank_catalog "Wood" (Data.ore_form "Timber")).
  - reflexivity.
  - discriminate.
  - discriminate.
  - eexists. reflexivity.
Defined.

Lemma read_materials_valid (entries : list RecipeDialog.material_entry) :
  Forall (fun m => m_name m <> ""%string /\ 0 < m_quantity m /\
                   exists entry, In entry entries /\
                                 m_name m = RecipeDialog.var entry /\
                                 m_quantity m = inject_Z (RecipeDialog.quantity_var entry))
         (RecipeDialog.read_materials entries).
Proof.
  apply List.Forall_forall. intros m Hm.
  apply list_elem_of_In, list_elem_of_omap in Hm. destruct Hm as (entry & Hentry & Hsome).
  destruct (negb (String.eqb (RecipeDialog.var entry) "")
            && (0 <? RecipeDialog.quantity_var entry)%Z) eqn:Hcheck; [|discriminate].
  inversion Hsome; subst m; clear Hsome. cbn.
  apply andb_true_iff in Hcheck. destruct Hcheck as [Hn Hq].
  apply negb_true_iff, String.eqb_neq in Hn. apply Z.ltb_lt in Hq.
  split; [exact Hn|]. split.
  - change 0 with (inject_Z 0). rewrite <- Zlt_Qlt. exact Hq.
  - exists entry. split; [apply list_elem_of_In; exact Hentry|]. split; reflexivity.
Qed.

Lemma read_materials_In (entries : list RecipeDialog.material_entry)
    (entry : RecipeDialog.material_entry) :
  In entry entries -> RecipeDialog.var entry <> ""%string ->
  (0 < RecipeDialog.quantity_var entry)%Z ->
  In {| m_name := RecipeDialog.var entry;
        m_quantity := inject_Z (RecipeDialog.quantity_var entry) |}
     (RecipeDialog.read_materials entries).
Proof.
  intros Hin Hn Hq. apply list_elem_of_In, list_elem_of_omap. exists entry.
  split; [apply list_elem_of_In; exact Hin|].
  apply String.eqb_neq in Hn. apply Z.ltb_lt in Hq. rewrite Hn, Hq. reflexivity.
Qed.

(** X21. What [save_recipe] stores, in either mode: a recipe under the name
    of the form, which is not empty, with a positive output quantity, a
    crafting level from 1 to 150 and at least one material, every material
    having a name that is not empty and a positive quantity; the items are
    unchanged. *)
Theorem saved_recipe_has_positive_quantities (data_manager data_manager' : DataManager.t)
    (m : RecipeDialog.mode) (f : RecipeDialog.form) (result : string) :
  RecipeDialog.save_recipe data_manager m f = RecipeDialog.Saved data_manager' result ->
  result = RecipeDialog.name_var f /\ result <> ""%string /\
  items data_manager' = items data_manager /\
  exists r,
    recipes data_manager' !! result = Some r /\
    0 < r_quantity r /\ (1 <= r_crafting_level r <= 150)%Z /\
    r_materials r <> [] /\
    Forall (fun m => m_name m <> ""%string /\ 0 < m_quantity m) (r_materials r).
Proof.
  unfold RecipeDialog.save_recipe. intros Hrun.
  destruct (String.eqb (RecipeDialog.name_var f) "") eqn:Hn; [discriminate|].
  apply String.eqb_neq in Hn.
  pose proof (read_materials_valid (RecipeDialog.material_entries f)) as Hmat.
  destruct (RecipeDialog.read_materials (RecipeDialog.material_entries f))
    as [|m0 ms] eqn:Hms; [discriminate|].
  destruct (_ || _) eqn:Hcheck; [discriminate|].
  apply orb_false_iff in Hcheck. destruct Hcheck as [Hcheck Hhi].
  apply orb_false_iff in Hcheck. destruct Hcheck as [Hpq Hlo].
  apply Z.leb_gt in Hpq. apply Z.ltb_ge in Hlo, Hhi.
  assert (Hpos : 0 < inject_Z (RecipeDialog.product_quantity_var f)).
  { change 0 with (inject_Z 0). rewrite <- Zlt_Qlt. exact Hpq. }
  assert (Hmat' : Forall (fun m => m_name m <> ""%string /\ 0 < m_quantity m) (m0 :: ms)).
  { eapply Forall_impl; [exact Hmat|]. cbn. intros x (H1 & H2 & _). split; assumption. }
  set (r := new_recipe (m0 :: ms) (inject_Z (RecipeDialog.product_quantity_var f))
              (RecipeDialog.crafting_level_var f) (RecipeDialog.recipe_type_var f)
              (RecipeDialog.is_exclusive_var f)).
  assert (Hr : 0 < r_quantity r /\ (1 <= r_crafting_level r <= 150)%Z /\
               r_materials r <> [] /\
               Forall (fun m => m_name m <> ""%string /\ 0 < m_quantity m) (r_materials r)).
  { subst r. cbn. repeat split; try assumption; try lia. discriminate. }
  destruct m as [|recipe_name].
  - inversion Hrun; subst data_manager' result; clear Hrun.
    split; [reflexivity|]. split; [exact Hn|]. split; [reflexivity|].
    exists r. split; [|exact Hr]. unfold add_recipe. cbn. apply lookup_insert_eq.
  - unfold update_recipe in Hrun.
    destruct (recipes data_manager !! RecipeDialog.name_var f) as [r0|] eqn:Hr0;
      [|discriminate].
    destruct (negb (String.eqb (RecipeDialog.name_var f) recipe_name)) eqn:Hren.
    + unfold delete_recipe in Hrun. cbn [recipes with_recipes] in Hrun.
      destruct (<[RecipeDialog.name_var f := _]> (recipes data_manager) !! recipe_name)
        as [r1|]; [|discriminate].
      inversion Hrun; subst data_manager' result; clear Hrun.
      split; [reflexivity|]. split; [exact Hn|]. split; [reflexivity|].
      exists r. split; [|exact Hr]. cbn.
      apply negb_true_iff, String.eqb_neq in Hren.
      rewrite lookup_delete_ne by congruence. apply lookup_insert_eq.
    + inversion Hrun; subst data_manager' result; clear Hrun.
      split; [reflexivity|]. split; [exact Hn|]. split; [reflexivity|].
      exists r. split; [|exact Hr]. cbn. apply lookup_insert_eq.
Qed.

Lemma saved_recipe_has_positive_quantities_witness :
  exists data_manager',
    RecipeDialog.save_recipe Data.plank_catalog RecipeDialog.New
      (Data.recipe_form "Beam" "Plank") = RecipeDialog.Saved data_manager' "Beam" /\
    "Beam"%string = RecipeDialog.name_var (Data.recipe_form "Beam" "Plank") /\
    "Beam"%string <> ""%string /\
    items data_manager' = items Data.plank_catalog /\
    exists r,
      recipes data_manager' !! "Beam"%string = Some r /\
      0 < r_quantity r /\ (1 <= r_crafting_level r <= 150)%Z /\
      r_materials r <> [] /\
      Forall (fun m => m_name m <> ""%string /\ 0 < m_quantity m) (r_materials r).
Proof.
  eexists. split; [reflexivity|].
  apply (saved_recipe_has_positive_quantities Data.plank_catalog _ RecipeDialog.New
           (Data.recipe_form "Beam" "Plank") "Beam").
  reflexivity.
Defined.

(** X22. [save_recipe] does not look at what the materials are: a form
    that lists the product itself among its materials is saved, and from
    then on [get_recipe_tree] returns no tree for that product, at any
    stack depth, quantity or level. *)
Theorem recipe_dialog_accepts_self_reference (data_manager : DataManager.t)
    (f : RecipeDialog.form) (entry : RecipeDialog.material_entry) :
  RecipeDialog.name_var f <> ""%string ->
  In entry (RecipeDialog.material_entries f) ->
  RecipeDialog.var entry = RecipeDialog.name_var f ->
  (0 < RecipeDialog.quantity_var entry)%Z ->
  (0 < RecipeDialog.product_quantity_var f)%Z ->
  (1 <= RecipeDialog.crafting_level_var f <= 150)%Z ->
  exists data_manager',
    RecipeDialog.save_recipe data_manager RecipeDialog.New f
      = RecipeDialog.Saved data_manager' (RecipeDialog.name_var f) /\
    uses data_manager' (RecipeDialog.name_var f) (RecipeDialog.name_var f) /\
    forall depth quantity level node,
      get_recipe_tree depth data_manager' (RecipeDialog.name_var f) quantity level
        <> Ok node.
Proof.
  intros Hn Hin Hvar Hq Hpq Hlevel.
  pose proof (read_materials_In _ entry Hin (eq_ind_r (fun s => s <> ""%string) Hn Hvar) Hq)
    as Hmat.
  unfold RecipeDialog.save_recipe.
  apply String.eqb_neq in Hn. rewrite Hn.
  destruct (RecipeDialog.read_materials (RecipeDialog.material_entries f))
    as [|m0 ms] eqn:Hms; [destruct Hmat|].
  assert (Hcheck : (RecipeDialog.product_quantity_var f <=? 0)%Z
                   || (RecipeDialog.crafting_level_var f <? 1)%Z
                   || (150 <? RecipeDialog.crafting_level_var f)%Z = false).
  { apply orb_false_iff. split; [apply orb_false_iff; split|].
    - apply Z.leb_gt. lia.
    - apply Z.ltb_ge. lia.
    - apply Z.ltb_ge. lia. }
  rewrite Hcheck. eexists. split; [reflexivity|].
  assert (Huses : uses
            (add_recipe data_manager (RecipeDialog.name_var f) (m0 :: ms)
               (inject_Z (RecipeDialog.product_quantity_var f))
               (RecipeDialog.crafting_level_var f) (RecipeDialog.recipe_type_var f)
               (RecipeDialog.is_exclusive_var f))
            (RecipeDialog.name_var f) (RecipeDialog.name_var f)).
  { eexists. split; [unfold add_recipe; cbn; apply lookup_insert_eq|].
    cbn [r_materials new_recipe]. apply in_map_iff.
    eexists. split; [|exact Hmat]. cbn. exact Hvar. }
  split; [exact Huses|].
  intros depth quantity level node Hrun.
  apply (cycle_returns_no_tree _ (RecipeDialog.name_var f) (tc_once _ _ _ Huses) depth).
  exists quantity, level, node. exact Hrun.
Qed.

Lemma recipe_dialog_accepts_self_reference_witness :
  exists data_manager',
    RecipeDialog.save_recipe Data.plank_catalog RecipeDialog.New
      (Data.recipe_form "Loop" "Loop")
      = RecipeDialog.Saved data_manager'
          (RecipeDialog.name_var (Data.recipe_form "Loop" "Loop")) /\
    uses data_manager' (RecipeDialog.name_var (Data.recipe_form "Loop" "Loop"))
         (RecipeDialog.name_var (Data.recipe_form "Loop" "Loop")) /\
    forall depth quantity level node,
      get_recipe_tree depth data_manager'
        (RecipeDialog.name_var (Data.recipe_form "Loop" "Loop")) quantity level
        <> Ok node.
Proof.
  apply (recipe_dialog_accepts_self_reference Data.plank_catalog
           (Data.recipe_form "Loop" "Loop")
           {| RecipeDialog.button_index := 0; RecipeDialog.var := "Loop";
              RecipeDialog.quantity_var := 2 |}).
  - discriminate.
  - left. reflexivity.
  - reflexivity.
  - reflexivity.
  - reflexivity.
  - cbn. lia.
Defined.

(** X23. In the edit dialog, a recipe cannot take a name that no recipe
    has: [update_recipe] raises [KeyError] before anything is stored, the
    error is shown and the catalog is unchanged.  Under the name of another
    recipe, that recipe is overwritten and the edited one is deleted. *)
Theorem recipe_cannot_take_a_new_name (data_manager : DataManager.t)
    (recipe_name : string) (f : RecipeDialog.form) (m0 : material) (ms : list material) :
  RecipeDialog.name_var f <> ""%string ->
  RecipeDialog.read_materials (RecipeDialog.material_entries f) = m0 :: ms ->
  (0 < RecipeDialog.product_quantity_var f)%Z ->
  (1 <= RecipeDialog.crafting_level_var f <= 150)%Z ->
  RecipeDialog.name_var f <> recipe_name ->
  is_Some (recipes data_manager !! recipe_name) ->
  (recipes data_manager !! RecipeDialog.name_var f = None ->
   RecipeDialog.save_recipe data_manager (RecipeDialog.Edit recipe_name) f =
   RecipeDialog.Failed data_manager (recipe_not_found (RecipeDialog.name_var f))) /\
  (is_Some (recipes data_manager !! RecipeDialog.name_var f) ->
   exists data_manager',
     RecipeDialog.save_recipe data_manager (RecipeDialog.Edit recipe_name) f =
     RecipeDialog.Saved data_manager' (RecipeDialog.name_var f) /\
     recipes data_manager' !! recipe_name = None /\
     recipes data_manager' !! RecipeDialog.name_var f =
     Some (new_recipe (m0 :: ms) (inject_Z (RecipeDialog.product_quantity_var f))
             (RecipeDialog.crafting_level_var f) (RecipeDialog.recipe_type_var f)
             (RecipeDialog.is_exclusive_var f))).
Proof.
  intros Hn Hms Hpq Hlevel Hren [r0 Hr0].
  unfold RecipeDialog.save_recipe.
  apply String.eqb_neq in Hn. rewrite Hn, Hms.
  assert (Hcheck : (RecipeDialog.product_quantity_var f <=? 0)%Z
                   || (RecipeDialog.crafting_level_var f <? 1)%Z
                   || (150 <? RecipeDialog.crafting_level_var f)%Z = false).
  { apply orb_false_iff. split; [apply orb_false_iff; split|].
    - apply Z.leb_gt. lia.
    - apply Z.ltb_ge. lia.
    - apply Z.ltb_ge. lia. }
  rewrite Hcheck. unfold update_recipe. split.
  - intros Hfresh. rewrite Hfresh. reflexivity.
  - intros [r1 Hr1]. rewrite Hr1.
    assert (Hne : String.eqb (RecipeDialog.name_var f) recipe_name = false)
      by (apply String.eqb_neq; exact Hren).
    rewrite Hne. cbn [negb]. unfold delete_recipe. cbn [recipes with_recipes].
    rewrite lookup_insert_ne by congruence. rewrite Hr0.
    eexists. split; [reflexivity|]. cbn [recipes with_recipes]. split.
    + apply lookup_delete_eq.
    + rewrite lookup_delete_ne by congruence. apply lookup_insert_eq.
Qed.

Lemma recipe_cannot_take_a_new_name_witness :
  (recipes Data.plank_catalog !! RecipeDialog.name_var (Data.recipe_form "Board" "Wood")
     = None ->
   RecipeDialog.save_recipe Data.plank_catalog (RecipeDialog.Edit "Plank")
     (Data.recipe_form "Board" "Wood") =
   RecipeDialog.Failed Data.plank_catalog
     (recipe_not_found (RecipeDialog.name_var (Data.recipe_form "Board" "Wood")))) /\
  (is_Some (recipes Data.plank_catalog
              !! RecipeDialog.name_var (Data.recipe_form "Board" "Wood")) ->
   exists data_manager',
     RecipeDialog.save_recipe Data.plank_catalog (RecipeDialog.Edit "Plank")
       (Data.recipe_form "Board" "Wood") =
     RecipeDialog.Saved data_manager'
       (RecipeDialog.name_var (Data.recipe_form "Board" "Wood")) /\
     recipes data_manager' !! "Plank"%string = None /\
     recipes data_manager' !! RecipeDialog.name_var (Data.recipe_form "Board" "Wood") =
     Some (new_recipe ({| m_name := "Wood"; m_quantity := inject_Z 2 |} :: [])
             (inject_Z (RecipeDialog.product_quantity_var (Data.recipe_form "Board" "Wood")))
             (RecipeDialog.crafting_level_var (Data.recipe_form "Board" "Wood"))
             (RecipeDialog.recipe_type_var (Data.recipe_form "Board" "Wood"))
             (RecipeDialog.is_exclusive_var (Data.recipe_form "Board" "Wood")))).
Proof.
  apply (recipe_cannot_take_a_new_name Data.plank_catalog "Plank"
           (Data.recipe_form "Board" "Wood") {| m_name := "Wood"; m_quantity := inject_Z 2 |}
           []).
  - discriminate.
  - reflexivity.
  - reflexivity.
  - cbn. lia.
  - discriminate.
  - eexists. reflexivity.
Defined.

Lemma iterate_add_entries (n : nat) :
  added_rows n =
  map (fun i => {| RecipeDialog.button_index := i; RecipeDialog.var := "";
                   RecipeDialog.quantity_var := 1 |}) (seq 0 n).
Proof.
  unfold added_rows. induction n as [|n IH]; [reflexivity|].
  rewrite Nat.iter_succ, IH. unfold RecipeDialog.add_material_entry.
  rewrite length_map, length_seq, seq_S, map_app. reflexivity.
Qed.

Lemma added_entry_lookup (n i : nat) :
  (i < n)%nat ->
  added_rows n !! i =
  Some {| RecipeDialog.button_index := i; RecipeDialog.var := "";
          RecipeDialog.quantity_var := 1 |}.
Proof.
  intros Hi. rewrite iterate_add_entries.
  change (map ?f ?l) with (f <$> l). rewrite list_lookup_fmap, lookup_seq_lt by exact Hi.
  reflexivity.
Qed.

Lemma added_entries_length (n : nat) :
  length (added_rows n) = n.
Proof. rewrite iterate_add_entries, length_map, length_seq. reflexivity. Qed.

(** X24. The remove button of a row of the recipe dialog keeps the index
    that the row had when it was added.  After [n] rows are added and the
    row at position [i] is removed, the row at a position [j] from [i] on
    is the one added at [j + 1]; its button removes the row after it, and
    for the last row it ends in [IndexError]. *)
Theorem remove_button_keeps_stale_index (n i j : nat) :
  (i <= j)%nat -> (j + 1 < n)%nat -> (2 < n)%nat ->
  RecipeDialog.click_remove (added_rows n) i = Some (delete i (added_rows n)) /\
  delete i (added_rows n) !! j = added_rows n !! (j + 1)%nat /\
  RecipeDialog.click_remove (delete i (added_rows n)) j =
  (if (j + 2 <? n)%nat then Some (delete (j + 1)%nat (delete i (added_rows n)))
   else None).
Proof.
  intros Hij Hj Hn.
  set (rows := added_rows n).
  assert (Hlen : length rows = n) by apply added_entries_length.
  assert (Hlookup : forall k, (k < n)%nat ->
            rows !! k = Some {| RecipeDialog.button_index := k; RecipeDialog.var := "";
                                RecipeDialog.quantity_var := 1 |})
    by (intros k Hk; apply added_entry_lookup; exact Hk).
  clearbody rows.
  assert (Hlen' : length (delete i rows) = (n - 1)%nat).
  { rewrite length_delete; [lia|]. rewrite Hlookup by lia. eauto. }
  assert (Hrow : delete i rows !! j = rows !! (j + 1)%nat).
  { rewrite list_lookup_delete_ge by exact Hij. f_equal. lia. }
  split; [|split; [exact Hrow|]].
  - unfold RecipeDialog.click_remove. rewrite Hlookup by lia.
    cbn [RecipeDialog.button_index]. unfold RecipeDialog.remove_material_entry.
    rewrite Hlen.
    assert (H1 : (1 <? n)%nat = true) by (apply Nat.ltb_lt; lia). rewrite H1.
    unfold RecipeDialog.pop. rewrite Hlen.
    assert (H2 : (i <? n)%nat = true) by (apply Nat.ltb_lt; lia). rewrite H2.
    reflexivity.
  - unfold RecipeDialog.click_remove. rewrite Hrow, Hlookup by lia.
    cbn [RecipeDialog.button_index]. unfold RecipeDialog.remove_material_entry.
    rewrite Hlen'.
    assert (H1 : (1 <? n - 1)%nat = true) by (apply Nat.ltb_lt; lia). rewrite H1.
    unfold RecipeDialog.pop. rewrite Hlen'.
    destruct (j + 2 <? n)%nat eqn:Hlast.
    + apply Nat.ltb_lt in Hlast.
      assert (H2 : (j + 1 <? n - 1)%nat = true) by (apply Nat.ltb_lt; lia). rewrite H2.
      reflexivity.
    + apply Nat.ltb_ge in Hlast.
      assert (H2 : (j + 1 <? n - 1)%nat = false) by (apply Nat.ltb_ge; lia). rewrite H2.
      reflexivity.
Qed.

Lemma remove_button_keeps_stale_index_witness :
  RecipeDialog.click_remove (added_rows 3) 0 = Some (delete 0%nat (added_rows 3)) /\
  delete 0%nat (added_rows 3) !! 1%nat = added_rows 3 !! (1 + 1)%nat /\
  RecipeDialog.click_remove (delete 0%nat (added_rows 3)) 1 =
  (if (1 + 2 <? 3)%nat then Some (delete (1 + 1)%nat (delete 0%nat (added_rows 3)))
   else None).
Proof.
  apply (remove_button_keeps_stale_index 3 0 1); lia.
Defined.

End Dialogs.

(** ** Sorted lists *)

Section SortedBy.

Context {T K : Type} (ltb : K -> K -> bool) (key : T -> K).
Hypothesis ltb_trans : forall a b c, ltb a b = true -> ltb b c = true -> ltb a c = true.
Hypothesis ltb_irrefl : forall a, ltb a a = false.
Hypothesis ltb_total : forall a b, a <> b -> ltb a b = true \/ ltb b a = true.

Lemma insert_sorted_perm (x : T) (l : list T) :
  Permutation (insert_sorted ltb key x l) (x :: l).
Proof.
  induction l as [|y l IH]; [reflexivity|].
  cbn [insert_sorted]. destruct (ltb (key y) (key x)); [|reflexivity].
  rewrite IH. apply perm_swap.
Qed.

Lemma sorted_perm (l : list T) : Permutation (sorted ltb key l) l.
Proof.
  induction l as [|x l IH]; [reflexivity|].
  unfold sorted. cbn [fold_right]. rewrite insert_sorted_perm. constructor. exact IH.
Qed.

Lemma insert_sorted_strict (x : T) (l : list T) :
  ~ In (key x) (map key l) -> StronglySorted (sorted_before ltb key) l ->
  StronglySorted (sorted_before ltb key) (insert_sorted ltb key x l).
Proof.
  intros Hfresh Hsorted. induction Hsorted as [|y l Hl IH Hy].
  - repeat constructor.
  - cbn [insert_sorted]. destruct (ltb (key y) (key x)) eqn:Hyx.
    + constructor.
      * apply IH. intros Hin. apply Hfresh. right. exact Hin.
      * eapply Permutation_Forall; [symmetry; apply insert_sorted_perm|].
        constructor; [exact Hyx|exact Hy].
    + assert (Hxy : sorted_before ltb key x y).
      { destruct (ltb_total (key x) (key y)) as [H|H]; [|exact H|congruence].
        intros Heq. apply Hfresh. left. symmetry. exact Heq. }
      constructor; [constructor; assumption|].
      constructor; [exact Hxy|].
      eapply Forall_impl; [exact Hy|]. cbn. intros z Hz.
      apply (ltb_trans _ (key y)); assumption.
Qed.

Lemma sorted_strict (l : list T) :
  NoDup (map key l) -> StronglySorted (sorted_before ltb key) (sorted ltb key l).
Proof.
  induction l as [|x l IH]; intros Hnd; [constructor|].
  inversion Hnd as [|? ? Hx Hnd']; subst. rewrite list_elem_of_In in Hx.
  unfold sorted. cbn [fold_right]. apply insert_sorted_strict.
  - intros Hin. apply Hx. apply in_map_iff in Hin. destruct Hin as (y & Hy & Hin).
    apply in_map_iff. exists y. split; [exact Hy|].
    apply (Permutation_in _ (sorted_perm l)). exact Hin.
  - apply IH. exact Hnd'.
Qed.

Lemma strict_order_unique (l1 l2 : list T) :
  StronglySorted (sorted_before ltb key) l1 -> StronglySorted (sorted_before ltb key) l2 ->
  Permutation l1 l2 -> l1 = l2.
Proof.
  intros H1. revert l2. induction H1 as [|x l1 Hl1 IH Hx]; intros l2 H2 Hperm.
  - apply Permutation_nil in Hperm. congruence.
  - destruct H2 as [|y l2 Hl2 Hy].
    + symmetry in Hperm. apply Permutation_nil in Hperm. discriminate.
    + assert (Hasym : forall a b,
                sorted_before ltb key a b -> sorted_before ltb key b a -> False).
      { intros a b Hab Hba. pose proof (ltb_trans _ _ _ Hab Hba) as Haa.
        rewrite ltb_irrefl in Haa. discriminate. }
      assert (Hxy : x = y).
      { assert (Hin1 : In x (y :: l2)) by (apply (Permutation_in _ Hperm); left; reflexivity).
        assert (Hin2 : In y (x :: l1))
          by (apply (Permutation_in _ (Permutation_sym Hperm)); left; reflexivity).
        destruct Hin1 as [Heq|Hin1]; [congruence|].
        destruct Hin2 as [Heq|Hin2]; [congruence|].
        rewrite List.Forall_forall in Hx, Hy. exfalso.
        apply (Hasym x y); [apply Hx; exact Hin2|apply Hy; exact Hin1]. }
      subst y. f_equal. apply IH; [exact Hl2|].
      apply Permutation_cons_inv in Hperm. exact Hperm.
Qed.

Lemma sorted_unique (l l' : list T) :
  NoDup (map key l) -> Permutation l' l -> sorted ltb key l' = sorted ltb key l.
Proof.
  intros Hnd Hperm. apply strict_order_unique.
  - apply sorted_strict. rewrite Hperm. exact Hnd.
  - apply sorted_strict. exact Hnd.
  - rewrite !sorted_perm. exact Hperm.
Qed.

Lemma sorted_filter (p : T -> bool) (l : list T) :
  NoDup (map key l) -> sorted ltb key (List.filter p l) = List.filter p (sorted ltb key l).
Proof.
  intros Hnd. apply strict_order_unique.
  - apply sorted_strict.
    assert (Hsub : forall l, NoDup (map key l) -> NoDup (map key (List.filter p l))).
    { clear. induction l as [|x l IH]; intros Hnd; [constructor|].
      inversion Hnd as [|? ? Hx Hnd']; subst. rewrite list_elem_of_In in Hx.
      cbn [List.filter].
      destruct (p x); [|apply IH; exact Hnd'].
      cbn [map]. constructor; [|apply IH; exact Hnd'].
      rewrite list_elem_of_In. intros Hin. apply Hx. apply in_map_iff in Hin. destruct Hin as (y & Hy & Hin).
      apply filter_In in Hin. apply in_map_iff. exists y. tauto. }
    apply Hsub. exact Hnd.
  - pose proof (sorted_strict l Hnd) as Hs.
    induction Hs as [|x l0 Hl0 IH Hx]; [constructor|].
    cbn [List.filter]. destruct (p x); [|exact IH].
    constructor; [exact IH|]. apply List.Forall_forall. intros y Hy.
    apply filter_In in Hy. rewrite List.Forall_forall in Hx. apply Hx. tauto.
  - rewrite sorted_perm.
    assert (Hf : forall l1 l2 : list T, Permutation l1 l2 ->
                 Permutation (List.filter p l1) (List.filter p l2)).
    { clear. induction 1 as [|x l1 l2 _ IH|x y l|l1 l2 l3 _ IH1 _ IH2].
      - constructor.
      - cbn [List.filter]. destruct (p x); [constructor|]; exact IH.
      - cbn [List.filter]. destruct (p x), (p y); try reflexivity. apply perm_swap.
      - etransitivity; eassumption. }
    apply Hf. symmetry. apply sorted_perm.
Qed.

Lemma sorted_splits (p : T -> bool) (good : T -> Prop) (l : list T) :
  StronglySorted (sorted_before ltb key) l -> Forall good l ->
  (forall x y, good x -> good y -> sorted_before ltb key x y ->
               p x = false -> p y = false) ->
  List.filter p l ++ List.filter (fun x => negb (p x)) l = l.
Proof.
  intros Hs Hgood Hp. induction Hs as [|x l Hl IH Hx]; [reflexivity|].
  inversion Hgood as [|? ? Hgx Hgl]; subst.
  cbn [List.filter]. destruct (p x) eqn:Hpx; cbn [negb].
  - cbn [app]. rewrite (IH Hgl). reflexivity.
  - assert (Hall : Forall (fun y => p y = false) l).
    { rewrite List.Forall_forall in Hx, Hgl. apply List.Forall_forall. intros y Hy.
      apply (Hp x y Hgx (Hgl y Hy) (Hx y Hy) Hpx). }
    assert (Hnone : List.filter p l = []).
    { clear -Hall. induction Hall as [|y l Hy _ IH]; [reflexivity|].
      cbn [List.filter]. rewrite Hy. exact IH. }
    assert (Hevery : List.filter (fun x => negb (p x)) l = l).
    { clear -Hall. induction Hall as [|y l Hy _ IH]; [reflexivity|].
      cbn [List.filter]. rewrite Hy. cbn [negb]. rewrite IH. reflexivity. }
    rewrite Hnone, Hevery. reflexivity.
Qed.

End SortedBy.

Section SortItems.
Local Open Scope Q_scope.

Lemma string_ltb_lt (a b : string) :
  String.ltb a b = true <-> OrderedTypeEx.String_as_OT.lt a b.
Proof.
  unfold String.ltb. rewrite <- OrderedTypeEx.String_as_OT.cmp_lt.
  unfold OrderedTypeEx.String_as_OT.cmp.
  destruct (String.compare a b); split; intros H; try reflexivity; discriminate.
Qed.

Lemma string_ltb_trans (a b c : string) :
  String.ltb a b = true -> String.ltb b c = true -> String.ltb a c = true.
Proof.
  rewrite !string_ltb_lt. apply OrderedTypeEx.String_as_OT.lt_trans.
Qed.

Lemma string_ltb_irrefl (a : string) : String.ltb a a = false.
Proof.
  destruct (String.ltb a a) eqn:H; [|reflexivity].
  apply string_ltb_lt in H. exfalso.
  apply (OrderedTypeEx.String_as_OT.lt_not_eq _ _ H). reflexivity.
Qed.

Lemma string_ltb_total (a b : string) :
  a <> b -> String.ltb a b = true \/ String.ltb b a = true.
Proof.
  intros Hne. unfold String.ltb. rewrite (String.compare_antisym b a).
  destruct (String.compare a b) eqn:Hc; cbn; auto.
  apply String.compare_eq_iff in Hc. contradiction.
Qed.

Lemma sort_key_ltb_trans (a b c : Z * Z * Z * string) :
  sort_key_ltb a b = true -> sort_key_ltb b c = true -> sort_key_ltb a c = true.
Proof.
  destruct a as [[[r1 q1] l1] n1], b as [[[r2 q2] l2] n2], c as [[[r3 q3] l3] n3].
  unfold sort_key_ltb.
  destruct (Z.compare_spec r1 r2), (Z.compare_spec r2 r3); try discriminate;
    destruct (Z.compare_spec r1 r3); try lia; try reflexivity;
    destruct (Z.compare_spec q1 q2), (Z.compare_spec q2 q3); try discriminate;
    destruct (Z.compare_spec q1 q3); try lia; try reflexivity;
    destruct (Z.compare_spec l1 l2), (Z.compare_spec l2 l3); try discriminate;
    destruct (Z.compare_spec l1 l3); try lia; try reflexivity.
  apply string_ltb_trans.
Qed.

Lemma sort_key_ltb_irrefl (a : Z * Z * Z * string) : sort_key_ltb a a = false.
Proof.
  destruct a as [[[r q] l] n]. unfold sort_key_ltb. rewrite !Z.compare_refl.
  apply string_ltb_irrefl.
Qed.

Lemma sort_key_ltb_total (a b : Z * Z * Z * string) :
  a <> b -> sort_key_ltb a b = true \/ sort_key_ltb b a = true.
Proof.
  destruct a as [[[r1 q1] l1] n1], b as [[[r2 q2] l2] n2]. intros Hne.
  unfold sort_key_ltb.
  destruct (Z.compare_spec r1 r2), (Z.compare_spec r2 r1); try lia; auto.
  destruct (Z.compare_spec q1 q2), (Z.compare_spec q2 q1); try lia; auto.
  destruct (Z.compare_spec l1 l2), (Z.compare_spec l2 l1); try lia; auto.
  apply string_ltb_total. congruence.
Qed.

Lemma sort_keys_distinct (l : list (string * item_data)) :
  NoDup (map fst l) -> NoDup (map sort_key l).
Proof.
  induction l as [|[name data] l IH]; intros Hnd; [constructor|].
  inversion Hnd as [|? ? Hx Hnd']; subst. rewrite list_elem_of_In in Hx.
  cbn [map]. constructor; [|apply IH; exact Hnd'].
  rewrite list_elem_of_In. intros Hin. apply Hx. apply in_map_iff in Hin. destruct Hin as ([name' data'] & Hkey & Hin).
  apply in_map_iff. exists (name', data'). split; [|exact Hin].
  unfold sort_key in Hkey. inversion Hkey. reflexivity.
Qed.

Lemma items_keys_distinct (items : gmap string item_data) :
  NoDup (map sort_key (map_to_list items)).
Proof. apply sort_keys_distinct. apply (NoDup_fst_map_to_list items). Qed.

Lemma sort_items_perm (items : gmap string item_data) :
  Permutation (sort_items items) (map_to_list items).
Proof. apply sorted_perm. Qed.

Lemma sort_items_strict (items : gmap string item_data) :
  StronglySorted before (sort_items items).
Proof.
  apply (sorted_strict sort_key_ltb sort_key sort_key_ltb_trans sort_key_ltb_total).
  apply items_keys_distinct.
Qed.

(** X25. [sort_items] returns the items of the catalog in the strict order
    of their keys (category rank, quality, level, name): a permutation of
    the items in which every item is before all the later ones.  The names
    being distinct, no two keys are equal, and the list is the same
    whatever the order in which the dictionary is enumerated. *)
Theorem sort_items_is_the_strict_order (items : gmap string item_data) :
  Permutation (sort_items items) (map_to_list items) /\
  StronglySorted before (sort_items items) /\
  forall l, Permutation l (map_to_list items) ->
            sorted sort_key_ltb sort_key l = sort_items items.
Proof.
  split; [apply sort_items_perm|]. split; [apply sort_items_strict|].
  intros l Hperm.
  apply (sorted_unique sort_key_ltb sort_key sort_key_ltb_trans sort_key_ltb_irrefl
           sort_key_ltb_total); [apply items_keys_distinct|exact Hperm].
Qed.

Lemma known_category_rank (data : item_data) :
  known_category data ->
  (0 <= fst (fst (fst (sort_key ("", data)))) <= 5)%Z /\
  (String.eqb (category data) "半成品" = true <->
   fst (fst (fst (sort_key ("", data)))) = 5%Z).
Proof.
  unfold known_category, sort_key, category_order. cbn [fst dict_get length].
  intros [rank Hrank]. revert Hrank.
  destruct (String.eqb "木材" (category data)) eqn:H0.
  { apply String.eqb_eq in H0. rewrite <- H0. cbn. intros _. split; [lia|]. split; discriminate. }
  destruct (String.eqb "矿物" (category data)) eqn:H1.
  { apply String.eqb_eq in H1. rewrite <- H1. cbn. intros _. split; [lia|]. split; discriminate. }
  destruct (String.eqb "麻料" (category data)) eqn:H2.
  { apply String.eqb_eq in H2. rewrite <- H2. cbn. intros _. split; [lia|]. split; discriminate. }
  destruct (String.eqb "怪物" (category data)) eqn:H3.
  { apply String.eqb_eq in H3. rewrite <- H3. cbn. intros _. split; [lia|]. split; discriminate. }
  destruct (String.eqb "其它" (category data)) eqn:H4.
  { apply String.eqb_eq in H4. rewrite <- H4. cbn. intros _. split; [lia|]. split; discriminate. }
  destruct (String.eqb "半成品" (category data)) eqn:H5.
  { apply String.eqb_eq in H5. rewrite <- H5. cbn. intros _. split; [lia|]. split; reflexivity. }
  discriminate.
Qed.

(** X26. In a catalog whose categories are all among the six of
    [category_order], moving the crafted items to the end changes nothing:
    [sort_items_for_recipe] returns the list of [sort_items]. *)
Theorem recipe_list_is_sorted_list_for_known_categories (items : gmap string item_data) :
  (forall name data, items !! name = Some data -> known_category data) ->
  sort_items_for_recipe items = sort_items items.
Proof.
  intros Hknown. unfold sort_items_for_recipe.
  pose proof (sort_items_perm items) as Hperm.
  pose proof (sort_items_strict items) as Hsorted.
  set (non_crafted := fun x : string * item_data =>
                        negb (String.eqb (category (snd x)) "半成品")).
  rewrite (List.filter_ext (fun '(name, data) => negb (String.eqb (category data) "半成品"))
             non_crafted) by (intros [name data]; reflexivity).
  rewrite (List.filter_ext (fun '(name, data) => String.eqb (category data) "半成品")
             (fun x => negb (non_crafted x)))
    by (intros [name data]; unfold non_crafted; cbn; rewrite negb_involutive; reflexivity).
  apply (sorted_splits sort_key_ltb sort_key non_crafted (fun x => known_category (snd x)));
    [exact Hsorted| |].
  - apply List.Forall_forall. intros [name data] Hin.
    apply (Permutation_in _ Hperm), list_elem_of_In, elem_of_map_to_list in Hin.
    apply (Hknown name data Hin).
  - intros [n1 d1] [n2 d2] Hk1 Hk2 Hlt Hcrafted. cbn [snd] in *. unfold non_crafted in *.
    cbn [snd] in *. apply negb_false_iff in Hcrafted. apply negb_false_iff.
    destruct (known_category_rank d1 Hk1) as [_ Hr1].
    destruct (known_category_rank d2 Hk2) as [Hb2 Hr2].
    apply Hr1 in Hcrafted. apply Hr2.
    unfold sorted_before in Hlt. unfold sort_key in *. cbn [fst] in *.
    unfold sort_key_ltb in Hlt. rewrite Hcrafted in Hlt.
    destruct (Z.compare_spec 5
                (default (Z.of_nat (length category_order))
                   (dict_get category_order (category d2)))) as [Heq|Hlt'|Hgt];
      [symmetry; exact Heq|lia|discriminate].
Qed.

Lemma kit_categories_known (name : string) (data : item_data) :
  items Data.kit_catalog !! name = Some data -> known_category data.
Proof.
  unfold Data.kit_catalog. cbn [items]. intros Hlookup.
  apply lookup_insert_Some in Hlookup. destruct Hlookup as [[_ <-]|[_ Hlookup]].
  { eexists. reflexivity. }
  apply lookup_insert_Some in Hlookup. destruct Hlookup as [[_ <-]|[_ Hlookup]].
  { eexists. reflexivity. }
  apply lookup_singleton_Some in Hlookup. destruct Hlookup as [_ <-].
  eexists. reflexivity.
Qed.

Lemma recipe_list_is_sorted_list_for_known_categories_witness :
  sort_items_for_recipe (items Data.kit_catalog) = sort_items (items Data.kit_catalog).
Proof.
  apply (recipe_list_is_sorted_list_for_known_categories (items Data.kit_catalog)).
  exact kit_categories_known.
Defined.

Lemma NoDup_List_filter {T : Type} (p : T -> bool) (l : list T) :
  NoDup l -> NoDup (List.filter p l).
Proof.
  induction l as [|x l IH]; intros Hnd; [constructor|].
  inversion Hnd as [|? ? Hx Hnd']; subst. cbn [List.filter].
  destruct (p x); [|apply IH; exact Hnd'].
  constructor; [|apply IH; exact Hnd'].
  rewrite list_elem_of_In, filter_In, <- list_elem_of_In. tauto.
Qed.

Lemma map_to_list_filter_perm (recipes : gmap string recipe) (items : gmap string item_data) :
  Permutation
    (map_to_list (filter (fun '(name, data) => recipes !! name = None) items))
    (List.filter (fun x => bool_decide (recipes !! fst x = None)) (map_to_list items)).
Proof.
  apply NoDup_Permutation.
  - apply NoDup_map_to_list.
  - apply NoDup_List_filter, NoDup_map_to_list.
  - intros [name data]. rewrite elem_of_map_to_list, map_lookup_filter_Some.
    rewrite list_elem_of_In, filter_In, <- list_elem_of_In, elem_of_map_to_list.
    cbn [fst]. rewrite bool_decide_eq_true. tauto.
Qed.

(** X27. [get_sorted_base_items] returns the list of [get_sorted_items]
    without the items that have a recipe, in the same order: an item is
    listed exactly when the catalog holds it and no recipe makes it. *)
Theorem sorted_base_items_are_filtered_sorted_items (self : DataManager.t) :
  get_sorted_base_items self =
  List.filter (fun x => bool_decide (recipes self !! fst x = None)) (get_sorted_items self) /\
  forall name data,
    In (name, data) (get_sorted_base_items self) <->
    items self !! name = Some data /\ recipes self !! name = None.
Proof.
  assert (Heq : get_sorted_base_items self =
                List.filter (fun x => bool_decide (recipes self !! fst x = None))
                            (get_sorted_items self)).
  { unfold get_sorted_base_items, get_sorted_items, sort_items.
    rewrite <- (sorted_filter sort_key_ltb sort_key sort_key_ltb_trans sort_key_ltb_irrefl
                  sort_key_ltb_total) by apply items_keys_distinct.
    apply (sorted_unique sort_key_ltb sort_key sort_key_ltb_trans sort_key_ltb_irrefl
             sort_key_ltb_total).
    - apply sort_keys_distinct.
      pose proof (NoDup_fst_map_to_list (items self)) as Hnd.
      clear -Hnd. induction (map_to_list (items self)) as [|x l IH]; [constructor|].
      inversion Hnd as [|? ? Hx Hnd']; subst. cbn [List.filter].
      destruct (bool_decide _); [|apply IH; exact Hnd'].
      cbn [map]. constructor; [|apply IH; exact Hnd'].
      intros Hin. apply Hx. apply list_elem_of_In. apply list_elem_of_In in Hin.
      apply in_map_iff in Hin. destruct Hin as (y & Hy & Hin). apply filter_In in Hin.
      apply in_map_iff. exists y. tauto.
    - apply map_to_list_filter_perm. }
  split; [exact Heq|].
  intros name data. rewrite Heq, filter_In. unfold get_sorted_items.
  rewrite bool_decide_eq_true. cbn [fst].
  split.
  - intros [Hin Hr]. split; [|exact Hr].
    apply (Permutation_in _ (sort_items_perm (items self))) in Hin.
    apply elem_of_map_to_list, list_elem_of_In. exact Hin.
  - intros [Hi Hr]. split; [|exact Hr].
    apply (Permutation_in _ (Permutation_sym (sort_items_perm (items self)))).
    apply list_elem_of_In, elem_of_map_to_list. exact Hi.
Qed.

(** X28. [get_all_categories] lists every category once, in the strict
    order of the strings: the six predefined ones and the category of every
    item of the catalog, and nothing else. *)
Theorem all_categories_are_listed_once (self : DataManager.t) :
  StronglySorted (fun a b => String.ltb a b = true) (get_all_categories self) /\
  forall c,
    In c (get_all_categories self) <->
    In c ["木材"; "矿物"; "麻料"; "怪物"; "其它"; "半成品"]%string \/
    exists name data, items self !! name = Some data /\ category data = c.
Proof.
  unfold get_all_categories. split.
  - apply (sorted_strict String.ltb id string_ltb_trans string_ltb_total).
    rewrite map_id. apply NoDup_elements.
  - intros c.
    set (categories := (list_to_set ["木材"; "矿物"; "麻料"; "怪物"; "其它"; "半成品"]%string
                        ∪ list_to_set (map (fun '(_, data) => category data)
                                         (get_sorted_items self)) : gset string)).
    assert (Hmem : In c (sorted String.ltb id (elements categories)) <-> c ∈ categories).
    { split; intros H.
      - apply (Permutation_in _ (sorted_perm String.ltb id _)) in H.
        apply elem_of_elements, list_elem_of_In. exact H.
      - apply (Permutation_in _ (Permutation_sym (sorted_perm String.ltb id _))).
        apply list_elem_of_In, elem_of_elements. exact H. }
    rewrite Hmem. unfold categories.
    rewrite elem_of_union, !elem_of_list_to_set, !list_elem_of_In, in_map_iff.
    unfold get_sorted_items. split.
    + intros [Hpre|([name data] & Hcat & Hin)]; [left; exact Hpre|right].
      exists name, data. split; [|exact Hcat].
      apply (Permutation_in _ (sort_items_perm (items self))) in Hin.
      apply elem_of_map_to_list, list_elem_of_In. exact Hin.
    + intros [Hpre|(name & data & Hitem & Hcat)]; [left; exact Hpre|right].
      exists (name, data). split; [exact Hcat|].
      apply (Permutation_in _ (Permutation_sym (sort_items_perm (items self)))).
      apply list_elem_of_In, elem_of_map_to_list. exact Hitem.
Qed.

End SortItems.

(** ** The walk is a cutoff *)

Section Cutoff.
Local Open Scope Q_scope.

Lemma sorted_acceptance_is_prefix {E : Type} (R : E -> E -> Prop) (accept : E -> bool)
    (curve : list E) :
  StronglySorted R curve ->
  (forall x y, R x y -> accept y = true -> accept x = true) ->
  exists k,
    List.filter accept curve = take k curve /\
    Forall (fun e => accept e = false) (drop k curve).
Proof.
  intros Hsorted Hmono. induction Hsorted as [|x l Hl IH Hx].
  - exists 0%nat. split; [reflexivity|constructor].
  - destruct (accept x) eqn:Hacc.
    + destruct IH as (k & Hk & Hrest). exists (S k). cbn [List.filter take drop].
      rewrite Hacc, Hk. split; [reflexivity|exact Hrest].
    + exists 0%nat. cbn [take drop]. split.
      * apply nothing_accepted. constructor; [exact Hacc|].
        eapply Forall_impl; [exact Hx|]. cbn. intros y Hy.
        destruct (accept y) eqn:Hy'; [|reflexivity].
        rewrite (Hmono x y Hy Hy') in Hacc. discriminate.
      * constructor; [exact Hacc|].
        eapply Forall_impl; [exact Hx|]. cbn. intros y Hy.
        destruct (accept y) eqn:Hy'; [|reflexivity].
        rewrite (Hmono x y Hy Hy') in Hacc. discriminate.
Qed.

Lemma StronglySorted_and {E : Type} (R1 R2 : E -> E -> Prop) (l : list E) :
  StronglySorted R1 l -> StronglySorted R2 l ->
  StronglySorted (fun x y => R1 x y /\ R2 x y) l.
Proof.
  intros H1. induction H1 as [|x l Hl IH Hx]; intros H2; [constructor|].
  inversion H2 as [|? ? Hl2 Hx2]; subst. constructor; [apply IH; exact Hl2|].
  rewrite List.Forall_forall in *. intros y Hy. split; [apply Hx|apply Hx2]; exact Hy.
Qed.

(** X29. For rows with non-negative set prices and a finite cap, the walk
    over a curve is a cutoff: the entries it accepts are the first [k]
    entries of the curve, for some [k], every later entry is rejected, and
    the frontier is the last of these [k] entries, or [[None, 0, 0]] when
    [k] is 0.  The same holds for the camp curve with its two caps. *)
Theorem accepted_units_are_a_prefix (A : list row_A) (B : list row_B)
    (max_tickets max_camp max_new_dollar : Z) :
  Forall priced_A A -> Forall priced_B B ->
  (exists k,
     List.filter (accept_A max_tickets) (expand_A A) = take k (expand_A A) /\
     Forall (fun e => accept_A max_tickets e = false) (drop k (expand_A A)) /\
     forall b,
       max_tickets <> (-1)%Z ->
       calculate_A_materials A (expand_A A) max_tickets = Ok b ->
       frontier b = match last (take k (expand_A A)) with
                    | Some e => as_frontier_A e
                    | None => (None, 0, 0)
                    end) /\
  (exists k,
     List.filter (accept_B max_camp max_new_dollar) (expand_B B) = take k (expand_B B) /\
     Forall (fun e => accept_B max_camp max_new_dollar e = false) (drop k (expand_B B)) /\
     forall b,
       (max_camp =? -1)%Z && (max_new_dollar =? -1)%Z = false ->
       calculate_B_materials B (expand_B B) max_camp max_new_dollar = Ok b ->
       frontier b = match last (take k (expand_B B)) with
                    | Some e => as_frontier_B e
                    | None => (None, 0, 0, 0)
                    end).
Proof.
  intros HA HB. split.
  - destruct (expand_A_monotone A HA) as [Hasc _].
    destruct (sorted_acceptance_is_prefix _ (accept_A max_tickets) _ Hasc)
      as (k & Hk & Hrest).
    { intros x y Hxy Hy. apply accept_A_iff. apply accept_A_iff in Hy. lra. }
    exists k. split; [exact Hk|]. split; [exact Hrest|].
    intros b Hcap Hrun. rewrite (calculate_A_frontier _ _ _ _ Hrun).
    apply Z.eqb_neq in Hcap. rewrite Hcap. unfold last_accepted. rewrite Hk. reflexivity.
  - destruct (expand_B_monotone B HB) as (Hcamp & Hdollar & _).
    pose proof (StronglySorted_and _ _ _ Hcamp Hdollar) as Hboth.
    destruct (sorted_acceptance_is_prefix _ (accept_B max_camp max_new_dollar) _ Hboth)
      as (k & Hk & Hrest).
    { intros x y [Hc Hd] Hy. apply accept_B_iff. apply accept_B_iff in Hy.
      destruct Hy as [Hyc Hyd]. split.
      - destruct Hyc as [Hyc|Hyc]; [left; exact Hyc|right; lra].
      - destruct Hyd as [Hyd|Hyd]; [left; exact Hyd|right; lra]. }
    exists k. split; [exact Hk|]. split; [exact Hrest|].
    intros b Hcaps Hrun. rewrite (calculate_B_frontier _ _ _ _ _ Hrun), Hcaps.
    unfold last_accepted. rewrite Hk. reflexivity.
Qed.

Lemma accepted_units_are_a_prefix_witness :
  (exists k,
     List.filter (accept_A 7) (expand_A [Data.ticket_row "Ore" 2 5 8])
       = take k (expand_A [Data.ticket_row "Ore" 2 5 8]) /\
     Forall (fun e => accept_A 7 e = false)
            (drop k (expand_A [Data.ticket_row "Ore" 2 5 8])) /\
     forall b,
       7%Z <> (-1)%Z ->
       calculate_A_materials [Data.ticket_row "Ore" 2 5 8]
         (expand_A [Data.ticket_row "Ore" 2 5 8]) 7 = Ok b ->
       frontier b = match last (take k (expand_A [Data.ticket_row "Ore" 2 5 8])) with
                    | Some e => as_frontier_A e
                    | None => (None, 0, 0)
                    end) /\
  (exists k,
     List.filter (accept_B (-1) 5) (expand_B [Data.camp_row "Hemp" 2 3 4 6])
       = take k (expand_B [Data.camp_row "Hemp" 2 3 4 6]) /\
     Forall (fun e => accept_B (-1) 5 e = false)
            (drop k (expand_B [Data.camp_row "Hemp" 2 3 4 6])) /\
     forall b,
       ((-1) =? -1)%Z && (5 =? -1)%Z = false ->
       calculate_B_materials [Data.camp_row "Hemp" 2 3 4 6]
         (expand_B [Data.camp_row "Hemp" 2 3 4 6]) (-1) 5 = Ok b ->
       frontier b = match last (take k (expand_B [Data.camp_row "Hemp" 2 3 4 6])) with
                    | Some e => as_frontier_B e
                    | None => (None, 0, 0, 0)
                    end).
Proof.
  apply (accepted_units_are_a_prefix [Data.ticket_row "Ore" 2 5 8]
           [Data.camp_row "Hemp" 2 3 4 6] 7 (-1) 5).
  - constructor; [|constructor]. split.
    + unfold Qle. simpl. lia.
    + intros _. unfold Qle. simpl. lia.
  - constructor; [|constructor]. split; [|split].
    + unfold Qle. simpl. lia.
    + unfold Qle. simpl. lia.
    + intros _. unfold Qle. simpl. lia.
Defined.

End Cutoff.

(** ** When the calculation of the page returns *)

Section Outcome.
Local Open Scope Q_scope.

Lemma prepare_all_known (base_materials_data : gmap string item_data)
    (l : list (string * Q)) (acc : list row) :
  Forall (fun e => is_Some (base_materials_data !! fst e)) l ->
  exists new,
    for_each (prepare_step base_materials_data) l acc = Ok (acc ++ new) /\
    Forall2 (row_of_demand base_materials_data) l new.
Proof.
  revert acc. induction l as [|e l IH]; intros acc Hl.
  - exists []. rewrite app_nil_r. split; [reflexivity|constructor].
  - inversion Hl as [|? ? [item Hitem] Hl']; subst.
    assert (Hstep : prepare_step base_materials_data acc e
                    = Ok (acc ++ [row_for (fst e) (snd e) item]))
      by (unfold prepare_step; rewrite Hitem; reflexivity).
    destruct (IH (acc ++ [row_for (fst e) (snd e) item]) Hl') as (new & Hrun & Hnew).
    exists (row_for (fst e) (snd e) item :: new). split.
    + cbn [for_each]. rewrite Hstep. cbn [mbind result_bind]. rewrite Hrun, <- app_assoc.
      reflexivity.
    + constructor; [|exact Hnew]. exists item. split; [exact Hitem|reflexivity].
Qed.

Lemma keys_fail {T : Type} (key : T -> result Q) (l : list T) (acc : list (Q * T)) :
  Forall (fun x => (exists k, key x = Ok k) \/ key x = Raise ZeroDivisionError) l ->
  Exists (fun x => key x = Raise ZeroDivisionError) l ->
  for_each (fun acc x => k ← key x; Ok (acc ++ [(k, x)])) l acc = Raise ZeroDivisionError.
Proof.
  intros Hall Hex. revert acc. induction Hall as [|x l Hx Hall IH]; intros acc.
  - inversion Hex.
  - cbn [for_each]. destruct Hx as [[k Hk]|Hk].
    + rewrite Hk. cbn [mbind result_bind]. apply IH.
      inversion Hex as [? ? Hbad|? ? Hlater]; subst; [congruence|exact Hlater].
    + rewrite Hk. reflexivity.
Qed.

Lemma sort_by_key_fails {T : Type} (key : T -> result Q) (l : list T) :
  Forall (fun x => (exists k, key x = Ok k) \/ key x = Raise ZeroDivisionError) l ->
  Exists (fun x => key x = Raise ZeroDivisionError) l ->
  sort_by_key key l = Raise ZeroDivisionError.
Proof.
  intros Hall Hex. unfold sort_by_key. rewrite (keys_fail key l [] Hall Hex). reflexivity.
Qed.

Lemma div_outcome (a b : Q) :
  (exists k, div a b = Ok k) \/ div a b = Raise ZeroDivisionError.
Proof. unfold div. destruct (Qeq_bool b 0); [right|left; eexists]; reflexivity. Qed.

Lemma calculate_A_returns (A : list row_A) (max_tickets : Z) :
  exists b, calculate_A_materials A (expand_A A) max_tickets = Ok b.
Proof.
  unfold calculate_A_materials. destruct (max_tickets =? -1)%Z; [eexists; reflexivity|].
  destruct (walk_from_zero (accept_A max_tickets)
              (fun item => is_set (ea_gold_cost item)) ea_material as_frontier_A
              (None, 0, 0) (expand_A A) (map a_material A)) as (b & Hrun & _).
  { rewrite <- (Forall_map ea_material (fun k => k ∈ map a_material A)), expand_A_names.
    apply names_in_keys. }
  exists b. exact Hrun.
Qed.

Lemma calculate_B_returns (B : list row_B) (max_camp max_new_dollar : Z) :
  exists b, calculate_B_materials B (expand_B B) max_camp max_new_dollar = Ok b.
Proof.
  unfold calculate_B_materials.
  destruct ((max_camp =? -1)%Z && (max_new_dollar =? -1)%Z); [eexists; reflexivity|].
  destruct (walk_from_zero (accept_B max_camp max_new_dollar)
              (fun item => is_set (eb_gold_cost item)) eb_material as_frontier_B
              (None, 0, 0, 0) (expand_B B) (map b_material B)) as (b & Hrun & _).
  { rewrite <- (Forall_map eb_material (fun k => k ∈ map b_material B)), expand_B_names.
    apply names_in_keys. }
  exists b. exact Hrun.
Qed.

Lemma rows_of_demand_In (base_materials_data : gmap string item_data)
    (l : list (string * Q)) (rows : list row) :
  Forall2 (row_of_demand base_materials_data) l rows ->
  (forall m, In m rows -> exists e, In e l /\ row_of_demand base_materials_data e m) /\
  (forall e, In e l -> exists m, In m rows /\ row_of_demand base_materials_data e m).
Proof.
  induction 1 as [|e m l rows Hm _ [IH1 IH2]].
  - split; intros x [].
  - split.
    + intros m' [<-|Hin].
      * exists e. split; [left; reflexivity|exact Hm].
      * destruct (IH1 m' Hin) as (e' & He' & Hm'). exists e'. split; [right; exact He'|exact Hm'].
    + intros e' [<-|Hin].
      * exists m. split; [left; reflexivity|exact Hm].
      * destruct (IH2 e' Hin) as (m' & Hm' & Hrow). exists m'. split; [right; exact Hm'|exact Hrow].
Qed.

(** X30. When every material of the aggregated demand is an item of the
    catalog, [calculate_costs] has two outcomes: [ZeroDivisionError], from
    the sort of [split_materials], as soon as one of these items is on the
    ticket or the camp channel with a gold price of 0; a result
    otherwise, for every value of the three caps. *)
Theorem calculate_costs_fails_only_on_zero_gold (self : page) :
  Forall (fun e => is_Some (base_materials_data self !! fst e)) (total_materials self) ->
  (Exists (fun e => exists item, base_materials_data self !! fst e = Some item /\
                                 divides_by_zero item = true) (total_materials self) ->
   calculate_costs self = Raise ZeroDivisionError) /\
  (Forall (fun e => forall item, base_materials_data self !! fst e = Some item ->
                                 divides_by_zero item = false) (total_materials self) ->
   exists self' data, calculate_costs self = Ok (self', data)).
Proof.
  intros Hknown.
  destruct (prepare_all_known _ _ [] Hknown) as (rows & Hprep & Hrows).
  cbn [app] in Hprep. rewrite <- prepare_materials_data_unfold in Hprep.
  destruct (rows_of_demand_In _ _ _ Hrows) as [Hback Hforth].
  assert (HoutA : Forall (fun x => (exists k, key_A x = Ok k)
                                   \/ key_A x = Raise ZeroDivisionError) (rows_A rows))
    by (apply List.Forall_forall; intros x _; apply div_outcome).
  assert (HoutB : Forall (fun x => (exists k, key_B x = Ok k)
                                   \/ key_B x = Raise ZeroDivisionError) (rows_B rows))
    by (apply List.Forall_forall; intros x _; apply div_outcome).
  split.
  - intros Hzero. unfold calculate_costs. rewrite Hprep. cbn [mbind result_bind].
    assert (Hsplit : split_materials rows = Raise ZeroDivisionError).
    { apply List.Exists_exists in Hzero.
      destruct Hzero as (e & He & item & Hitem & Hbad).
      destruct (Hforth e He) as (m & Hm & item' & Hitem' & Hrow).
      assert (item' = item) by congruence. subst item'.
      unfold divides_by_zero in Hbad. apply andb_true_iff in Hbad.
      destruct Hbad as [Hchannel Hgold].
      unfold split_materials. fold (rows_A rows). fold (rows_B rows). fold (rows_C rows).
      unfold row_for in Hrow. destruct (is_set (ticket_price item)) eqn:Ht.
      - rewrite (sort_by_key_fails key_A (rows_A rows) HoutA); [reflexivity|].
        apply List.Exists_exists. eexists. split.
        + apply list_elem_of_In, list_elem_of_omap. exists m.
          split; [apply list_elem_of_In; exact Hm|]. rewrite Hrow. reflexivity.
        + unfold key_A, div. cbn. rewrite Hgold. reflexivity.
      - cbn [orb] in Hchannel. rewrite Hchannel in Hrow.
        destruct (sort_by_key key_A (rows_A rows)) as [As|x] eqn:HA.
        + cbn [mbind result_bind].
          rewrite (sort_by_key_fails key_B (rows_B rows) HoutB); [reflexivity|].
          apply List.Exists_exists. eexists. split.
          * apply list_elem_of_In, list_elem_of_omap. exists m.
            split; [apply list_elem_of_In; exact Hm|]. rewrite Hrow. reflexivity.
          * unfold key_B, div. cbn. rewrite Hgold. reflexivity.
        + cbn [mbind result_bind].
          destruct (List.Exists_dec (fun x => key_A x = Raise ZeroDivisionError) (rows_A rows))
            as [Hex|Hnone].
          { intros y. unfold key_A, div.
            destruct (Qeq_bool (a_gold_price y) 0); [left; reflexivity|right; discriminate]. }
          * rewrite (sort_by_key_fails key_A (rows_A rows) HoutA Hex) in HA.
            congruence.
          * exfalso.
            destruct (sort_by_key_sorted key_A
                        (fun y => a_ticket_price y / a_gold_price y) (rows_A rows))
              as (l' & Hl' & _).
            { apply List.Forall_forall. intros y Hy.
              destruct (div_outcome (a_ticket_price y) (a_gold_price y)) as [[k Hk]|Hk].
              - unfold key_A. rewrite Hk. apply div_ok in Hk. destruct Hk as [_ ->].
                reflexivity.
              - exfalso. apply Hnone. apply List.Exists_exists. exists y.
                split; [exact Hy|exact Hk]. }
            congruence. }
    rewrite Hsplit. reflexivity.
  - intros Hfine. unfold calculate_costs. rewrite Hprep. cbn [mbind result_bind].
    assert (Hgold : forall m, In m rows ->
              match m with
              | Row1 a => ~ a_gold_price a == 0
              | Row2 b => ~ b_gold_price b == 0
              | Row3 _ => True
              end).
    { intros m Hm. destruct (Hback m Hm) as (e & He & item & Hitem & Hrow).
      rewrite List.Forall_forall in Hfine. specialize (Hfine e He item Hitem).
      unfold divides_by_zero in Hfine. subst m. unfold row_for.
      destruct (is_set (ticket_price item)) eqn:Ht.
      - cbn [orb andb] in Hfine. cbn. apply Qeq_bool_neq. exact Hfine.
      - destruct (is_set (camp_contribution item)) eqn:Hc; [|exact I].
        cbn [orb andb] in Hfine. cbn. apply Qeq_bool_neq. exact Hfine. }
    destruct (sort_by_key_sorted key_A (fun y => a_ticket_price y / a_gold_price y)
                (rows_A rows)) as (As & HA & _).
    { apply List.Forall_forall. intros y Hy. unfold key_A. apply div_nonzero.
      apply list_elem_of_In, list_elem_of_omap in Hy. destruct Hy as (m & Hm & Heq).
      destruct m; inversion Heq; subst. apply (Hgold _ (proj1 (list_elem_of_In _ _) Hm)). }
    destruct (sort_by_key_sorted key_B (fun y => b_camp_price y / b_gold_price y)
                (rows_B rows)) as (Bs & HB & _).
    { apply List.Forall_forall. intros y Hy. unfold key_B. apply div_nonzero.
      apply list_elem_of_In, list_elem_of_omap in Hy. destruct Hy as (m & Hm & Heq).
      destruct m; inversion Heq; subst. apply (Hgold _ (proj1 (list_elem_of_In _ _) Hm)). }
    unfold split_materials. fold (rows_A rows). fold (rows_B rows). fold (rows_C rows).
    rewrite HA. cbn [mbind result_bind]. rewrite HB. cbn [mbind result_bind].
    unfold calculate_material_data.
    cbn [MaterialTrackingPage.A MaterialTrackingPage.B MaterialTrackingPage.C
         A_expand B_expand max_tickets max_camp max_new_dollar].
    destruct (calculate_A_returns As (max_tickets self)) as [bA HbA].
    destruct (calculate_B_returns Bs (max_camp self) (max_new_dollar self)) as [bB HbB].
    rewrite HbA. cbn [mbind result_bind]. rewrite HbB. cbn [mbind result_bind].
    eexists _, _. reflexivity.
Qed.

Lemma kit_page_known :
  Forall (fun e => is_Some (base_materials_data Data.kit_page !! fst e))
         (total_materials Data.kit_page).
Proof. repeat constructor; eexists; reflexivity. Qed.

Lemma calculate_costs_fails_only_on_zero_gold_witness :
  (Exists (fun e => exists item, base_materials_data Data.kit_page !! fst e = Some item /\
                                 divides_by_zero item = true)
          (total_materials Data.kit_page) ->
   calculate_costs Data.kit_page = Raise ZeroDivisionError) /\
  (Forall (fun e => forall item, base_materials_data Data.kit_page !! fst e = Some item ->
                                 divides_by_zero item = false)
          (total_materials Data.kit_page) ->
   exists self' data, calculate_costs Data.kit_page = Ok (self', data)).
Proof.
  apply (calculate_costs_fails_only_on_zero_gold Data.kit_page).
  exact kit_page_known.
Defined.

End Outcome.
